(* ===== verification/_CoqProject ===== *)
-Q . S2P
Prelude.v
GoString.v
StringsFast.v
Float64.v
TokenEstimator.v
StreamConsumer.v
Orchestrator.v
Catalog.v
RandomPrompt.v
RandomInput.v
GoLib.v
FloatFmt.v
GoTime.v
Json.v
JsonRead.v
JsonDoc.v
Report.v
Archive.v
