(* ===== verification/Prelude.v ===== *)
(** * A verification development for llmapibenchmark

    The repository benchmarks a streaming chat-completion endpoint.  Its Go
    sources are three files:

    - [src/internal/api/api_client.go]: [AskOpenAi] drives one streaming
      exchange (time to first token, accumulated text, token counts, progress
      bar updates, final reconciliation of the bar), [estimateTokens] is the
      heuristic token estimator called once per chunk,
      [AskOpenAiRandomInput] sends a synthesised prompt, and
      [GetFirstAvailableModel] picks the default model from the catalog.
    - [src/internal/api/random_prompt.go]: [generateRandomWord] and
      [generateRandomPhrase] synthesise a benchmark prompt from [math/rand].
    - [src/internal/utils/output.go]: [PrintBenchmarkHeader] prints the
      banner, [SaveResultsToMD] writes the Markdown table of results and
      [SaveModelOutputs] the JSON archive of the model's answers.

    Data flows one way: prompt synthesiser -> streaming consumer ->
    (token estimator, usage reconciler) -> caller aggregation -> reporter.
    The only shared mutable state is the progress bar, which the consumer
    only increments, and the file system, which the reporter writes.

    ** Files of the development (in dependency order)

    - [Prelude] (this file): the byte-string type [bytes] and its literals
      [gostr], the [result] type of fallible code with its [let!] notation,
      sums of integer lists, the tactics ([split_cmp], [bool_facts],
      [case_splits], [zdiv_lia], [len_lia], [app_norm], [andb_split]) and
      the hint databases [gobench] and [gobench_rw].
    - [GoString]: Go's string library on byte strings: UTF-8 decoding
      ([utf8.DecodeRuneInString]), [unicode.IsSpace], [strings.TrimSpace],
      [strings.Fields], [strings.Join].  Decoding a contiguous run of runes
      gives the same runes ([runes_sub]), so [Fields (TrimSpace s)] is
      computed on the trimmed runes; [Fields] inverts [Join] on words.
    - [StringsFast]: [strings.Fields] and [strings.TrimSpace] as the
      library writes them: the ASCII fast paths over the [asciiSpace]
      table (with [setBits] OR-ed over the bytes, a slice filled by
      checked index) and the fallbacks [FieldsFunc], [TrimFunc] and
      [TrimRightFunc], the latter decoding backwards with
      [utf8.DecodeLastRuneInString].  Both are proved equal to the
      rune-wise definitions of [GoString] on every byte string: the fast
      path never indexes out of range, and backward decoding finds the
      last rune of the forward decoding even in invalid UTF-8.
    - [Float64]: the binary64 arithmetic of [estimateTokens] on positive
      values, and when truncating a rounded quotient is the exact one.
    - [TokenEstimator]: [estimateTokens] as written; its contract (0 on
      blank input, at least 1 otherwise, at most the byte length), its
      equivalence with [13 * words / 10], the unreachable character branch,
      and the [Estimator] class the consumer is proved against.
    - [StreamConsumer]: [AskOpenAi] as a fold of the loop body [step] over
      the chunks, the bar as the trace of its [Add] calls, the usage
      reconciler, the stream-error path; the declarative [spec_run] it
      refines; the state machine Start/Streaming/Finalize/Failed of the
      spec as an inductive step relation, deterministic, with an invariant
      of the streaming phase by rule induction, whose stopped runs end in
      the outcome and bar of the executable consumer.
    - [Orchestrator]: the caller the spec describes (section 5, not in
      [src/]): many exchanges of one concurrency level, each an [AskOpenAi]
      call, whose [Add]s reach the shared bar in any interleaving
      ([interleaves], an inductive relation; [schedule] runs one order of
      turns).  Each exchange is a function of its inputs that only appends
      to the bar ([AskOpenAi_bar_frame]), so the level's bar is the
      interleaving of the exchanges' own traces; no increment is lost, and
      the bar ends at the sum of the completion counts of the successful
      exchanges and the chunk estimates of the failed ones.
    - [Catalog]: [GetFirstAvailableModel] and its two errors.
    - [RandomPrompt]: the synthesiser in ExtLib's state monad over an
      abstract [math/rand] source ([RandSource]): word shapes, the word
      count, the round trip through [strings.Fields] and the prompt's
      token estimate [13 * (n + 7) / 10].
    - [RandomInput]: [AskOpenAiRandomInput], the composition of the two.
    - [GoLib]: [strings.ReplaceAll] (byte-wise on one-byte patterns), the
      [%d] verb and widths with a decimal reader, and [filepath.Clean] /
      [filepath.Join] translated from Go's loop, with [Clean_canonical]:
      a relative path of real elements is unchanged.
    - [FloatFmt]: [float64] values with sign, infinities and NaN;
      multiplication with gradual underflow and overflow; [%.2f], read back
      as the nearest hundredth, ties to even.
    - [GoTime]: [time.Time] as an instant and a zone offset; the calendar
      ([civil_from_days], a bijection checked over a 400-year cycle); the
      layouts the code uses and strict RFC 3339 for [MarshalJSON]; the
      file-name stamp keeps the second.
    - [Json]: [encoding/json]'s string escaping, sorted map keys and
      [MarshalIndent] layout, with stdpp's [gmap] for the Go map.
    - [JsonRead]: what a reader of the archive gets back.  [utf8.EncodeRune]
      ([Utf8Enc]) with the proof that it re-encodes every rune
      [DecodeRuneInString] decodes, and [encoding/json]'s [unquote] loop
      ([JsonRead]; neither is called by the code): every string the
      encoder writes reads back as [string([]rune(s))], the string itself
      when it is valid UTF-8.
    - [JsonDoc]: a reader of whole indented documents (white space,
      [null], integers, strings, arrays, objects; recursive descent with
      the text's length as fuel), and the proof that it reads back every
      value [MarshalIndent] prints, at any depth and whatever follows.
    - [Report]: the three functions of [output.go] over a [World] of files
      (a stdpp [gmap]), directories, standard output and log, the OS's
      errors being inputs ([OS]); sanitising of model names, the Markdown
      table and its read-back, the panics of ill-typed rows, the JSON
      archive's path, layout and errors; the dynamic types of a row's
      [interface{}] values as a typing judgement ([has_type]).
    - [Archive]: the archive read back: the timestamp text of
      [appendStrictRFC3339] is plain ASCII that the encoder copies, so
      [parse] of the archive gives the five fields back.

    ** What the theorems show

    The manifest lists 39 claims; in short: the bar advances by exactly the
    reported completion count and is corrected once, and a level of
    concurrent exchanges loses no increment of the shared bar whatever the
    interleaving; [AskOpenAi] refines the declarative specification, and
    the spec's state machine keeps its invariant; the library's [strings.Fields] and
    [strings.TrimSpace], fast paths included, equal the rune-wise
    definitions the other theorems use; the estimator's contract and formula; the prompt's
    shape and estimate; the reporter's files, names, layouts and errors;
    archive names read the local clock of the timestamp; the type soundness of the row assertions (the report is written in
    full exactly when every row has the types [int, float64 x 5]); and the
    whole archive read back by a JSON reader, strings as [encoding/json]
    decodes them.
    Findings (in [PROJECT.json]) include the unreachable character branch
    of the estimator, usage records that erase an earlier count, bars left
    advanced by failed streams, colliding report names, archive names in
    local time, [null] for nil outputs, invalid UTF-8 in outputs replaced
    by U+FFFD, and a garbled banner.

    ** Modelling choices, bounds and fuel

    - A Go [string] is a byte sequence: [bytes] is [list ascii].  Go [int]
      is [Z]; the bounds theorems show the sums stay below the byte length
      of the processed text, so no wrap-around is reachable; the estimator
      theorems assume chunks below 2^48 bytes, where the float64 product
      is exact enough, and the prompt theorem counts below 2^40 words.
    - Fuel: every loop over a string ([runes], [ReplaceAll], [Clean]'s
      loops, the JSON reader's loop) gets the byte length as fuel, and each
      iteration consumes at least one byte, so the fuel never runs out;
      the document reader gets the text's length, which bounds the number
      of values and elements it reads ([jsize_indent]);
      [utoa] gets the binary length of the value, which exceeds the
      decimal one.
    - [time.Since(start)] and [time.Now()] are inputs; the OpenAI client
      is a function from the request to the stream it answers; the bar is
      [option (list Z)], the arguments of every [bar.Add] in order.
    - [os.WriteFile] failing leaves the file unchanged (a failure to open
      it); [file.WriteString] never fails once [os.Create] succeeded,
      because the code ignores its errors anyway.
    - [rand.Seed(now)] is the [Seed] of the abstract source [RandSource]:
      it resets the global source, as it does up to Go 1.23.  From Go 1.24
      on, [rand.Seed] is a no-op unless [GODEBUG=randseednop=0]; the
      repository does not fix its Go version.  The theorems on the prompt's
      shape, word count and estimate hold for every [RandSource] and
      whatever state the source is in after seeding, so they hold under
      both semantics; only the exact words drawn depend on it.
    - [time.Time.MarshalJSON] is [appendStrictRFC3339] as in Go's
      [time/format_rfc3339.go]: the zone is printed from [offset / 60],
      Go's truncating division, so an offset under a minute prints
      [+00:00]; the code marshals [UTC()], whose zone is always [Z].

    ** Not modelled

    - The OpenAI client, its HTTP transport and the progress bar widget:
      libraries whose observable behaviour is the model's input (the
      chunk stream and its final error) or its output (the Add trace).
    - Of the concurrency orchestrator (modelled from the spec), the
      aggregation of [RunMetrics] into result rows, which the spec does not
      define; exchanges are interleaved at the granularity of [Add] calls,
      which the spec asks to be atomic.
    - The fmt flags and time layouts the code does not use; the general
      layout interpreter of [time.Format]. *)

From Stdlib Require Import ZArith List String Ascii Lia.
Import ListNotations.
Open Scope Z_scope.

Declare Scope gobench_scope.
Delimit Scope gobench_scope with go.

(** Go strings: byte sequences. *)
Abbreviation bytes := (list ascii).

(** Literal of a Go string: [gostr "Hello"] is the bytes of ["Hello"]. *)
Definition gostr (s : string) : bytes := list_ascii_of_string s.
Arguments gostr s%_string.

(** The value of a byte. *)
Definition byte_val (b : ascii) : Z := Z.of_N (N_of_ascii b).
Arguments byte_val : simpl never.

(** The result of fallible Go code: a value, or an error. *)
Inductive result (A E : Type) : Type :=
| Ok (a : A)
| Err (e : E).
Arguments Ok {A E} a.
Arguments Err {A E} e.

Definition bind_result {A B E} (r : result A E) (k : A -> result B E) : result B E :=
  match r with Ok a => k a | Err e => Err e end.

(** [v, err := c; if err != nil { return .., err }; k]. *)
Notation "'let!' x := c 'in' k" := (bind_result c (fun x => k))
  (at level 10, x name, c at level 100, k at level 200) : gobench_scope.

(** Sum of a list of Go ints. *)
Definition sumZ (l : list Z) : Z := fold_right Z.add 0 l.

Lemma sumZ_app l1 l2 : sumZ (l1 ++ l2) = sumZ l1 + sumZ l2.
Proof. unfold sumZ. rewrite fold_right_app. induction l1; simpl; lia. Qed.

Lemma sumZ_cons x l : sumZ (x :: l) = x + sumZ l.
Proof. reflexivity. Qed.

Lemma sumZ_nil : sumZ [] = 0.
Proof. reflexivity. Qed.

Lemma byte_val_range b : 0 <= byte_val b < 256.
Proof.
  unfold byte_val. pose proof (N_ascii_bounded b). lia.
Qed.

Lemma bind_result_ok {A B E} (a : A) (k : A -> result B E) :
  bind_result (Ok a) k = k a.
Proof. reflexivity. Qed.

Create HintDb gobench.
Create Rewrite HintDb gobench_rw.
#[export] Hint Rewrite sumZ_app sumZ_cons sumZ_nil length_app app_nil_r : gobench_rw.
#[export] Hint Rewrite @bind_result_ok : gobench_rw.
#[export] Hint Resolve byte_val_range : gobench.

(** Case analysis on the boolean comparisons of [Z] and [nat] that the
    models' branches test. *)
Ltac split_cmp :=
  repeat match goal with
  | |- context [Z.ltb ?a ?b] => destruct (Z.ltb_spec a b)
  | |- context [Z.leb ?a ?b] => destruct (Z.leb_spec a b)
  | |- context [Z.eqb ?a ?b] => destruct (Z.eqb_spec a b)
  | |- context [Nat.eqb ?a ?b] => destruct (Nat.eqb_spec a b)
  | |- context [Nat.ltb ?a ?b] => destruct (Nat.ltb_spec a b)
  | |- context [Nat.leb ?a ?b] => destruct (Nat.leb_spec a b)
  end.

(** Simplify with the development's rewrite database, then close
    arithmetic. *)
Ltac go_arith := autorewrite with gobench_rw in *; simpl in *; lia.

(** Case analysis on every [if] and [match] of the goal and hypotheses,
    recording the tested value with an equation. *)
Ltac case_splits :=
  repeat match goal with
  | |- context [if ?c then _ else _] => destruct c eqn:?
  | H : context [if ?c then _ else _] |- _ => destruct c eqn:?
  | |- context [match ?x with _ => _ end] => destruct x eqn:?
  | H : context [match ?x with _ => _ end] |- _ => destruct x eqn:?
  end.

(** Turn the boolean comparisons found in hypotheses into propositions. *)
Ltac bool_facts :=
  repeat match goal with
  | H : (_ <? _)%nat = true |- _ => apply Nat.ltb_lt in H
  | H : (_ <? _)%nat = false |- _ => apply Nat.ltb_ge in H
  | H : (_ <=? _)%nat = true |- _ => apply Nat.leb_le in H
  | H : (_ <=? _)%nat = false |- _ => apply Nat.leb_gt in H
  | H : (_ <? _) = true |- _ => apply Z.ltb_lt in H
  | H : (_ <? _) = false |- _ => apply Z.ltb_ge in H
  | H : (_ <=? _) = true |- _ => apply Z.leb_le in H
  | H : (_ <=? _) = false |- _ => apply Z.leb_gt in H
  | H : (_ =? _) = true |- _ => apply Z.eqb_eq in H
  | H : (_ =? _) = false |- _ => apply Z.eqb_neq in H
  end.

(** Normalise concatenations: right-nested, conses pushed out. *)
Ltac app_norm := repeat progress (cbn [app]; try rewrite <- !app_assoc).

(** Split every boolean conjunction found true in a hypothesis. *)
Ltac andb_split :=
  repeat match goal with H : andb _ _ = true |- _ => apply andb_prop in H as [? ?] end.

(** [lia] after stating the Euclidean equations of every [/] and [mod]. *)
Ltac zdiv_lia := Z.to_euclidean_division_equations; lia.

(** Arithmetic on lengths of concatenations and conses. *)
Ltac len_lia := repeat progress (autorewrite with gobench_rw; cbn [List.length]); lia.
