(* ===== verification/GoString.v ===== *)
(** * Go's string library on byte strings

    The parts of Go's [unicode/utf8], [unicode] and [strings] packages that
    [estimateTokens] and [AskOpenAi] call: [utf8.DecodeRuneInString] (the
    decoding that [range] over a string and the [strings] functions use),
    [unicode.IsSpace], [strings.TrimSpace] and [strings.Fields].

    A string is decoded into its runes ([runes]): each rune comes with the
    bytes that encode it, an invalid byte being one [RuneError] of width 1.
    [TrimSpace] drops the leading and trailing space runes and [Fields] cuts
    the runes at the space runes, as Go's library does.  The lemma
    [runes_sub] says that re-decoding the bytes of a contiguous run of the
    runes of a string gives back that run: this is what lets the estimator's
    [Fields (TrimSpace s)] be computed on the runes of [s]. *)

From Stdlib Require Import ZArith List Ascii Lia Bool.
From S2P Require Import Prelude.
Import ListNotations.
Open Scope Z_scope.

Module Utf8.

(** Constants of [unicode/utf8]. *)
Definition RuneError : Z := 65533.
Definition RuneSelf : Z := 128.
Definition locb : Z := 128.
Definition hicb : Z := 191.
Definition maskx : Z := 63.
Definition mask2 : Z := 31.
Definition mask3 : Z := 15.
Definition mask4 : Z := 7.

(** The [first] table of [utf8]: for a non-ASCII leading byte, the length of
    the sequence and the accepted range of the second byte, or [None] for a
    byte that cannot start a sequence. *)
Definition first (x0 : Z) : option (nat * Z * Z) :=
  if x0 <? 194 then None
  else if x0 <=? 223 then Some (2%nat, locb, hicb)
  else if x0 =? 224 then Some (3%nat, 160, hicb)
  else if x0 <=? 236 then Some (3%nat, locb, hicb)
  else if x0 =? 237 then Some (3%nat, locb, 159)
  else if x0 <=? 239 then Some (3%nat, locb, hicb)
  else if x0 =? 240 then Some (4%nat, 144, hicb)
  else if x0 <=? 243 then Some (4%nat, locb, hicb)
  else if x0 =? 244 then Some (4%nat, locb, 143)
  else None.

Definition out_of (lo hi x : Z) : bool := (x <? lo) || (hi <? x).
Arguments first : simpl never.
Arguments out_of : simpl never.

(** The byte [s[i]] of a string (Go reads it after a length check). *)
Definition byte_at (s : bytes) (i : nat) : Z := byte_val (nth i s zero).
Arguments byte_at : simpl never.

(** [utf8.DecodeRuneInString]: the first rune of [s] and its width. *)
Definition DecodeRuneInString (s : bytes) : Z * nat :=
  let n := List.length s in
  if (n <? 1)%nat then (RuneError, 0%nat) else
  let x0 := byte_at s 0 in
  if x0 <? RuneSelf then (x0, 1%nat) else
  match first x0 with
  | None => (RuneError, 1%nat)
  | Some (sz, lo, hi) =>
    if (n <? sz)%nat then (RuneError, 1%nat) else
    let x1 := byte_at s 1 in
    if out_of lo hi x1 then (RuneError, 1%nat) else
    if (sz <=? 2)%nat then
      (Z.lor (Z.shiftl (Z.land x0 mask2) 6) (Z.land x1 maskx), 2%nat) else
    let x2 := byte_at s 2 in
    if out_of locb hicb x2 then (RuneError, 1%nat) else
    if (sz <=? 3)%nat then
      (Z.lor (Z.lor (Z.shiftl (Z.land x0 mask3) 12)
                    (Z.shiftl (Z.land x1 maskx) 6)) (Z.land x2 maskx), 3%nat) else
    let x3 := byte_at s 3 in
    if out_of locb hicb x3 then (RuneError, 1%nat) else
    (Z.lor (Z.lor (Z.lor (Z.shiftl (Z.land x0 mask4) 18)
                         (Z.shiftl (Z.land x1 maskx) 12))
                  (Z.shiftl (Z.land x2 maskx) 6)) (Z.land x3 maskx), 4%nat)
  end.

End Utf8.

Module Unicode.

(** [unicode.IsSpace]: the Latin-1 spaces, then the [White_Space] table. *)
Definition IsSpace (r : Z) : bool :=
  if r <=? 255 then
    (r =? 9) || (r =? 10) || (r =? 11) || (r =? 12) || (r =? 13) ||
    (r =? 32) || (r =? 133) || (r =? 160)
  else
    (r =? 5760) || ((8192 <=? r) && (r <=? 8202)) || (r =? 8232) ||
    (r =? 8233) || (r =? 8239) || (r =? 8287) || (r =? 12288).

End Unicode.

Import Utf8 Unicode.

(** A decoded rune with the bytes that encode it. *)
Abbreviation seg := (Z * bytes)%type.

(** The runes of a string, in order, as [range s] visits them; the fuel is
    the byte length, and each step consumes at least one byte. *)
Fixpoint runes_fuel (fuel : nat) (s : bytes) : list seg :=
  match fuel, s with
  | O, _ => []
  | _, [] => []
  | S f, _ :: _ =>
    let (r, n) := DecodeRuneInString s in
    (r, firstn n s) :: runes_fuel f (skipn n s)
  end.

Definition runes (s : bytes) : list seg := runes_fuel (List.length s) s.

(** The bytes of a run of runes. *)
Definition bytes_of (l : list seg) : bytes := concat (map snd l).

Definition space_seg (x : seg) : bool := IsSpace (fst x).

Fixpoint dropWhile {A} (f : A -> bool) (l : list A) : list A :=
  match l with
  | [] => []
  | x :: l' => if f x then dropWhile f l' else l
  end.

(** Trimming space runes on both sides of a rune sequence. *)
Definition trim_segs (l : list seg) : list seg :=
  rev (dropWhile space_seg (rev (dropWhile space_seg l))).

(** [strings.TrimSpace]: [s] without its leading and trailing space runes. *)
Definition TrimSpace (s : bytes) : bytes := bytes_of (trim_segs (runes s)).

(** [strings.FieldsFunc(s, unicode.IsSpace)] on runes: the maximal non-empty
    runs of non-space runes; [cur] is the field being read. *)
Fixpoint fields_segs (l : list seg) (cur : bytes) : list bytes :=
  match l with
  | [] => match cur with [] => [] | _ => [cur] end
  | (r, b) :: l' =>
    if IsSpace r then
      match cur with
      | [] => fields_segs l' []
      | _ => cur :: fields_segs l' []
      end
    else fields_segs l' (cur ++ b)
  end.

(** [strings.Fields]. *)
Definition Fields (s : bytes) : list bytes := fields_segs (runes s) [].

(** [strings.Join]. *)
Fixpoint Join (elems : list bytes) (sep : bytes) : bytes :=
  match elems with
  | [] => []
  | [e] => e
  | e :: rest => e ++ sep ++ Join rest sep
  end.


(** ** Decoding one rune *)

Lemma first_size x0 sz lo hi :
  first x0 = Some (sz, lo, hi) -> (2 <= sz <= 4)%nat.
Proof. unfold first. intros H. case_splits; inversion H; lia. Qed.

Lemma byte_at_app_lt p q i : (i < List.length p)%nat -> byte_at (p ++ q) i = byte_at p i.
Proof. intros H. unfold byte_at. rewrite app_nth1 by exact H. reflexivity. Qed.

(** The width of a decoded rune: 0 for the empty string, otherwise between
    1 and the byte length. *)
Lemma decode_width s :
  let n := snd (DecodeRuneInString s) in
  (s = [] /\ n = 0%nat) \/ (s <> [] /\ 1 <= n <= List.length s)%nat.
Proof.
  unfold DecodeRuneInString. simpl.
  destruct s as [|b s]; [left; auto|right; split; [discriminate|]].
  simpl List.length.
  destruct (_ <? 1)%nat eqn:E0; bool_facts; [lia|].
  destruct (byte_at _ 0 <? RuneSelf); [simpl; lia|].
  destruct (first _) as [[[sz lo] hi]|] eqn:E; [|simpl; lia].
  apply first_size in E.
  destruct (_ <? sz)%nat eqn:L; [simpl; lia|]. bool_facts.
  repeat (destruct (out_of _ _ _); [simpl; lia|];
          destruct (_ <=? _)%nat eqn:?; bool_facts; [simpl; lia|]).
  destruct (out_of _ _ _); simpl; lia.
Qed.

(** Decoding only reads the bytes of the rune it returns: a prefix of the
    string that still holds them decodes to the same rune (an invalid
    leading byte stays invalid in a shorter string). *)
Lemma decode_app_prefix p q r n :
  DecodeRuneInString (p ++ q) = (r, n) -> (n <= List.length p)%nat ->
  DecodeRuneInString p = (r, n).
Proof.
  intros H Hn.
  destruct (decode_width (p ++ q)) as [[E _]|[_ W]].
  { apply app_eq_nil in E as [-> ->]. exact H. }
  rewrite H in W; simpl in W.
  unfold DecodeRuneInString in *. cbv zeta in *.
  rewrite length_app in H.
  rewrite !(byte_at_app_lt p q 0) in H by lia.
  destruct (_ + _ <? 1)%nat eqn:A; bool_facts; [lia|].
  destruct (List.length p <? 1)%nat eqn:B; bool_facts; [lia|].
  destruct (byte_at p 0 <? RuneSelf); [exact H|].
  destruct (first (byte_at p 0)) as [[[sz lo] hi]|] eqn:F; [|exact H].
  apply first_size in F.
  destruct (_ + _ <? sz)%nat eqn:L1;
    destruct (List.length p <? sz)%nat eqn:L0; bool_facts; try lia.
  - exact H.
  - (* the prefix is too short: the full string's answer is an error of
       width 1, or a rune wider than the prefix *)
    revert H. case_splits; intros H; inversion H; subst; bool_facts; try lia;
      reflexivity.
  - rewrite !(byte_at_app_lt p q 1) in H by lia.
    destruct (out_of lo hi (byte_at p 1)); [exact H|].
    destruct (sz <=? 2)%nat eqn:S2; [exact H|]. bool_facts.
    rewrite !(byte_at_app_lt p q 2) in H by lia.
    destruct (out_of locb hicb (byte_at p 2)); [exact H|].
    destruct (sz <=? 3)%nat eqn:S3; [exact H|]. bool_facts.
    rewrite !(byte_at_app_lt p q 3) in H by lia.
    exact H.
Qed.

(** ** The rune sequence of a string *)

Lemma decode_cons_width b s : (1 <= snd (DecodeRuneInString (b :: s)) <= S (List.length s))%nat.
Proof.
  destruct (decode_width (b :: s)) as [[E _]|[_ W]]; [discriminate|exact W].
Qed.

Lemma runes_fuel_enough f1 f2 s :
  (List.length s <= f1)%nat -> (List.length s <= f2)%nat -> runes_fuel f1 s = runes_fuel f2 s.
Proof.
  revert f2 s. induction f1 as [|f1 IH]; intros f2 s H1 H2.
  - destruct s; [destruct f2; reflexivity|simpl in H1; lia].
  - destruct s as [|b s]; [destruct f2; reflexivity|].
    destruct f2 as [|f2]; [simpl in H2; lia|].
    cbn [runes_fuel]. pose proof (decode_cons_width b s) as W.
    destruct (DecodeRuneInString (b :: s)) as [r n]. simpl in W.
    f_equal. apply IH; rewrite length_skipn; cbn [List.length] in *; lia.
Qed.

(** The unfolding equation of [runes]. *)
Lemma runes_cons s :
  s <> [] ->
  runes s = (fst (DecodeRuneInString s), firstn (snd (DecodeRuneInString s)) s)
              :: runes (skipn (snd (DecodeRuneInString s)) s).
Proof.
  intros Hs. destruct s as [|b s]; [congruence|].
  unfold runes at 1. cbn [List.length runes_fuel].
  pose proof (decode_cons_width b s) as W.
  destruct (DecodeRuneInString (b :: s)) as [r n]. cbn [fst snd] in *.
  f_equal. unfold runes. apply runes_fuel_enough; rewrite length_skipn; cbn [List.length]; lia.
Qed.

Lemma runes_nil : runes [] = [].
Proof. reflexivity. Qed.

(** Induction along the runes of a string. *)
Lemma runes_ind (P : bytes -> Prop) :
  P [] ->
  (forall s, s <> [] -> P (skipn (snd (DecodeRuneInString s)) s) -> P s) ->
  forall s, P s.
Proof.
  intros Hnil Hstep s. remember (List.length s) as k eqn:Hk.
  revert s Hk. induction k as [k IH] using (well_founded_induction lt_wf).
  intros s Hk. destruct s as [|b s']; [exact Hnil|].
  apply Hstep; [discriminate|]. eapply IH; [|reflexivity].
  pose proof (decode_cons_width b s'). rewrite length_skipn. subst k.
  cbn [List.length] in *. lia.
Qed.

Lemma bytes_of_app l1 l2 : bytes_of (l1 ++ l2) = bytes_of l1 ++ bytes_of l2.
Proof. unfold bytes_of. rewrite map_app, concat_app. reflexivity. Qed.

Lemma bytes_of_cons x l : bytes_of (x :: l) = snd x ++ bytes_of l.
Proof. reflexivity. Qed.

(** Concatenating the runes' bytes gives the string back. *)
Lemma bytes_of_runes s : bytes_of (runes s) = s.
Proof.
  induction s as [|s Hs IH] using runes_ind; [reflexivity|].
  rewrite runes_cons by exact Hs. rewrite bytes_of_cons, IH. simpl.
  apply firstn_skipn.
Qed.

(** Every rune is encoded by at least one byte. *)
Lemma runes_nonempty s : Forall (fun x => snd x <> []) (runes s).
Proof.
  induction s as [|s Hs IH] using runes_ind; [constructor|].
  rewrite runes_cons by exact Hs. constructor; [|exact IH].
  destruct s as [|b s]; [congruence|].
  pose proof (decode_cons_width b s). simpl.
  destruct (snd _); [lia|discriminate].
Qed.

Lemma length_runes s : (List.length (runes s) <= List.length s)%nat.
Proof.
  induction s as [|s Hs IH] using runes_ind; [simpl; lia|].
  rewrite runes_cons by exact Hs. simpl. rewrite length_skipn in IH.
  destruct s as [|b s]; [congruence|].
  pose proof (decode_cons_width b s). cbn [List.length] in *. lia.
Qed.

(** Decoding the bytes of the last runes of a string gives those runes. *)
Lemma runes_suffix s l1 l2 : runes s = l1 ++ l2 -> runes (bytes_of l2) = l2.
Proof.
  revert s. induction l1 as [|x l1 IH]; intros s H.
  - simpl in H. rewrite <- H, bytes_of_runes. reflexivity.
  - destruct s as [|b s']; [discriminate|].
    rewrite runes_cons in H by discriminate. inversion H; subst.
    eapply IH. eassumption.
Qed.

(** Decoding the bytes of the first runes of a string gives those runes:
    the last of them does not read past its own bytes
    ([decode_app_prefix]). *)
Lemma runes_prefix s l1 l2 : runes s = l1 ++ l2 -> runes (bytes_of l1) = l1.
Proof.
  revert s. induction l1 as [|x l1 IH]; intros s H; [reflexivity|].
  destruct s as [|b s']; [discriminate|].
  set (s := b :: s') in *.
  pose proof (decode_cons_width b s') as W. fold s in W.
  rewrite runes_cons in H by discriminate. inversion H as [[Hx Hrest]].
  destruct (DecodeRuneInString s) as [r n] eqn:D. cbn [fst snd] in *.
  subst x.
  assert (Hs : s = (firstn n s ++ bytes_of l1) ++ bytes_of l2).
  { rewrite <- app_assoc, <- bytes_of_app, <- Hrest, bytes_of_runes.
    symmetry. apply firstn_skipn. }
  assert (Hn : List.length (firstn n s) = n).
  { apply firstn_length_le. unfold s. cbn [List.length]. lia. }
  rewrite bytes_of_cons. cbn [snd].
  rewrite runes_cons by (destruct (firstn n s); [cbn in Hn; lia|discriminate]).
  rewrite Hs in D. apply decode_app_prefix in D; [|rewrite length_app; lia].
  rewrite D. cbn [fst snd].
  rewrite firstn_app, Hn, Nat.sub_diag, firstn_O, app_nil_r, firstn_firstn, Nat.min_id.
  rewrite skipn_app, Hn, Nat.sub_diag, skipn_O.
  replace (skipn n (firstn n s)) with (@nil ascii)
    by (symmetry; apply skipn_all2; lia).
  f_equal. eapply IH. eassumption.
Qed.

(** The central lemma: a contiguous run of the runes of a string decodes
    back to itself. *)
Lemma runes_sub s l1 l2 l3 : runes s = l1 ++ l2 ++ l3 -> runes (bytes_of l2) = l2.
Proof.
  intros H. apply runes_suffix in H. rewrite bytes_of_app in H.
  apply runes_prefix in H.
  (* runes (bytes_of l2 ++ bytes_of l3) = l2 ++ l3, so its prefix decodes *)
  exact H.
Qed.

(** ** Trimming *)

Lemma dropWhile_suffix {A} (f : A -> bool) l : exists pre, l = pre ++ dropWhile f l.
Proof.
  induction l as [|x l [pre IH]]; [exists []; reflexivity|]. simpl.
  destruct (f x); [exists (x :: pre); simpl; congruence|exists []; reflexivity].
Qed.

Lemma dropWhile_head {A} (f : A -> bool) l x l' : dropWhile f l = x :: l' -> f x = false.
Proof.
  induction l as [|y l IH]; simpl; [discriminate|].
  destruct (f y) eqn:E; [exact IH|]. intros H. inversion H; subst. exact E.
Qed.

(** The trimmed runes are a contiguous run of the runes. *)
Lemma trim_segs_sub l : exists l1 l3, l = l1 ++ trim_segs l ++ l3.
Proof.
  destruct (dropWhile_suffix space_seg l) as [l1 H1].
  destruct (dropWhile_suffix space_seg (rev (dropWhile space_seg l))) as [l3 H3].
  exists l1, (rev l3). unfold trim_segs.
  rewrite <- rev_app_distr, <- H3, rev_involutive. exact H1.
Qed.

(** The first trimmed rune is not a space. *)
Lemma trim_segs_head l x l' : trim_segs l = x :: l' -> space_seg x = false.
Proof.
  unfold trim_segs. set (m := dropWhile space_seg l). intros H.
  destruct (dropWhile_suffix space_seg (rev m)) as [l3 H3].
  assert (Hm : m = x :: l' ++ rev l3).
  { rewrite <- (rev_involutive m), H3, rev_app_distr, H. reflexivity. }
  apply (dropWhile_head space_seg l x (l' ++ rev l3)). exact Hm.
Qed.

(** [TrimSpace] decodes to the trimmed runes. *)
Lemma runes_TrimSpace s : runes (TrimSpace s) = trim_segs (runes s).
Proof.
  destruct (trim_segs_sub (runes s)) as [l1 [l3 H]].
  unfold TrimSpace. eapply runes_sub. exact H.
Qed.

Lemma bytes_of_nil_iff l :
  Forall (fun x => snd x <> []) l -> bytes_of l = [] <-> l = [].
Proof.
  intros Hl. split; [|intros ->; reflexivity].
  destruct Hl as [|x l Hx _]; [reflexivity|].
  rewrite bytes_of_cons. intros H. apply app_eq_nil in H. tauto.
Qed.

Lemma trim_segs_nonempty s : Forall (fun x => snd x <> []) (trim_segs (runes s)).
Proof.
  destruct (trim_segs_sub (runes s)) as [l1 [l3 H]].
  pose proof (runes_nonempty s) as N. rewrite H in N.
  apply Forall_app in N as [_ N]. apply Forall_app in N as [N _]. exact N.
Qed.

Lemma TrimSpace_nil_iff s : TrimSpace s = [] <-> trim_segs (runes s) = [].
Proof. apply bytes_of_nil_iff, trim_segs_nonempty. Qed.

Lemma length_TrimSpace s : (List.length (TrimSpace s) <= List.length s)%nat.
Proof.
  destruct (trim_segs_sub (runes s)) as [l1 [l3 H]].
  pose proof (f_equal bytes_of H) as Hb.
  rewrite bytes_of_runes, !bytes_of_app in Hb.
  unfold TrimSpace. rewrite Hb at 2. rewrite !length_app. lia.
Qed.

(** ** Fields *)

Lemma fields_segs_cur l cur : cur <> [] -> fields_segs l cur <> [].
Proof.
  revert cur. induction l as [|[r b] l IH]; intros cur Hc; simpl.
  - destruct cur; [congruence|discriminate].
  - destruct (IsSpace r); [destruct cur; [congruence|discriminate]|].
    apply IH. destruct cur; [congruence|discriminate].
Qed.

(** Two fields are separated by at least one space rune. *)
Lemma length_fields_segs l cur :
  (2 * List.length (fields_segs l cur) <= List.length l + 1 +
     match cur with [] => 0 | _ => 1 end)%nat.
Proof.
  revert cur. induction l as [|[r b] l IH]; intros cur; simpl.
  - destruct cur; simpl; lia.
  - destruct (IsSpace r).
    + specialize (IH []). destruct cur; simpl in *; lia.
    + specialize (IH (cur ++ b)). destruct cur, b; simpl in *; lia.
Qed.

(** A non-blank string has at least one field after trimming: the first
    trimmed rune is not a space and starts a field. *)
Lemma Fields_TrimSpace_nonempty s : TrimSpace s <> [] -> Fields (TrimSpace s) <> [].
Proof.
  intros H. unfold Fields. rewrite runes_TrimSpace.
  rewrite TrimSpace_nil_iff in H. pose proof (trim_segs_nonempty s) as N.
  destruct (trim_segs (runes s)) as [|[r b] l] eqn:E; [congruence|].
  apply trim_segs_head in E. unfold space_seg in E. cbn [fst] in E.
  inversion N as [|? ? Hb _]; subst. cbn [snd] in Hb.
  simpl. rewrite E. apply fields_segs_cur. exact Hb.
Qed.

Lemma Fields_nil : Fields [] = [].
Proof. reflexivity. Qed.

(** The number of fields is at most half the byte length, rounded up. *)
Lemma length_Fields s : (2 * List.length (Fields s) <= List.length s + 1)%nat.
Proof.
  pose proof (length_fields_segs (runes s) []) as H. pose proof (length_runes s).
  cbn iota in H. unfold Fields. lia.
Qed.

(** ** Fields of trimmed, ASCII and joined strings *)

Lemma dropWhile_spec {A} (f : A -> bool) l :
  exists pre, l = pre ++ dropWhile f l /\ Forall (fun x => f x = true) pre.
Proof.
  induction l as [|x l [pre [IH HF]]]; [exists []; auto|]. simpl.
  destruct (f x) eqn:E; [exists (x :: pre); simpl; split; [congruence|auto]|].
  exists []. auto.
Qed.

Lemma fields_segs_dropWhile l : fields_segs (dropWhile space_seg l) [] = fields_segs l [].
Proof.
  induction l as [|[r b] l IH]; [reflexivity|]. unfold space_seg in *. simpl.
  destruct (IsSpace r) eqn:E; [exact IH|]. simpl. rewrite E. reflexivity.
Qed.

(** Trailing space runes do not change the fields. *)
Lemma fields_segs_spaces l sps cur :
  Forall (fun x => space_seg x = true) sps -> fields_segs (l ++ sps) cur = fields_segs l cur.
Proof.
  intros Hs. revert cur. induction l as [|[r b] l IH]; intros cur; simpl.
  - revert cur. induction Hs as [|[r b] sps Hx _ IH]; intros cur; [reflexivity|].
    unfold space_seg in Hx. simpl in *. rewrite Hx. destruct cur; [apply IH|].
    rewrite IH. reflexivity.
  - destruct (IsSpace r); [destruct cur|]; rewrite ?IH; reflexivity.
Qed.

(** Trimming does not change the fields. *)
Lemma Fields_TrimSpace s : Fields (TrimSpace s) = Fields s.
Proof.
  unfold Fields. rewrite runes_TrimSpace. unfold trim_segs.
  set (m := dropWhile space_seg (runes s)).
  destruct (dropWhile_spec space_seg (rev m)) as [pre [H HF]].
  assert (Hm : m = rev (dropWhile space_seg (rev m)) ++ rev pre).
  { rewrite <- rev_app_distr, <- H, rev_involutive. reflexivity. }
  rewrite <- (fields_segs_spaces _ (rev pre)) by (apply Forall_rev; exact HF).
  rewrite <- Hm. apply fields_segs_dropWhile.
Qed.

(** The rune of an ASCII byte is the byte itself. *)
Definition ascii_seg (b : ascii) : seg := (byte_val b, [b]).

Lemma runes_ascii s :
  Forall (fun b => byte_val b < RuneSelf) s -> runes s = map ascii_seg s.
Proof.
  induction 1 as [|b s Hb _ IH]; [reflexivity|].
  rewrite runes_cons by discriminate.
  assert (D : DecodeRuneInString (b :: s) = (byte_val b, 1%nat)).
  { unfold DecodeRuneInString. cbn [List.length]. cbv zeta.
    replace (byte_at (b :: s) 0) with (byte_val b) by reflexivity.
    destruct (S (List.length s) <? 1)%nat eqn:E; bool_facts; [lia|].
    destruct (byte_val b <? RuneSelf) eqn:E2; bool_facts; [reflexivity|lia]. }
  rewrite D. cbn [fst snd firstn skipn]. rewrite IH. reflexivity.
Qed.

(** A word of non-space ASCII bytes extends the current field. *)
Lemma fields_segs_word w l cur :
  Forall (fun b => IsSpace (byte_val b) = false) w ->
  fields_segs (map ascii_seg w ++ l) cur = fields_segs l (cur ++ w).
Proof.
  intros Hw. revert cur. induction Hw as [|b w Hb _ IH]; intros cur.
  - rewrite app_nil_r. reflexivity.
  - cbn [map app fields_segs ascii_seg]. rewrite Hb, IH, <- app_assoc. reflexivity.
Qed.

(** The bytes a joined list of words may hold: ASCII, and no white space. *)
Definition word_byte (b : ascii) : Prop := byte_val b < RuneSelf /\ IsSpace (byte_val b) = false.

Lemma Join_app ws1 ws2 sep :
  ws1 <> [] -> ws2 <> [] -> Join (ws1 ++ ws2) sep = Join ws1 sep ++ sep ++ Join ws2 sep.
Proof.
  intros H1 H2. induction ws1 as [|w [|w' ws1] IH]; [congruence| |].
  - cbn [app Join]. destruct ws2; [congruence|reflexivity].
  - change ((w :: w' :: ws1) ++ ws2) with (w :: ((w' :: ws1) ++ ws2)).
    cbn [Join]. fold (Join ((w' :: ws1) ++ ws2) sep). rewrite IH by discriminate.
    change (Join (w' :: ws1) sep) with (Join (w' :: ws1) sep).
    destruct ws1; cbn [app Join]; rewrite <- !app_assoc; reflexivity.
Qed.

(** Round trip: [strings.Fields] splits words joined by one ASCII space
    byte back into the words. *)
Lemma Fields_Join ws sp :
  byte_val sp < RuneSelf -> IsSpace (byte_val sp) = true ->
  Forall (fun w => w <> [] /\ Forall word_byte w) ws ->
  Fields (Join ws [sp]) = ws.
Proof.
  intros Hsp Hsps Hws.
  assert (Hascii : Forall (fun b => byte_val b < RuneSelf) (Join ws [sp])).
  { clear Hsps. induction Hws as [|w ws [_ Hw] _ IH]; [constructor|].
    assert (Forall (fun b => byte_val b < RuneSelf) w)
      by (eapply Forall_impl; [|exact Hw]; intros b [Hb _]; exact Hb).
    destruct ws; cbn [Join]; [assumption|].
    apply Forall_app; split; [assumption|]. constructor; assumption. }
  unfold Fields. rewrite runes_ascii by exact Hascii. clear Hascii.
  enough (E : forall cur, cur <> [] \/ ws <> [] ->
            fields_segs (map ascii_seg (Join ws [sp])) cur =
            match ws with [] => [cur] | w :: ws' => (cur ++ w) :: ws' end).
  { destruct ws as [|w ws]; [reflexivity|]. rewrite E by (right; discriminate). reflexivity. }
  induction Hws as [|w ws [Hw0 Hw] _ IH]; intros cur Hc.
  - destruct cur; [destruct Hc; congruence|reflexivity].
  - assert (Hns : Forall (fun b => IsSpace (byte_val b) = false) w)
      by (eapply Forall_impl; [|exact Hw]; intros b [_ Hb]; exact Hb).
    destruct ws as [|w' ws].
    + cbn [Join]. rewrite <- (app_nil_r (map ascii_seg w)), fields_segs_word by exact Hns.
      cbn. destruct (cur ++ w) eqn:E; [apply app_eq_nil in E; tauto|reflexivity].
    + cbn [Join]. rewrite map_app, fields_segs_word by exact Hns.
      cbn [map app fields_segs ascii_seg]. rewrite Hsps.
      destruct (cur ++ w) eqn:E; [apply app_eq_nil in E; tauto|].
      rewrite <- E. f_equal. rewrite IH by (right; discriminate). reflexivity.
Qed.

Definition word_byteb (b : ascii) : bool := (byte_val b <? RuneSelf) && negb (IsSpace (byte_val b)).

Lemma word_byteb_spec w : forallb word_byteb w = true -> Forall word_byte w.
Proof.
  intros H. apply Forall_forall. intros b Hb. eapply forallb_forall in H; [|exact Hb].
  unfold word_byteb, word_byte in *. apply andb_prop in H as [H1 H2].
  apply Z.ltb_lt in H1. destruct (IsSpace (byte_val b)); [discriminate|auto].
Qed.

Lemma length_Join ws sep k :
  Forall (fun w => (List.length w <= k)%nat) ws ->
  (List.length (Join ws sep) <= (k + List.length sep) * List.length ws)%nat.
Proof.
  induction 1 as [|w ws Hw _ IH]; [cbn; lia|].
  destruct ws as [|w' ws]; cbn [Join List.length] in *; [lia|].
  rewrite !length_app. cbn [List.length] in *. lia.
Qed.

(** ** Trimming is a contiguous cut, and trimming twice changes nothing *)

Lemma dropWhile_idem {A} (f : A -> bool) l : dropWhile f (dropWhile f l) = dropWhile f l.
Proof.
  destruct (dropWhile f l) as [|x l'] eqn:E; [reflexivity|].
  cbn. rewrite (dropWhile_head f l x l' E). reflexivity.
Qed.

Lemma trim_segs_idem l : trim_segs (trim_segs l) = trim_segs l.
Proof.
  assert (H1 : dropWhile space_seg (trim_segs l) = trim_segs l).
  { destruct (trim_segs l) as [|x l'] eqn:E; [reflexivity|].
    cbn. rewrite (trim_segs_head l x l' E). reflexivity. }
  unfold trim_segs at 1. rewrite H1. unfold trim_segs.
  rewrite rev_involutive, dropWhile_idem. reflexivity.
Qed.

(** [strings.TrimSpace] is idempotent. *)
Lemma TrimSpace_idem s : TrimSpace (TrimSpace s) = TrimSpace s.
Proof. unfold TrimSpace at 1. rewrite runes_TrimSpace, trim_segs_idem. reflexivity. Qed.

(** [strings.TrimSpace s] is a contiguous piece of [s]. *)
Lemma TrimSpace_infix s : exists pre suf, s = pre ++ TrimSpace s ++ suf.
Proof.
  destruct (trim_segs_sub (runes s)) as [l1 [l3 H]].
  exists (bytes_of l1), (bytes_of l3). unfold TrimSpace.
  rewrite <- !bytes_of_app, <- H, bytes_of_runes. reflexivity.
Qed.

(** ** Trimming padded ASCII text *)

Lemma dropWhile_app_all {A} (f : A -> bool) l1 l2 :
  Forall (fun a => f a = true) l1 -> dropWhile f (l1 ++ l2) = dropWhile f l2.
Proof. induction 1 as [|a l1 Ha _ IH]; [reflexivity|]. cbn. rewrite Ha. exact IH. Qed.

Lemma dropWhile_cons_false {A} (f : A -> bool) x l : f x = false -> dropWhile f (x :: l) = x :: l.
Proof. intros H. cbn. rewrite H. reflexivity. Qed.

Lemma bytes_of_ascii x : bytes_of (map ascii_seg x) = x.
Proof. induction x as [|b x IH]; [reflexivity|]. rewrite map_cons, bytes_of_cons, IH. reflexivity. Qed.

Lemma space_seg_blank k : Forall (fun a => space_seg a = true) (map ascii_seg (repeat " "%char k)).
Proof. induction k; constructor; [reflexivity|assumption]. Qed.

(** Trimming text without white space padded with blanks on both sides
    gives the text back. *)
Lemma TrimSpace_spaces k j x :
  Forall word_byte x -> x <> [] ->
  TrimSpace (repeat " "%char k ++ x ++ repeat " "%char j) = x.
Proof.
  intros Hx Hne. unfold TrimSpace.
  assert (Hblank : forall n, Forall (fun b => byte_val b < RuneSelf) (repeat " "%char n))
    by (intros n; apply Forall_forall; intros b Hb; apply repeat_spec in Hb; subst; reflexivity).
  rewrite runes_ascii.
  2:{ apply Forall_app; split; [apply Hblank|apply Forall_app; split; [|apply Hblank]].
      eapply Forall_impl; [|exact Hx]. intros b [H _]. exact H. }
  unfold trim_segs. rewrite !map_app, dropWhile_app_all by apply space_seg_blank.
  destruct x as [|b x']; [congruence|].
  inversion Hx as [|? ? [_ Hb] _]; subst.
  cbn [map app]. rewrite (dropWhile_cons_false space_seg (ascii_seg b)) by exact Hb.
  change (ascii_seg b :: map ascii_seg x' ++ map ascii_seg (repeat " "%char j))
    with (map ascii_seg (b :: x') ++ map ascii_seg (repeat " "%char j)).
  rewrite rev_app_distr, dropWhile_app_all
    by (apply Forall_rev; apply space_seg_blank).
  rewrite <- map_rev. destruct (rev (b :: x')) as [|c r] eqn:Er; [apply (f_equal (@List.length _)) in Er; rewrite length_rev in Er; discriminate|].
  assert (Hc : IsSpace (byte_val c) = false).
  { assert (In c (b :: x')) by (apply in_rev; rewrite Er; left; reflexivity).
    rewrite Forall_forall in Hx. apply Hx. exact H. }
  cbn [map]. rewrite (dropWhile_cons_false space_seg (ascii_seg c)) by exact Hc.
  change (ascii_seg c :: map ascii_seg r) with (map ascii_seg (c :: r)).
  rewrite <- Er, map_rev, rev_involutive. apply bytes_of_ascii.
Qed.
