(* ===== verification/StringsFast.v ===== *)
(** * The ASCII fast paths of Go's [strings] package

    [strings.Fields] and [strings.TrimSpace], as [estimateTokens] and
    [AskOpenAi] call them, first try a path for ASCII text that works on
    bytes through the table [asciiSpace], and fall back to the rune-wise
    functions ([FieldsFunc], [TrimFunc], [TrimRightFunc] with
    [unicode.IsSpace]) on other text.  [GoString] models the rune-wise
    functions; this file models the fast paths as the library writes them
    and shows that they compute the same results.

    [Fields_go] is [strings.Fields]: a counting loop that also ORs all the
    bytes into [setBits], then, for ASCII text, a slice [a] of the counted
    length filled by index.  An index out of range panics ([set_index]
    returns [None]); the theorem [Fields_go_Fields] shows that the count is
    exact, so no write is out of range, and that the result is [Fields].

    [TrimSpace_go] is [strings.TrimSpace]: two loops over ASCII bytes from
    each end, handing the rest to [TrimFunc] or [TrimRightFunc] at the first
    non-ASCII byte.  [TrimRightFunc] walks back with
    [utf8.DecodeLastRuneInString], which looks back for the byte that
    starts the last rune.  [DecodeLast_runes] shows that this backward
    decoding finds the last rune of the forward decoding, invalid bytes
    included (every byte that can start a rune starts one,
    [rune_start_boundary]); [TrimSpace_go_TrimSpace] follows: the library
    function drops exactly the space runes the rune-wise [TrimSpace] drops,
    on every byte string. *)

From Stdlib Require Import ZArith List Ascii Lia Bool.
From S2P Require Import Prelude GoString.
Import ListNotations Utf8 Unicode.
Open Scope Z_scope.

Module StringsFast.

(** [asciiSpace = [256]uint8{'\t': 1, '\n': 1, '\v': 1, '\f': 1, '\r': 1, ' ': 1}] *)
Definition asciiSpace (c : Z) : Z :=
  if (c =? 9) || (c =? 10) || (c =? 11) || (c =? 12) || (c =? 13) || (c =? 32) then 1 else 0.

(** [a[i] = v]: out of range, Go panics. *)
Definition set_index {A} (a : list A) (i : nat) (v : A) : option (list A) :=
  if (i <? List.length a)%nat then Some (firstn i a ++ v :: skipn (S i) a) else None.

(** [s[lo:hi]] for [lo <= hi <= len(s)]. *)
Definition slice (s : bytes) (lo hi : nat) : bytes := firstn (hi - lo) (skipn lo s).

(** ** [strings.Fields] *)

(** One iteration of the counting loop:
    [r := s[i]; setBits |= r; isSpace := int(asciiSpace[r]); n += wasSpace & ^isSpace; wasSpace = isSpace]. *)
Definition count_step (st : Z * Z * Z) (c : ascii) : Z * Z * Z :=
  let '(n, wasSpace, setBits) := st in
  let r := byte_val c in
  let setBits := Z.lor setBits r in
  let isSpace := asciiSpace r in
  (n + Z.land wasSpace (Z.lnot isSpace), isSpace, setBits).

(** [n := 0; wasSpace := 1; setBits := uint8(0); for i := 0; i < len(s); i++ { ... }] *)
Definition count_fields (s : bytes) : Z * Z * Z := fold_left count_step s (0, 1, 0).

(** [for i < len(s) && asciiSpace[s[i]] != 0 { i++ }] *)
Fixpoint skip_spaces (fuel : nat) (s : bytes) (i : nat) : nat :=
  match fuel with
  | O => i
  | S f => if (i <? List.length s)%nat && negb (asciiSpace (byte_at s i) =? 0) then skip_spaces f s (S i) else i
  end.

(** The main loop of the ASCII path, up to [i = len(s)]: the slice [a],
    [na] and [fieldStart] it ends with. *)
Fixpoint fields_loop (fuel : nat) (s : bytes) (a : list bytes) (na fieldStart i : nat)
    : option (list bytes * nat * nat) :=
  match fuel with
  | O => Some (a, na, fieldStart)
  | S f =>
    if (i <? List.length s)%nat then
      if asciiSpace (byte_at s i) =? 0 then fields_loop f s a na fieldStart (S i)
      else
        match set_index a na (slice s fieldStart i) with
        | None => None
        | Some a =>
          let i := skip_spaces (List.length s) s (S i) in
          fields_loop f s a (S na) i i
        end
    else Some (a, na, fieldStart)
  end.

(** [if fieldStart < len(s) { a[na] = s[fieldStart:] }]: the last field
    might end at the end of the text. *)
Definition last_field (s : bytes) (r : option (list bytes * nat * nat)) : option (list bytes) :=
  match r with
  | None => None
  | Some (a, na, fieldStart) =>
    if (fieldStart <? List.length s)%nat then set_index a na (skipn fieldStart s) else Some a
  end.

(** [strings.Fields(s)]; [None] is a panic.  Text with a non-ASCII byte
    goes to [FieldsFunc(s, unicode.IsSpace)], the rune-wise [Fields]. *)
Definition Fields_go (s : bytes) : option (list bytes) :=
  let '(n, _, setBits) := count_fields s in
  if setBits >=? RuneSelf then Some (Fields s)
  else
    let a := repeat [] (Z.to_nat n) in
    let i := skip_spaces (List.length s) s 0 in
    last_field s (fields_loop (List.length s) s a 0 i i).

(** ** [strings.TrimSpace] *)

(** [utf8.UTFMax] *)
Definition UTFMax : Z := 4.

(** [utf8.RuneStart(b)]: [b&0xC0 != 0x80], not a continuation byte. *)
Definition RuneStart (b : Z) : bool := negb (Z.land b 192 =? 128).

(** [for start--; start >= lim; start-- { if RuneStart(s[start]) { break } }]:
    at most [UTFMax] tests. *)
Fixpoint scan_start (fuel : nat) (s : bytes) (start lim : Z) : Z :=
  match fuel with
  | O => start
  | S f =>
    if start >=? lim then
      if RuneStart (byte_at s (Z.to_nat start)) then start else scan_start f s (start - 1) lim
    else start
  end.

(** [utf8.DecodeLastRuneInString]: the last rune of [s] and its width,
    found by looking back for the byte that starts it. *)
Definition DecodeLastRuneInString (s : bytes) : Z * nat :=
  let end_ := Z.of_nat (List.length s) in
  if end_ =? 0 then (RuneError, 0%nat) else
  let start := end_ - 1 in
  let r := byte_at s (Z.to_nat start) in
  if r <? RuneSelf then (r, 1%nat) else
  let lim := end_ - UTFMax in
  let lim := if lim <? 0 then 0 else lim in
  let start := scan_start (Z.to_nat UTFMax) s (start - 1) lim in
  let start := if start <? 0 then 0 else start in
  let '(r, size) := DecodeRuneInString (skipn (Z.to_nat start) s) in
  if start + Z.of_nat size =? end_ then (r, size) else (RuneError, 1%nat).

(** [lastIndexFunc(s, unicode.IsSpace, false)]: the byte index of the last
    rune that is not a space, or -1; each step moves back one rune. *)
Fixpoint lastIndex_loop (fuel : nat) (s : bytes) (i : nat) : Z :=
  match fuel with
  | O => -1
  | S f =>
    if (0 <? i)%nat then
      let '(r, size) := DecodeLastRuneInString (firstn i s) in
      let i := (i - size)%nat in
      if negb (IsSpace r) then Z.of_nat i else lastIndex_loop f s i
    else -1
  end.

Definition lastIndexFunc (s : bytes) : Z := lastIndex_loop (List.length s) s (List.length s).

(** [strings.TrimRightFunc(s, unicode.IsSpace)] *)
Definition TrimRightFunc (s : bytes) : bytes :=
  let i := lastIndexFunc s in
  let i := if (i >=? 0) && (byte_at s (Z.to_nat i) >=? RuneSelf)
           then i + Z.of_nat (snd (DecodeRuneInString (skipn (Z.to_nat i) s)))
           else i + 1 in
  firstn (Z.to_nat i) s.

(** [indexFunc(s, unicode.IsSpace, false)]: [for i, r := range s { if !f(r) { return i } }; return -1]. *)
Fixpoint indexFunc_loop (l : list seg) (i : nat) : Z :=
  match l with
  | [] => -1
  | (r, b) :: l => if negb (IsSpace r) then Z.of_nat i else indexFunc_loop l (i + List.length b)
  end.

(** [strings.TrimLeftFunc(s, unicode.IsSpace)] *)
Definition TrimLeftFunc (s : bytes) : bytes :=
  let i := indexFunc_loop (runes s) 0 in
  if i =? -1 then [] else skipn (Z.to_nat i) s.

(** [strings.TrimFunc(s, unicode.IsSpace)] *)
Definition TrimFunc (s : bytes) : bytes := TrimRightFunc (TrimLeftFunc s).

(** The first loop of [TrimSpace]: [inl start] when a non-ASCII byte hands
    [s[start:]] to [TrimFunc], [inr start] at the first ASCII non-space
    byte or at the end. *)
Fixpoint trim_start (fuel : nat) (s : bytes) (start : nat) : nat + nat :=
  match fuel with
  | O => inr start
  | S f =>
    if (start <? List.length s)%nat then
      let c := byte_at s start in
      if c >=? RuneSelf then inl start
      else if asciiSpace c =? 0 then inr start
      else trim_start f s (S start)
    else inr start
  end.

(** The second loop, from the end: [inl stop] when a non-ASCII byte hands
    [s[start:stop]] to [TrimRightFunc]. *)
Fixpoint trim_stop (fuel : nat) (s : bytes) (start stop : nat) : nat + nat :=
  match fuel with
  | O => inr stop
  | S f =>
    if (start <? stop)%nat then
      let c := byte_at s (stop - 1) in
      if c >=? RuneSelf then inl stop
      else if asciiSpace c =? 0 then inr stop
      else trim_stop f s start (stop - 1)
    else inr stop
  end.

(** [strings.TrimSpace(s)] *)
Definition TrimSpace_go (s : bytes) : bytes :=
  match trim_start (List.length s) s 0 with
  | inl start => TrimFunc (skipn start s)
  | inr start =>
    match trim_stop (List.length s) s start (List.length s) with
    | inl stop => TrimRightFunc (slice s start stop)
    | inr stop => slice s start stop
    end
  end.

(** ** The table agrees with [unicode.IsSpace] on ASCII *)

(** Checked on the 128 ASCII values. *)
Lemma asciiSpace_table :
  forallb (fun v => Bool.eqb (IsSpace v) (asciiSpace v =? 1) && ((asciiSpace v =? 0) || (asciiSpace v =? 1)))
          (map Z.of_nat (seq 0 128)) = true.
Proof. vm_compute. reflexivity. Qed.

Lemma asciiSpace_IsSpace v : 0 <= v < RuneSelf ->
  IsSpace v = (asciiSpace v =? 1) /\ (asciiSpace v = 0 \/ asciiSpace v = 1).
Proof.
  intros Hv. pose proof asciiSpace_table as T. rewrite forallb_forall in T.
  specialize (T v). lapply T.
  - intros E. apply andb_prop in E as [E1 E2]. apply eqb_prop in E1. split; [exact E1|].
    apply orb_prop in E2 as [E2|E2]; bool_facts; auto.
  - apply in_map_iff. exists (Z.to_nat v). split; [unfold RuneSelf in Hv; lia|].
    apply in_seq. unfold RuneSelf in Hv. lia.
Qed.

(** An ASCII byte. *)
Definition ascii_byte (c : ascii) : Prop := byte_val c < RuneSelf.

(** The space test of the fast path is [unicode.IsSpace] on an ASCII byte. *)
Lemma space_iff c : ascii_byte c ->
  (asciiSpace (byte_val c) = 0 /\ IsSpace (byte_val c) = false) \/
  (asciiSpace (byte_val c) = 1 /\ IsSpace (byte_val c) = true).
Proof.
  intros Hc. pose proof (byte_val_range c).
  destruct (asciiSpace_IsSpace (byte_val c)) as [E [H0|H1]]; [unfold ascii_byte in Hc; lia| |];
    rewrite E; [rewrite H0|rewrite H1]; auto.
Qed.

(** ** The bits of [setBits] *)

Lemma lor_lt_128 a b : 0 <= a -> 0 <= b -> (Z.lor a b < 128 <-> a < 128 /\ b < 128).
Proof.
  intros Ha Hb. assert (K : forall x, 0 <= x -> (x < 128 <-> Z.shiftr x 7 = 0)).
  { intros x Hx. rewrite Z.shiftr_div_pow2, Z.div_small_iff by lia. lia. }
  rewrite !K by (apply Z.lor_nonneg || idtac; auto).
  rewrite Z.shiftr_lor, Z.lor_eq_0_iff. reflexivity.
Qed.

(** [setBits] stays below [RuneSelf] exactly on ASCII text. *)
Lemma setBits_ascii s n w sb : 0 <= sb ->
  0 <= snd (fold_left count_step s (n, w, sb)) /\
  (snd (fold_left count_step s (n, w, sb)) < RuneSelf <-> sb < RuneSelf /\ Forall ascii_byte s).
Proof.
  revert n w sb. induction s as [|c s IH]; intros n w sb Hsb; cbn [fold_left].
  - split; [exact Hsb|]. split; [intros H; split; [exact H|constructor]|intros [H _]; exact H].
  - pose proof (byte_val_range c). specialize (IH (n + Z.land w (Z.lnot (asciiSpace (byte_val c))))
      (asciiSpace (byte_val c)) (Z.lor sb (byte_val c))).
    destruct IH as [IH1 IH2]; [apply Z.lor_nonneg; lia|].
    split; [exact IH1|]. rewrite IH2. unfold RuneSelf, ascii_byte. rewrite lor_lt_128 by lia.
    rewrite Forall_cons_iff. unfold ascii_byte, RuneSelf. tauto.
Qed.

(** ** The count is exact on ASCII text *)

(** [wasSpace] while reading the field [cur]. *)
Definition was (cur : bytes) : Z := match cur with [] => 1 | _ => 0 end.

Lemma was_snoc cur c : was (cur ++ [c]) = 0.
Proof. destruct cur; reflexivity. Qed.

Lemma count_fields_n s : Forall ascii_byte s -> forall n0 cur sb,
  fst (fst (fold_left count_step s (n0, was cur, sb))) =
  n0 + Z.of_nat (List.length (fields_segs (map ascii_seg s) cur)) - (1 - was cur).
Proof.
  induction 1 as [|c s Hc Hs IH]; intros n0 cur sb.
  - destruct cur; cbn; lia.
  - cbn [fold_left map count_step]. destruct (space_iff c Hc) as [[A I]|[A I]]; rewrite A;
      cbn [fields_segs ascii_seg]; rewrite I.
    + pose proof (IH (n0 + Z.land (was cur) (Z.lnot 0)) (cur ++ [c]) (Z.lor sb (byte_val c))) as E.
      rewrite was_snoc in E. rewrite E, Z.land_m1_r. lia.
    + pose proof (IH (n0 + Z.land (was cur) (Z.lnot 1)) [] (Z.lor sb (byte_val c))) as E.
      cbn [was] in E. rewrite E.
      destruct cur as [|x cur]; cbn [was List.length]; [replace (Z.land 1 (Z.lnot 1)) with 0 by reflexivity|rewrite Z.land_0_l]; lia.
Qed.

(** ** Indices and slices *)

Lemma skipn_byte s i : (i < List.length s)%nat ->
  exists c, skipn i s = c :: skipn (S i) s /\ byte_at s i = byte_val c /\ In c s.
Proof.
  revert s. induction i as [|i IH]; intros [|b s] H; cbn in H; try lia.
  - exists b. split; [reflexivity|split; [reflexivity|left; reflexivity]].
  - destruct (IH s ltac:(lia)) as (c & E & B & Hin). exists c.
    split; [exact E|split; [exact B|right; exact Hin]].
Qed.

Lemma slice_nil s i : slice s i i = [].
Proof. unfold slice. rewrite Nat.sub_diag. reflexivity. Qed.

Lemma firstn_snoc {A} k (u t : list A) c : skipn k u = c :: t -> firstn (S k) u = firstn k u ++ [c].
Proof.
  revert u. induction k as [|k IH]; intros [|x u] E; cbn in E |- *; try discriminate.
  - injection E as -> _. reflexivity.
  - f_equal. apply IH, E.
Qed.

Lemma slice_snoc s fs i c : (fs <= i)%nat -> skipn i s = c :: skipn (S i) s ->
  slice s fs (S i) = slice s fs i ++ [c].
Proof.
  intros Hle E. unfold slice. replace (S i - fs)%nat with (S (i - fs)) by lia.
  apply (firstn_snoc _ _ (skipn (S i) s)). rewrite skipn_skipn, Nat.sub_add by exact Hle. exact E.
Qed.

Lemma slice_end s fs : slice s fs (List.length s) = skipn fs s.
Proof. unfold slice. apply firstn_all2. rewrite length_skipn. lia. Qed.

Lemma length_slice s fs i : (fs <= i <= List.length s)%nat -> List.length (slice s fs i) = (i - fs)%nat.
Proof. intros H. unfold slice. rewrite length_firstn, length_skipn. lia. Qed.

(** The writes the loop makes, [a[na] = w] for each field [w] in order. *)
Fixpoint put_all (a : list bytes) (na : nat) (ws : list bytes) : option (list bytes) :=
  match ws with
  | [] => Some a
  | w :: ws => match set_index a na w with None => None | Some a => put_all a (S na) ws end
  end.

Lemma set_index_app {A} (W r : list A) x w : set_index (W ++ x :: r) (List.length W) w = Some (W ++ w :: r).
Proof.
  unfold set_index. rewrite length_app. cbn [List.length].
  replace (List.length W <? List.length W + S (List.length r))%nat with true by (symmetry; apply Nat.ltb_lt; lia).
  f_equal. induction W as [|y W IH]; [reflexivity|]. cbn. f_equal. exact IH.
Qed.

(** A slice of the counted length holds every field. *)
Lemma put_all_repeat ws : forall W, put_all (W ++ repeat [] (List.length ws)) (List.length W) ws = Some (W ++ ws).
Proof.
  induction ws as [|w ws IH]; intros W; [reflexivity|]. cbn [List.length repeat put_all].
  rewrite set_index_app. replace (W ++ w :: repeat [] (List.length ws)) with ((W ++ [w]) ++ repeat [] (List.length ws))
    by (rewrite <- app_assoc; reflexivity).
  replace (S (List.length W)) with (List.length (W ++ [w])) by (rewrite length_app; cbn; lia).
  rewrite IH, <- app_assoc. reflexivity.
Qed.

(** ** The loops of the ASCII path *)

Section AsciiPath.
Variable s : bytes.
Hypothesis Hs : Forall ascii_byte s.

Lemma byte_space i : (i < List.length s)%nat ->
  exists c, skipn i s = c :: skipn (S i) s /\ byte_at s i = byte_val c /\
  ((asciiSpace (byte_val c) = 0 /\ IsSpace (byte_val c) = false) \/
   (asciiSpace (byte_val c) = 1 /\ IsSpace (byte_val c) = true)).
Proof.
  intros Hi. destruct (skipn_byte s i Hi) as (c & E & B & Hin). exists c.
  split; [exact E|split; [exact B|]]. apply space_iff. rewrite Forall_forall in Hs. auto.
Qed.

(** Skipping spaces stops at the next non-space byte, and the spaces it
    skips hold no field. *)
Lemma skip_spaces_spec fuel : forall i, (List.length s - i <= fuel)%nat -> (i <= List.length s)%nat ->
  let j := skip_spaces fuel s i in
  (i <= j <= List.length s)%nat /\ ((j < List.length s)%nat -> asciiSpace (byte_at s j) = 0) /\
  fields_segs (map ascii_seg (skipn i s)) [] = fields_segs (map ascii_seg (skipn j s)) [].
Proof.
  induction fuel as [|f IH]; intros i Hf Hi; cbn [skip_spaces].
  - split; [lia|split; [lia|reflexivity]].
  - destruct (Nat.ltb_spec i (List.length s)) as [Hlt|Hge]; cbn [andb].
    + destruct (byte_space i Hlt) as (c & E & B & [[A I]|[A I]]); rewrite B, A; cbn [Z.eqb negb].
      * split; [lia|split; [intros _; rewrite B; exact A|reflexivity]].
      * destruct (IH (S i)) as (H1 & H2 & H3); [lia|lia|]. split; [lia|split; [exact H2|]].
        rewrite <- H3, E. cbn [map fields_segs ascii_seg]. rewrite I. reflexivity.
    + split; [lia|split; [lia|reflexivity]].
Qed.

(** The loop at [i = len(s)], and the last field. *)
Lemma loop_end a na fs : (fs <= List.length s)%nat ->
  last_field s (Some (a, na, fs)) =
  put_all a na (fields_segs (map ascii_seg (skipn (List.length s) s)) (slice s fs (List.length s))).
Proof.
  intros Hfs. rewrite skipn_all, slice_end. cbn [last_field map fields_segs].
  destruct (Nat.ltb_spec fs (List.length s)).
  - destruct (skipn fs s) as [|x t] eqn:E; [apply (f_equal (@List.length _)) in E; rewrite length_skipn in E; cbn in E; lia|].
    cbn [put_all]. destruct (set_index a na (x :: t)); reflexivity.
  - rewrite skipn_all2 by lia. reflexivity.
Qed.

(** The main loop writes the fields of [s[i:]], the field being read
    being [s[fieldStart:i]]. *)
Lemma fields_loop_spec fuel : forall a na fs i,
  (List.length s - i <= fuel)%nat -> (fs <= i <= List.length s)%nat ->
  Forall (fun c => asciiSpace (byte_val c) = 0) (slice s fs i) ->
  (fs = i -> (i < List.length s)%nat -> asciiSpace (byte_at s i) = 0) ->
  last_field s (fields_loop fuel s a na fs i) =
  put_all a na (fields_segs (map ascii_seg (skipn i s)) (slice s fs i)).
Proof.
  induction fuel as [|f IH]; intros a na fs i Hf Hi Hw Hst; cbn [fields_loop].
  - replace i with (List.length s) by lia. apply loop_end. lia.
  - destruct (Nat.ltb_spec i (List.length s)) as [Hlt|Hge]; [|replace i with (List.length s) by lia; apply loop_end; lia].
    destruct (byte_space i Hlt) as (c & E & B & [[A I]|[A I]]); rewrite B, A; cbn [Z.eqb].
    + rewrite (IH a na fs (S i)); [| lia | lia | | intros; lia].
      2:{ rewrite (slice_snoc s fs i c) by (lia || exact E).
          apply Forall_app; split; [exact Hw|constructor; [exact A|constructor]]. }
      rewrite E, (slice_snoc s fs i c) by (lia || exact E). cbn [map fields_segs ascii_seg]. rewrite I. reflexivity.
    + rewrite E. cbn [map fields_segs ascii_seg]. rewrite I.
      destruct (slice s fs i) as [|x cur] eqn:Sl.
      { apply (f_equal (@List.length _)) in Sl. rewrite length_slice in Sl by lia. cbn in Sl.
        rewrite <- B in A. rewrite Hst in A by lia. discriminate. }
      cbn [put_all]. destruct (set_index a na (x :: cur)) as [a'|]; [|reflexivity].
      destruct (skip_spaces_spec (List.length s) (S i)) as (H1 & H2 & H3); [lia|lia|].
      rewrite IH; [|lia|lia|rewrite slice_nil; constructor|intros _; exact H2].
      rewrite slice_nil, <- H3. reflexivity.
Qed.

End AsciiPath.

(** C6: equivalence and bounds.  [strings.Fields] as the library writes it,
    with its ASCII fast path, never indexes its slice out of range (the
    count of the first loop is exact on ASCII text) and returns the fields
    of the rune-wise definition [FieldsFunc(s, unicode.IsSpace)]. *)
Theorem Fields_go_Fields s : Fields_go s = Some (Fields s).
Proof.
  unfold Fields_go, count_fields. destruct (setBits_ascii s 0 1 0 ltac:(lia)) as [_ HB].
  destruct (fold_left count_step s (0, 1, 0)) as [[n w] sb] eqn:Ec. cbn [snd] in HB.
  destruct (Z.geb_spec sb RuneSelf) as [G|G]; [reflexivity|].
  destruct (proj1 HB G) as [_ Ha].
  pose proof (count_fields_n s Ha 0 [] 0) as Hn. cbn [was] in Hn. rewrite Ec in Hn. cbn [fst] in Hn.
  unfold Fields. rewrite runes_ascii by exact Ha.
  destruct (skip_spaces_spec s Ha (List.length s) 0) as (H1 & H2 & H3); [lia|lia|].
  rewrite fields_loop_spec by (auto; try lia; rewrite slice_nil; constructor).
  rewrite slice_nil, <- H3. cbn [skipn]. rewrite Hn.
  replace (Z.to_nat _) with (List.length (fields_segs (map ascii_seg s) [])) by lia.
  apply (put_all_repeat _ []).
Qed.

(** ** Decoding facts for the trimming loops *)

(** Checked on the 256 byte values. *)
Lemma RuneStart_table :
  forallb (fun v => Bool.eqb (RuneStart v) ((v <? 128) || (192 <=? v))) (map Z.of_nat (seq 0 256)) = true.
Proof. vm_compute. reflexivity. Qed.

Lemma RuneStart_spec v : 0 <= v < 256 -> RuneStart v = (v <? 128) || (192 <=? v).
Proof.
  intros Hv. pose proof RuneStart_table as T. rewrite forallb_forall in T.
  apply eqb_prop, T, in_map_iff. exists (Z.to_nat v). split; [lia|apply in_seq; lia].
Qed.

Lemma byte_at_bound s i : 0 <= byte_at s i < 256.
Proof. apply byte_val_range. Qed.

Lemma first_bounds x0 sz lo hi : first x0 = Some (sz, lo, hi) ->
  194 <= x0 /\ 128 <= lo /\ hi <= 191 /\ (2 <= sz <= 4)%nat.
Proof. unfold first, locb, hicb. intros H. case_splits; inversion H; subst; bool_facts; lia. Qed.

Lemma out_of_range lo hi x : out_of lo hi x = false -> lo <= x <= hi.
Proof. unfold out_of. intros H. apply orb_false_iff in H as [H1 H2]. bool_facts. lia. Qed.

(** A rune of two bytes or more starts with a leading byte, is followed by
    continuation bytes, and has at most four bytes. *)
Lemma decode_multi s r n : DecodeRuneInString s = (r, n) -> (2 <= n)%nat ->
  194 <= byte_at s 0 /\ (n <= 4)%nat /\ (n <= List.length s)%nat /\
  forall i, (1 <= i < n)%nat -> 128 <= byte_at s i <= 191.
Proof.
  intros H Hn. unfold DecodeRuneInString in H. cbv zeta in H.
  destruct (Nat.ltb_spec (List.length s) 1); [injection H as _ <-; lia|].
  destruct (byte_at s 0 <? RuneSelf); [injection H as _ <-; lia|].
  destruct (first (byte_at s 0)) as [[[sz lo] hi]|] eqn:F; [|injection H as _ <-; lia].
  apply first_bounds in F as (F0 & Lo & Hi & Sz).
  destruct (Nat.ltb_spec (List.length s) sz); [injection H as _ <-; lia|].
  destruct (out_of lo hi (byte_at s 1)) eqn:O1; [injection H as _ <-; lia|].
  apply out_of_range in O1.
  destruct (sz <=? 2)%nat eqn:S2; bool_facts.
  { injection H as _ <-. split; [lia|split; [lia|split; [lia|]]]. intros [|[|i]] Hi'; lia. }
  destruct (out_of locb hicb (byte_at s 2)) eqn:O2; [injection H as _ <-; lia|].
  apply out_of_range in O2. unfold locb, hicb in O2.
  destruct (sz <=? 3)%nat eqn:S3; bool_facts.
  { injection H as _ <-. split; [lia|split; [lia|split; [lia|]]]. intros [|[|[|i]]] Hi'; lia. }
  destruct (out_of locb hicb (byte_at s 3)) eqn:O3; [injection H as _ <-; lia|].
  apply out_of_range in O3. unfold locb, hicb in O3.
  injection H as _ <-. split; [lia|split; [lia|split; [lia|]]]. intros [|[|[|[|i]]]] Hi'; lia.
Qed.

Lemma decode_ascii_byte c t : ascii_byte c -> DecodeRuneInString (c :: t) = (byte_val c, 1%nat).
Proof.
  intros Hc. unfold DecodeRuneInString. cbn [List.length]. cbv zeta.
  replace (byte_at (c :: t) 0) with (byte_val c) by reflexivity.
  destruct (Nat.ltb_spec (S (List.length t)) 1); [lia|].
  unfold ascii_byte in Hc. destruct (Z.ltb_spec (byte_val c) RuneSelf); [reflexivity|lia].
Qed.

Lemma runes_ascii_cons c t : ascii_byte c -> runes (c :: t) = ascii_seg c :: runes t.
Proof.
  intros Hc. rewrite runes_cons by discriminate. rewrite decode_ascii_byte by exact Hc. reflexivity.
Qed.

Lemma runes_ascii_prefix w t : Forall ascii_byte w -> runes (w ++ t) = map ascii_seg w ++ runes t.
Proof. induction 1 as [|c w Hc _ IH]; [reflexivity|]. cbn [app map]. rewrite runes_ascii_cons, IH by exact Hc. reflexivity. Qed.

Lemma byte_at_app_r a b i : byte_at (a ++ b) (List.length a + i) = byte_at b i.
Proof. unfold byte_at. rewrite app_nth2 by lia. f_equal. f_equal. lia. Qed.

(** Decoding does not cross into ASCII text: runes of a string followed by
    ASCII bytes are the string's runes, then the bytes. *)
Lemma runes_app_ascii w : Forall ascii_byte w -> forall m, runes (m ++ w) = runes m ++ map ascii_seg w.
Proof.
  intros Hw m. induction m as [|m Hm IH] using runes_ind.
  - apply runes_ascii. exact Hw.
  - destruct (DecodeRuneInString m) as [r n] eqn:D.
    destruct (decode_width m) as [[E _]|[_ W]]; [contradiction|]. rewrite D in W. cbn [snd] in W.
    assert (D' : DecodeRuneInString (m ++ w) = (r, n)).
    { destruct (DecodeRuneInString (m ++ w)) as [r' n'] eqn:D'.
      destruct (Nat.leb_spec n' (List.length m)) as [Le|Gt].
      - rewrite (decode_app_prefix m w r' n' D' Le) in D. exact D.
      - destruct w as [|c w']; [rewrite app_nil_r in D'; congruence|].
        destruct (decode_multi _ _ _ D') as (_ & _ & _ & C); [lia|].
        pose proof (byte_at_app_r m (c :: w') 0) as B. rewrite Nat.add_0_r in B.
        assert (Lm : (1 <= List.length m)%nat) by (destruct m; [congruence|cbn; lia]).
        specialize (C (List.length m) ltac:(lia)). rewrite B in C. inversion Hw as [|? ? Hc _]; subst.
        unfold ascii_byte, RuneSelf in Hc. unfold byte_at in C. cbn [nth] in C. lia. }
    cbn [snd] in IH.
    rewrite runes_cons by (destruct m; [congruence|discriminate]). rewrite D'. cbn [fst snd].
    rewrite (runes_cons m) by exact Hm. rewrite D. cbn [fst snd].
    rewrite firstn_app, skipn_app. replace (n - List.length m)%nat with 0%nat by lia.
    rewrite firstn_O, skipn_O, app_nil_r, IH. reflexivity.
Qed.

(** The first rune of a string and the rest of its bytes. *)
Lemma first_rune w y ys : runes w = y :: ys ->
  DecodeRuneInString w = (fst y, List.length (snd y)) /\ w = snd y ++ bytes_of ys.
Proof.
  intros H. destruct w as [|b w']; [discriminate|]. set (w := b :: w') in *.
  rewrite runes_cons in H by discriminate. injection H as <- <-. cbn [fst snd].
  destruct (decode_width w) as [[E _]|[_ W]]; [discriminate|].
  rewrite length_firstn, bytes_of_runes, firstn_skipn. split; [|reflexivity].
  destruct (DecodeRuneInString w) as [r n]. cbn in *. f_equal. lia.
Qed.

(** Every byte that can start a rune starts one: decoding from the start
    of the string passes through it. *)
Lemma rune_start_boundary u : forall q, (q < List.length u)%nat -> RuneStart (byte_at u q) = true ->
  exists l1 l2, runes u = l1 ++ l2 /\ List.length (bytes_of l1) = q.
Proof.
  induction u as [|u Hu IH] using runes_ind; intros q Hq Hs; [cbn in Hq; lia|].
  destruct (DecodeRuneInString u) as [r n] eqn:D.
  destruct (decode_width u) as [[E _]|[_ W]]; [contradiction|]. rewrite D in W. cbn [snd] in W, IH.
  rewrite runes_cons by exact Hu. rewrite D. cbn [fst snd].
  destruct (Nat.eq_dec q 0) as [->|Hq0]; [exists [], ((r, firstn n u) :: runes (skipn n u)); split; reflexivity|].
  destruct (Nat.ltb_spec q n) as [Hlt|Hge].
  - destruct (decode_multi u r n D) as (_ & _ & _ & C); [lia|]. specialize (C q ltac:(lia)).
    rewrite RuneStart_spec in Hs by apply byte_at_bound. bool_facts; lia.
  - destruct (IH (q - n)%nat) as (l1 & l2 & E & L).
    + rewrite length_skipn. lia.
    + unfold byte_at in *. rewrite nth_skipn. replace (n + (q - n))%nat with q by lia. exact Hs.
    + exists ((r, firstn n u) :: l1), l2. rewrite E. split; [reflexivity|].
      rewrite bytes_of_cons, length_app. cbn [snd]. rewrite length_firstn, L. lia.
Qed.

Lemma scan_start_le fuel s start lim : scan_start fuel s start lim <= start.
Proof.
  revert start. induction fuel as [|f IH]; intros start; cbn [scan_start]; [lia|].
  destruct (start >=? lim); [destruct (RuneStart _); [lia|specialize (IH (start - 1)); lia]|lia].
Qed.

(** Looking back from [start], the scan stops at the nearest byte that can
    start a rune. *)
Lemma scan_start_find s lim q fuel : forall start,
  lim <= q <= start -> (Z.to_nat (start - q) < fuel)%nat ->
  RuneStart (byte_at s (Z.to_nat q)) = true ->
  (forall j, q < j <= start -> RuneStart (byte_at s (Z.to_nat j)) = false) ->
  scan_start fuel s start lim = q.
Proof.
  induction fuel as [|f IH]; intros start Hq Hf Hs Hn; [lia|]. cbn [scan_start].
  destruct (Z.geb_spec start lim); [|lia].
  destruct (Z.eq_dec start q) as [->|Ne]; [rewrite Hs; reflexivity|].
  rewrite Hn by lia. apply IH; [lia|lia|exact Hs|]. intros j Hj. apply Hn. lia.
Qed.

Lemma decode_single_error s r : DecodeRuneInString s = (r, 1%nat) -> RuneSelf <= byte_at s 0 -> r = RuneError.
Proof.
  unfold DecodeRuneInString. cbv zeta. intros H Hb.
  destruct (List.length s <? 1)%nat; [inversion H|].
  destruct (Z.ltb_spec (byte_at s 0) RuneSelf); [lia|].
  revert H. case_splits; intros H; inversion H; reflexivity.
Qed.

Lemma byte_at_skipn u q i : byte_at (skipn q u) i = byte_at u (q + i).
Proof. unfold byte_at. rewrite nth_skipn. reflexivity. Qed.

Lemma skipn_bytes_of l1 l2 : skipn (List.length (bytes_of l1)) (bytes_of (l1 ++ l2)) = bytes_of l2.
Proof. rewrite bytes_of_app, skipn_app, skipn_all, Nat.sub_diag. reflexivity. Qed.

(** A rune that decodes from [q] to the end of [u] is the last rune of [u]. *)
Lemma last_rune_width u l x q r' size : runes u = l ++ [x] -> (q < List.length u)%nat ->
  DecodeRuneInString (skipn q u) = (r', size) -> (2 <= size)%nat -> (q + size = List.length u)%nat ->
  List.length (snd x) = size.
Proof.
  intros H Hq D Hs He. destruct (decode_multi _ _ _ D Hs) as (L & _ & _ & _).
  rewrite byte_at_skipn, Nat.add_0_r in L.
  destruct (rune_start_boundary u q Hq) as (l1 & l2 & E & Lq).
  { rewrite RuneStart_spec by apply byte_at_bound. pose proof (byte_at_bound u q). bool_facts; lia. }
  assert (B : skipn q u = bytes_of l2) by (rewrite <- (bytes_of_runes u), E, <- Lq; apply skipn_bytes_of).
  assert (R : runes (bytes_of l2) = l2) by (apply (runes_suffix u l1), E).
  destruct l2 as [|y ys]; [rewrite B in D; cbn in D; injection D as _ <-; lia|].
  destruct (first_rune _ _ _ R) as [Dy By]. rewrite <- B, D in Dy. injection Dy as _ ->.
  assert (Ys : ys = []).
  { pose proof (runes_nonempty u) as NE. rewrite E in NE. apply Forall_app in NE as [_ NE].
    inversion NE as [|? ? _ NE']; subst. apply (bytes_of_nil_iff ys NE').
    apply (f_equal (@List.length _)) in By. rewrite <- B, length_skipn, length_app in By.
    destruct (bytes_of ys); [reflexivity|cbn in By; lia]. }
  subst ys. rewrite H in E. apply app_inj_tail in E as [_ ->]. reflexivity.
Qed.

(** The end of [DecodeLastRuneInString] when the last rune is one invalid
    byte: whatever byte the scan stops at, the answer is [RuneError], 1. *)
Lemma decode_tail_single u l b0 st : runes u = l ++ [(RuneError, [b0])] -> RuneSelf <= byte_val b0 ->
  0 <= st <= Z.of_nat (List.length (bytes_of l)) ->
  (let '(r, size) := DecodeRuneInString (skipn (Z.to_nat st) u) in
   if st + Z.of_nat size =? Z.of_nat (List.length (bytes_of l) + 1) then (r, size) else (RuneError, 1%nat)) =
  (RuneError, 1%nat).
Proof.
  intros H A Hst.
  assert (Hu : u = bytes_of l ++ [b0]).
  { rewrite <- (bytes_of_runes u), H, bytes_of_app, bytes_of_cons. cbn. rewrite ?app_nil_r. reflexivity. }
  destruct (DecodeRuneInString (skipn (Z.to_nat st) u)) as [r' size] eqn:D'.
  destruct (Z.eqb_spec (st + Z.of_nat size) (Z.of_nat (List.length (bytes_of l) + 1))) as [E|E]; [|reflexivity].
  destruct size as [|[|size]].
  - destruct (decode_width (skipn (Z.to_nat st) u)) as [[Ee _]|[_ W]]; [|rewrite D' in W; cbn in W; lia].
    apply (f_equal (@List.length _)) in Ee. rewrite length_skipn, Hu, length_app in Ee. cbn in Ee. lia.
  - replace (Z.to_nat st) with (List.length (bytes_of l)) in D' by lia.
    rewrite Hu, skipn_app, skipn_all, Nat.sub_diag in D'. cbn [app skipn] in D'.
    apply decode_single_error in D'; [subst r'; reflexivity|exact A].
  - assert (Lu : List.length u = (List.length (bytes_of l) + 1)%nat) by (rewrite Hu, length_app; reflexivity).
    pose proof (last_rune_width u l (RuneError, [b0]) (Z.to_nat st) r' (S (S size)) H) as W.
    specialize (W ltac:(lia) D' ltac:(lia) ltac:(lia)). cbn [snd List.length] in W. lia.
Qed.

(** [utf8.DecodeLastRuneInString] agrees with forward decoding on the last
    rune, invalid bytes included. *)
Lemma DecodeLast_runes u l r b : runes u = l ++ [(r, b)] -> DecodeLastRuneInString u = (r, List.length b).
Proof.
  intros H.
  assert (Hx : runes b = [(r, b)]).
  { pose proof (runes_suffix u l [(r, b)] H) as R. rewrite bytes_of_cons in R. cbn [snd bytes_of] in R.
    rewrite app_nil_r in R. exact R. }
  destruct (first_rune b (r, b) [] Hx) as [D _]. cbn [fst snd] in D.
  assert (Hu : u = bytes_of l ++ b).
  { rewrite <- (bytes_of_runes u), H, bytes_of_app, bytes_of_cons. cbn. rewrite ?app_nil_r. reflexivity. }
  set (p := List.length (bytes_of l)).
  assert (Lb : (1 <= List.length b)%nat) by (destruct b; [discriminate Hx|cbn; lia]).
  assert (Lu : List.length u = (p + List.length b)%nat) by (rewrite Hu, length_app; reflexivity).
  assert (Bu : forall i, byte_at u (p + i) = byte_at b i) by (intros i; rewrite Hu; apply byte_at_app_r).
  assert (Su : skipn p u = b) by (rewrite Hu; unfold p; rewrite skipn_app, skipn_all, Nat.sub_diag; reflexivity).
  unfold DecodeLastRuneInString. rewrite Lu.
  destruct (Z.eqb_spec (Z.of_nat (p + List.length b)) 0); [lia|].
  replace (Z.to_nat (Z.of_nat (p + List.length b) - 1)) with (p + (List.length b - 1))%nat by lia. rewrite Bu.
  destruct b as [|b0 [|b1 t]]; [discriminate Hx| |].
  - (* one byte *)
    cbn [List.length Nat.sub]. unfold byte_at at 1. cbn [nth]. destruct (Z.ltb_spec (byte_val b0) RuneSelf) as [A|A].
    + rewrite decode_ascii_byte in D by exact A. injection D as <-. reflexivity.
    + apply decode_single_error in D; [subst r|exact A]. cbv zeta.
      match goal with |- context [skipn (Z.to_nat ?x) u] =>
        apply (decode_tail_single u l b0 x H A);
        match x with context [scan_start ?f ?s ?a ?m] => pose proof (scan_start_le f s a m) end end.
      destruct (scan_start _ _ _ _ <? 0) eqn:Z0; bool_facts; unfold p in *; lia.
  - (* a rune of two bytes or more *)
    set (b := b0 :: b1 :: t) in *. set (k := List.length b) in *.
    assert (K2 : (2 <= k)%nat) by (unfold k, b; cbn; lia). clearbody p k b.
    destruct (decode_multi b r k D K2) as (Lead & K4 & _ & Cont).
    destruct (Z.ltb_spec (byte_at b (k - 1)) RuneSelf) as [A|_]; [specialize (Cont (k - 1)%nat ltac:(lia)); unfold RuneSelf in A; lia|].
    cbv zeta. unfold UTFMax.
    match goal with |- context [scan_start ?f u ?st ?lim] => rewrite (scan_start_find u lim (Z.of_nat p) f st) end.
    + destruct (Z.ltb_spec (Z.of_nat p) 0); [lia|]. rewrite Nat2Z.id, Su, D.
      destruct (Z.eqb_spec (Z.of_nat p + Z.of_nat k) (Z.of_nat (p + k))); [reflexivity|lia].
    + destruct (_ <? 0); lia.
    + cbn. lia.
    + replace (Z.to_nat (Z.of_nat p)) with (p + 0)%nat by lia. rewrite Bu, RuneStart_spec by apply byte_at_bound.
      apply orb_true_intro. right. apply Z.leb_le. lia.
    + intros j Hj. replace (Z.to_nat j) with (p + (Z.to_nat j - p))%nat by lia. rewrite Bu, RuneStart_spec by apply byte_at_bound.
      specialize (Cont (Z.to_nat j - p)%nat ltac:(lia)). apply orb_false_iff. split; apply Z.ltb_ge || apply Z.leb_gt; lia.
Qed.

(** ** [TrimLeftFunc] and [TrimRightFunc] trim space runes *)

Lemma bytes_of_single x : bytes_of [x] = snd x.
Proof. rewrite bytes_of_cons. apply app_nil_r. Qed.

Lemma firstn_bytes_of l1 l2 : firstn (List.length (bytes_of l1)) (bytes_of (l1 ++ l2)) = bytes_of l1.
Proof. rewrite bytes_of_app, firstn_app, firstn_all, Nat.sub_diag, firstn_O, app_nil_r. reflexivity. Qed.

(** The start of the last rune of [l] that is not a space, or -1. *)
Definition last_start (l : list seg) : Z :=
  match dropWhile space_seg (rev l) with [] => -1 | _ :: rest => Z.of_nat (List.length (bytes_of (rev rest))) end.

(** Each step of [lastIndexFunc] goes back over one rune of the forward
    decoding. *)
Lemma lastIndex_loop_spec s l1 : forall l2 fuel, runes s = l1 ++ l2 -> (List.length l1 <= fuel)%nat ->
  lastIndex_loop fuel s (List.length (bytes_of l1)) = last_start l1.
Proof.
  induction l1 as [|[r b] l1 IH] using rev_ind; intros l2 fuel H Hf; [destruct fuel; reflexivity|].
  destruct fuel as [|f]; [rewrite length_app in Hf; cbn in Hf; lia|].
  rewrite <- app_assoc in H. cbn [app] in H.
  assert (Hb : b <> []).
  { pose proof (runes_nonempty s) as NE. rewrite H in NE. apply Forall_app in NE as [_ NE].
    inversion NE; assumption. }
  assert (Hs : firstn (List.length (bytes_of (l1 ++ [(r, b)]))) s = bytes_of (l1 ++ [(r, b)])).
  { rewrite <- (bytes_of_runes s), H. replace (l1 ++ (r, b) :: l2) with ((l1 ++ [(r, b)]) ++ l2)
      by (rewrite <- app_assoc; reflexivity). apply firstn_bytes_of. }
  cbn [lastIndex_loop]. rewrite Hs, (DecodeLast_runes _ l1 r b) by (apply (runes_prefix s _ l2); rewrite H, <- app_assoc; reflexivity).
  rewrite bytes_of_app, bytes_of_single, length_app. cbn [snd].
  destruct (Nat.ltb_spec 0 (List.length (bytes_of l1) + List.length b)) as [_|Z0]; [|destruct b; [congruence|cbn in Z0; lia]].
  replace (List.length (bytes_of l1) + List.length b - List.length b)%nat with (List.length (bytes_of l1)) by lia.
  unfold last_start. rewrite rev_app_distr. cbn [rev app dropWhile]. unfold space_seg at 1. cbn [fst].
  destruct (IsSpace r); cbn [negb].
  - apply (IH ((r, b) :: l2)); [exact H|rewrite length_app in Hf; cbn in Hf; lia].
  - rewrite rev_involutive. reflexivity.
Qed.

(** [strings.TrimRightFunc(s, unicode.IsSpace)] drops the trailing space runes. *)
Lemma TrimRightFunc_spec t : TrimRightFunc t = bytes_of (rev (dropWhile space_seg (rev (runes t)))).
Proof.
  unfold TrimRightFunc, lastIndexFunc.
  pose proof (lastIndex_loop_spec t (runes t) [] (List.length t) (eq_sym (app_nil_r _)) (length_runes t)) as E.
  rewrite bytes_of_runes in E. rewrite E. unfold last_start.
  destruct (dropWhile_spec space_seg (rev (runes t))) as [pre [Hpre _]].
  destruct (dropWhile space_seg (rev (runes t))) as [|y rest]; [reflexivity|].
  set (R := rev rest). cbn [rev]. fold R.
  assert (Ht : runes t = (R ++ [y]) ++ rev pre).
  { rewrite <- (rev_involutive (runes t)), Hpre, rev_app_distr. reflexivity. }
  assert (Tt : t = bytes_of R ++ bytes_of (y :: rev pre)).
  { rewrite <- (bytes_of_runes t) at 1. rewrite Ht, <- app_assoc, bytes_of_app. reflexivity. }
  assert (Sk : skipn (List.length (bytes_of R)) t = bytes_of (y :: rev pre)).
  { rewrite Tt, skipn_app, skipn_all, Nat.sub_diag. reflexivity. }
  destruct (first_rune (bytes_of (y :: rev pre)) y (rev pre)) as [Dy _].
  { apply (runes_suffix t R). rewrite Ht, <- app_assoc. reflexivity. }
  assert (Fy : firstn (List.length (bytes_of R) + List.length (snd y)) t = bytes_of (R ++ [y])).
  { rewrite <- (bytes_of_runes t) at 1. rewrite Ht.
    replace (List.length (bytes_of R) + List.length (snd y))%nat with (List.length (bytes_of (R ++ [y])))
      by (rewrite bytes_of_app, bytes_of_single, length_app; reflexivity).
    apply firstn_bytes_of. }
  destruct (Z.geb_spec (Z.of_nat (List.length (bytes_of R))) 0); [|lia]. cbn [andb].
  rewrite Nat2Z.id, Sk, Dy. cbn [snd].
  destruct (Z.geb_spec (byte_at t (List.length (bytes_of R))) RuneSelf) as [Ge|Lt].
  - replace (Z.to_nat _) with (List.length (bytes_of R) + List.length (snd y))%nat by lia. exact Fy.
  - replace (Z.to_nat _) with (List.length (bytes_of R) + 1)%nat by lia.
    destruct (snd y) as [|c w] eqn:Ey.
    + pose proof (runes_nonempty t) as NE. rewrite Ht in NE. apply Forall_app in NE as [NE _].
      apply Forall_app in NE as [_ NE]. inversion NE. contradiction.
    + assert (B : byte_at t (List.length (bytes_of R)) = byte_val c).
      { rewrite Tt, <- (Nat.add_0_r (List.length (bytes_of R))), byte_at_app_r, bytes_of_cons, Ey. reflexivity. }
      rewrite B in Lt. rewrite bytes_of_cons, Ey in Dy. cbn [app] in Dy.
      rewrite decode_ascii_byte in Dy by (unfold ascii_byte; lia).
      injection Dy as _ L1. replace (List.length (c :: w)) with 1%nat in Fy by (cbn in *; lia). exact Fy.
Qed.

Lemma indexFunc_loop_spec l : forall k,
  indexFunc_loop l k = match dropWhile space_seg l with
                       | [] => -1
                       | _ => Z.of_nat (k + List.length (bytes_of l) - List.length (bytes_of (dropWhile space_seg l)))
                       end.
Proof.
  induction l as [|[r b] l IH]; intros k; [reflexivity|]. cbn [indexFunc_loop dropWhile].
  replace (space_seg (r, b)) with (IsSpace r) by reflexivity. rewrite bytes_of_cons. cbn [snd].
  destruct (IsSpace r); cbn [negb].
  - rewrite IH. destruct (dropWhile space_seg l); [reflexivity|]. rewrite length_app. f_equal. lia.
  - rewrite bytes_of_cons. cbn [snd]. f_equal. lia.
Qed.

(** [strings.TrimLeftFunc(s, unicode.IsSpace)] drops the leading space runes. *)
Lemma TrimLeftFunc_spec t : TrimLeftFunc t = bytes_of (dropWhile space_seg (runes t)).
Proof.
  unfold TrimLeftFunc. rewrite indexFunc_loop_spec. destruct (dropWhile_spec space_seg (runes t)) as [pre [Hp _]].
  destruct (dropWhile space_seg (runes t)) as [|y d] eqn:Dw; [reflexivity|].
  destruct (Z.eqb_spec (Z.of_nat (0 + List.length (bytes_of (runes t)) - List.length (bytes_of (y :: d)))) (-1)); [lia|].
  rewrite Nat2Z.id, Hp, bytes_of_app, length_app. replace (0 + _ - _)%nat with (List.length (bytes_of pre)) by lia.
  rewrite <- (bytes_of_runes t) at 1. rewrite Hp. apply skipn_bytes_of.
Qed.

(** [strings.TrimFunc(s, unicode.IsSpace)] is the rune-wise [TrimSpace]. *)
Lemma TrimFunc_TrimSpace t : TrimFunc t = TrimSpace t.
Proof.
  unfold TrimFunc. rewrite TrimLeftFunc_spec, TrimRightFunc_spec.
  destruct (dropWhile_suffix space_seg (runes t)) as [pre Hp].
  rewrite (runes_suffix t pre _ Hp). reflexivity.
Qed.

(** ** The ASCII loops of [TrimSpace] *)

(** An ASCII space byte. *)
Definition asp (c : ascii) : Prop := ascii_byte c /\ asciiSpace (byte_val c) = 1.

Lemma asciiSpace_01 v : asciiSpace v = 0 \/ asciiSpace v = 1.
Proof. unfold asciiSpace. destruct (_ || _); auto. Qed.

Lemma asp_ascii w : Forall asp w -> Forall ascii_byte w.
Proof. apply Forall_impl. intros c [H _]. exact H. Qed.

(** Leading ASCII spaces are space runes. *)
Lemma TrimSpace_spaces_prefix w t : Forall asp w -> TrimSpace (w ++ t) = TrimSpace t.
Proof.
  intros Hw. unfold TrimSpace, trim_segs. rewrite runes_ascii_prefix by (apply asp_ascii, Hw).
  rewrite dropWhile_app_all; [reflexivity|]. apply Forall_map. eapply Forall_impl; [|exact Hw].
  intros c [Hc Hs]. destruct (space_iff c Hc) as [[A _]|[_ I]]; [congruence|exact I].
Qed.

Lemma slice_0 s k : slice s 0 k = firstn k s.
Proof. unfold slice. rewrite Nat.sub_0_r. reflexivity. Qed.

Lemma firstn_add {A} x y (l : list A) : firstn (x + y) l = firstn x l ++ firstn y (skipn x l).
Proof. revert l. induction x as [|x IH]; intros [|z l]; cbn; rewrite ?firstn_nil; try reflexivity. f_equal. apply IH. Qed.

Lemma slice_app s a m b : (a <= m <= b)%nat -> slice s a b = slice s a m ++ slice s m b.
Proof.
  intros H. unfold slice. replace (b - a)%nat with ((m - a) + (b - m))%nat by lia.
  rewrite firstn_add, skipn_skipn, Nat.sub_add by lia. reflexivity.
Qed.

Lemma slice_one s i : (i < List.length s)%nat -> exists c, slice s i (S i) = [c] /\ byte_at s i = byte_val c.
Proof.
  intros Hi. destruct (skipn_byte s i Hi) as (c & E & B & _). exists c. split; [|exact B].
  unfold slice. rewrite E. replace (S i - i)%nat with 1%nat by lia. reflexivity.
Qed.

(** A byte of the fast path's loops: ASCII, and a space or not. *)
Lemma ascii_test s i : (i < List.length s)%nat -> byte_at s i < RuneSelf ->
  exists c, slice s i (S i) = [c] /\ byte_at s i = byte_val c /\ ascii_byte c.
Proof. intros Hi H. destruct (slice_one s i Hi) as (c & E & B). exists c. unfold ascii_byte. rewrite <- B. auto. Qed.

Lemma trim_start_spec s fuel : forall start, (List.length s - start <= fuel)%nat -> (start <= List.length s)%nat ->
  match trim_start fuel s start with
  | inl st => (start <= st < List.length s)%nat /\ Forall asp (slice s start st) /\ RuneSelf <= byte_at s st
  | inr st => (start <= st <= List.length s)%nat /\ Forall asp (slice s start st) /\
             ((st < List.length s)%nat -> byte_at s st < RuneSelf /\ asciiSpace (byte_at s st) = 0)
  end.
Proof.
  induction fuel as [|f IH]; intros start Hf Hs; cbn [trim_start].
  - rewrite slice_nil. split; [lia|split; [constructor|lia]].
  - destruct (Nat.ltb_spec start (List.length s)) as [Hlt|Hge]; [|rewrite slice_nil; split; [lia|split; [constructor|lia]]].
    destruct (Z.geb_spec (byte_at s start) RuneSelf) as [Ge|Lt]; [rewrite slice_nil; split; [lia|split; [constructor|exact Ge]]|].
    destruct (Z.eqb_spec (asciiSpace (byte_at s start)) 0) as [Z0|Z1].
    + rewrite slice_nil. split; [lia|split; [constructor|auto]].
    + destruct (ascii_test s start Hlt Lt) as (c & Ec & Bc & Ac).
      specialize (IH (S start) ltac:(lia) ltac:(lia)). destruct (trim_start f s (S start)) as [st|st];
        destruct IH as (H1 & H2 & H3); (split; [lia|split; [|exact H3]]);
        rewrite (slice_app s start (S start) st), Ec by lia; (constructor; [|exact H2]);
        (split; [exact Ac|]); rewrite <- Bc; destruct (asciiSpace_01 (byte_at s start)); lia.
Qed.

Lemma trim_stop_spec s start fuel : forall stop, (stop - start <= fuel)%nat -> (start <= stop <= List.length s)%nat ->
  match trim_stop fuel s start stop with
  | inl st => (start < st <= stop)%nat /\ Forall asp (slice s st stop) /\ RuneSelf <= byte_at s (st - 1)
  | inr st => (start <= st <= stop)%nat /\ Forall asp (slice s st stop) /\
             ((start < st)%nat -> byte_at s (st - 1) < RuneSelf /\ asciiSpace (byte_at s (st - 1)) = 0)
  end.
Proof.
  induction fuel as [|f IH]; intros stop Hf Hs; cbn [trim_stop].
  - rewrite slice_nil. split; [lia|split; [constructor|lia]].
  - destruct (Nat.ltb_spec start stop) as [Hlt|Hge]; [|rewrite slice_nil; split; [lia|split; [constructor|lia]]].
    destruct (Z.geb_spec (byte_at s (stop - 1)) RuneSelf) as [Ge|Lt]; [rewrite slice_nil; split; [lia|split; [constructor|exact Ge]]|].
    destruct (Z.eqb_spec (asciiSpace (byte_at s (stop - 1))) 0) as [Z0|Z1].
    + rewrite slice_nil. split; [lia|split; [constructor|auto]].
    + destruct (ascii_test s (stop - 1) ltac:(lia) Lt) as (c & Ec & Bc & Ac).
      replace (S (stop - 1)) with stop in Ec by lia.
      specialize (IH (stop - 1)%nat ltac:(lia) ltac:(lia)). destruct (trim_stop f s start (stop - 1)) as [st|st];
        destruct IH as (H1 & H2 & H3); (split; [lia|split; [|exact H3]]);
        rewrite (slice_app s st (stop - 1) stop), Ec by lia; (apply Forall_app; split; [exact H2|]);
        (constructor; [|constructor]); (split; [exact Ac|]); rewrite <- Bc; destruct (asciiSpace_01 (byte_at s (stop - 1))); lia.
Qed.

(** Text that starts with an ASCII byte that is not a space, followed by
    ASCII spaces, trims to its trailing trim. *)
Lemma TrimSpace_ascii_start c m w : ascii_byte c -> asciiSpace (byte_val c) = 0 -> Forall asp w ->
  TrimSpace (c :: m ++ w) = bytes_of (rev (dropWhile space_seg (rev (runes (c :: m))))).
Proof.
  intros Hc Hn Hw. change (c :: m ++ w) with ((c :: m) ++ w). unfold TrimSpace, trim_segs. rewrite runes_app_ascii by (apply asp_ascii, Hw).
  rewrite runes_ascii_cons by exact Hc.
  assert (Sc : space_seg (ascii_seg c) = false) by (destruct (space_iff c Hc) as [[_ I]|[A _]]; [exact I|congruence]).
  cbn [app dropWhile]. rewrite Sc. rewrite app_comm_cons, rev_app_distr, dropWhile_app_all; [reflexivity|].
  apply Forall_rev, Forall_map. eapply Forall_impl; [|exact Hw].
  intros x [Hx Hs]. destruct (space_iff x Hx) as [[A _]|[_ I]]; [congruence|exact I].
Qed.

(** The three parts of a string the loops of [TrimSpace] find. *)
Lemma slice_split s start stop : (start <= stop <= List.length s)%nat ->
  s = slice s 0 start ++ slice s start stop ++ slice s stop (List.length s).
Proof.
  intros H. rewrite <- slice_app, <- slice_app by lia. unfold slice. rewrite Nat.sub_0_r. symmetry. apply firstn_all.
Qed.

(** C7: equivalence.  [strings.TrimSpace] as the library writes it, with
    its ASCII fast path and its fallbacks [TrimFunc] and [TrimRightFunc]
    (which decodes backwards with [utf8.DecodeLastRuneInString]), drops
    exactly the leading and trailing space runes of the forward decoding,
    on every byte string, invalid UTF-8 included. *)
Theorem TrimSpace_go_TrimSpace s : TrimSpace_go s = TrimSpace s.
Proof.
  unfold TrimSpace_go. pose proof (trim_start_spec s (List.length s) 0 ltac:(lia) ltac:(lia)) as TS.
  destruct (trim_start (List.length s) s 0) as [start|start]; destruct TS as (H1 & H2 & H3).
  - rewrite TrimFunc_TrimSpace. symmetry. rewrite <- (firstn_skipn start s) at 1.
    rewrite slice_0 in H2. apply TrimSpace_spaces_prefix, H2.
  - pose proof (trim_stop_spec s start (List.length s) (List.length s) ltac:(lia) ltac:(lia)) as TP.
    destruct (trim_stop _ s start _) as [stop|stop]; destruct TP as (P1 & P2 & P3);
      symmetry; rewrite (slice_split s start stop) at 1 by lia; rewrite TrimSpace_spaces_prefix by exact H2.
    + destruct (H3 ltac:(lia)) as [Lt Z0]. destruct (ascii_test s start ltac:(lia) Lt) as (c & Ec & Bc & Ac).
      rewrite (slice_app s start (S start) stop), Ec by lia. cbn [app].
      rewrite (TrimSpace_ascii_start c) by (rewrite <- ?Bc; assumption). rewrite TrimRightFunc_spec. reflexivity.
    + destruct (Nat.eq_dec start stop) as [<-|Ne].
      * rewrite slice_nil. cbn [app]. destruct (Nat.ltb_spec start (List.length s)) as [Lt'|Ge'].
        -- destruct (H3 Lt') as [Lt Z0]. destruct (ascii_test s start Lt' Lt) as (c & Ec & Bc & Ac).
           rewrite (slice_app s start (S start)), Ec in P2 by lia. inversion P2 as [|? ? [_ Sp] _].
           rewrite <- Bc in Sp. congruence.
        -- replace start with (List.length s) by lia. rewrite slice_nil. reflexivity.
      * destruct (H3 ltac:(lia)) as [Lt Z0]. destruct (ascii_test s start ltac:(lia) Lt) as (c & Ec & Bc & Ac).
        destruct (P3 ltac:(lia)) as [Lt2 Z2]. destruct (ascii_test s (stop - 1) ltac:(lia) Lt2) as (c' & Ec' & Bc' & Ac').
        assert (Es : slice s start stop = slice s start (stop - 1) ++ [c']).
        { rewrite <- Ec', <- slice_app by lia. f_equal. lia. }
        rewrite (slice_app s start (S start) stop), Ec by lia. cbn [app].
        rewrite (TrimSpace_ascii_start c) by (rewrite <- ?Bc; assumption).
        change (c :: slice s (S start) stop) with ([c] ++ slice s (S start) stop).
        rewrite <- Ec, <- slice_app, Es by lia.
        rewrite runes_app_ascii by (constructor; [exact Ac'|constructor]). rewrite rev_app_distr. cbn [map rev app].
        assert (Sc : space_seg (ascii_seg c') = false).
        { destruct (space_iff c' Ac') as [[_ I]|[A _]]; [exact I|rewrite <- Bc' in A; congruence]. }
        cbn [dropWhile]. rewrite Sc. cbn [rev]. rewrite rev_involutive, bytes_of_app, bytes_of_runes, bytes_of_single.
        reflexivity.
Qed.

End StringsFast.
