(* ===== verification/Float64.v ===== *)
(** * The binary64 arithmetic of [estimateTokens]

    [estimateTokens] computes [int(float64(wordCount) * 1.3)] and
    [int(float64(charCount) / 3.0)].  A positive finite [float64] is
    [mant * 2^expo] with a 53-bit significand; every operation rounds the
    exact positive rational result to the nearest such value, ties to even
    ([round_q]).  Go's [int(x)] truncates toward zero ([ftrunc]).  The
    untyped constant [1.3] becomes the [float64] nearest to [13/10].

    [ftrunc_round_q] is the lemma the estimator's proofs rest on: truncating
    the rounded quotient [a/b] gives the integer quotient [a / b] when [a/b]
    is below [2^52] and far enough below the next integer. *)

From Stdlib Require Import ZArith Lia.
From S2P Require Import Prelude.
Open Scope Z_scope.

Module Float64.

(** A positive finite binary64 value [mant * 2^expo]. *)
Record float := mkfloat { mant : Z; expo : Z }.

(** [floor (log2 (a / b))] for positive [a], [b]: the scale [2^K] makes the
    integer quotient at least 1. *)
Definition ilog2_ratio (a b : Z) : Z :=
  let K := Z.log2 b + 1 in
  Z.log2 (a * 2 ^ K / b) - K.

(** Round-to-nearest-even of the positive rational [a / b] to a 53-bit
    significand. *)
Definition round_q (a b : Z) : float :=
  if a <=? 0 then mkfloat 0 0 else
  let e := ilog2_ratio a b - 52 in
  let num := a * 2 ^ Z.max 0 (- e) in
  let den := b * 2 ^ Z.max 0 e in
  let q := num / den in
  let r := num mod den in
  let q' := if 2 * r <? den then q
            else if den <? 2 * r then q + 1
            else if Z.even q then q else q + 1 in
  mkfloat q' e.

(** [float64(n)] for a Go [int]. *)
Definition of_int (n : Z) : float := round_q n 1.

(** The [float64] constant nearest to [num/den] (an untyped decimal
    constant such as [1.3]). *)
Definition of_const (num den : Z) : float := round_q num den.

(** [x * y] on positive values. *)
Definition fmul (x y : float) : float :=
  let e := expo x + expo y in
  if 0 <=? e then round_q (mant x * mant y * 2 ^ e) 1
  else round_q (mant x * mant y) (2 ^ (- e)).

(** [x / y] on positive values. *)
Definition fdiv (x y : float) : float :=
  let e := expo x - expo y in
  if 0 <=? e then round_q (mant x * 2 ^ e) (mant y)
  else round_q (mant x) (mant y * 2 ^ (- e)).

(** [int(x)] on a non-negative value: truncation toward zero. *)
Definition ftrunc (x : float) : Z :=
  if 0 <=? expo x then mant x * 2 ^ expo x else mant x / 2 ^ (- expo x).

(** ** Scaling and the binary logarithm *)

Lemma pow2_pos z : 0 <= z -> 0 < 2 ^ z.
Proof. intros H. apply Z.pow_pos_nonneg; lia. Qed.

(** An inequality between two scalings by powers of two carries over to
    any other common shift of the exponents. *)
Lemma pow2_shift a b L K t :
  0 <= K -> 0 <= L + K -> 0 <= t -> 0 <= t + L ->
  b * 2 ^ (L + K) <= a * 2 ^ K -> b * 2 ^ (t + L) <= a * 2 ^ t.
Proof.
  intros HK HLK Ht HtL H.
  destruct (Z_le_gt_dec K t) as [Hle|Hgt].
  - assert (E1 : 2 ^ (t + L) = 2 ^ (L + K) * 2 ^ (t - K))
      by (rewrite <- Z.pow_add_r by lia; f_equal; lia).
    assert (E2 : 2 ^ t = 2 ^ K * 2 ^ (t - K))
      by (rewrite <- Z.pow_add_r by lia; f_equal; lia).
    rewrite E1, E2. pose proof (pow2_pos (t - K)).
    rewrite !Z.mul_assoc. apply Z.mul_le_mono_nonneg_r; lia.
  - assert (E1 : 2 ^ (L + K) = 2 ^ (t + L) * 2 ^ (K - t))
      by (rewrite <- Z.pow_add_r by lia; f_equal; lia).
    assert (E2 : 2 ^ K = 2 ^ t * 2 ^ (K - t))
      by (rewrite <- Z.pow_add_r by lia; f_equal; lia).
    rewrite E1, E2, !Z.mul_assoc in H. pose proof (pow2_pos (K - t)).
    apply (Z.mul_le_mono_pos_r _ _ (2 ^ (K - t))); lia.
Qed.

(** [ilog2_ratio a b] is at most [log2 (a/b)]: [b * 2^L <= a] after any
    shift that keeps the exponents non-negative. *)
Lemma ilog2_ratio_lower a b t :
  0 < a -> 0 < b -> 0 <= t -> 0 <= t + ilog2_ratio a b ->
  b * 2 ^ (t + ilog2_ratio a b) <= a * 2 ^ t.
Proof.
  intros Ha Hb Ht HtL. unfold ilog2_ratio in *. cbv zeta in *.
  set (K := Z.log2 b + 1) in *.
  pose proof (Z.log2_nonneg b) as HlogB.
  assert (HbK : b < 2 ^ K) by (pose proof (Z.log2_spec b Hb) as [_ S]; exact S).
  assert (HK : 0 < 2 ^ K) by (apply pow2_pos; lia).
  set (q0 := a * 2 ^ K / b) in *.
  assert (Hq0 : 1 <= q0) by (apply Z.div_le_lower_bound; nia).
  pose proof (Z.log2_spec q0 ltac:(lia)) as [Sq _].
  pose proof (Z.log2_nonneg q0).
  apply (pow2_shift a b (Z.log2 q0 - K) K t); try lia.
  replace (Z.log2 q0 - K + K) with (Z.log2 q0) by ring.
  pose proof (Z.mul_div_le (a * 2 ^ K) b Hb). fold q0 in H0. nia.
Qed.

Lemma div_between x P k : 0 < P -> k * P <= x < (k + 1) * P -> x / P = k.
Proof. intros HP H. symmetry. apply (Z.div_unique x P k (x - k * P)); lia. Qed.

(** ** Truncating a rounded quotient *)

(** Truncating the rounded value of [a/b] gives [a / b] when [a/b < 2^52]
    and the distance from [a/b] to the next integer, [((a/b)+1)*b - a] over
    [b], exceeds [a/b] divided by [2^52]. *)
Lemma ftrunc_round_q a b :
  0 < a -> 0 < b -> a < b * 2 ^ 52 -> a < ((a / b + 1) * b - a) * 2 ^ 52 ->
  ftrunc (round_q a b) = a / b.
Proof.
  intros Ha Hb H52 Hgap.
  set (L := ilog2_ratio a b).
  assert (HL : L < 52).
  { destruct (Z_lt_le_dec L 52) as [|HL]; [assumption|exfalso].
    pose proof (ilog2_ratio_lower a b 0 Ha Hb ltac:(lia) ltac:(fold L; lia)) as Lo.
    fold L in Lo. rewrite Z.add_0_l, Z.pow_0_r in Lo.
    pose proof (Z.pow_le_mono_r 2 52 L ltac:(lia) HL). nia. }
  set (T := 52 - L).
  assert (HP : 0 < 2 ^ T) by (apply pow2_pos; lia).
  pose proof (ilog2_ratio_lower a b T Ha Hb ltac:(lia) ltac:(fold L; lia)) as Lo.
  fold L in Lo. replace (T + L) with 52 in Lo by lia.
  unfold round_q. destruct (a <=? 0) eqn:A; bool_facts; [lia|].
  cbv zeta. fold L.
  replace (Z.max 0 (- (L - 52))) with T by lia.
  replace (Z.max 0 (L - 52)) with 0 by lia. rewrite Z.pow_0_r, Z.mul_1_r.
  assert (Hk : a / b * b <= a < (a / b + 1) * b).
  { pose proof (Z.mod_pos_bound a b Hb). pose proof (Z.div_mod a b ltac:(lia)). nia. }
  set (k := a / b) in *. set (q := a * 2 ^ T / b).
  assert (Hlow : k * 2 ^ T <= q).
  { apply Z.div_le_lower_bound; [lia|]. nia. }
  assert (Hgap' : b < ((k + 1) * b - a) * 2 ^ T).
  { nia. }
  assert (Hup : q + 1 < (k + 1) * 2 ^ T).
  { pose proof (Z.mul_div_le (a * 2 ^ T) b Hb). fold q in H. nia. }
  unfold ftrunc. cbn [mant expo].
  destruct (0 <=? L - 52) eqn:E; bool_facts; [lia|].
  replace (- (L - 52)) with T by lia.
  case_splits; apply div_between; lia.
Qed.

(** ** Conversions and the constants of [estimateTokens] *)

(** [float64(n)] is exact below [2^53]. *)
Lemma of_int_exact n :
  0 < n < 2 ^ 53 -> of_int n = mkfloat (n * 2 ^ (52 - Z.log2 n)) (Z.log2 n - 52).
Proof.
  intros Hn. pose proof (Z.log2_nonneg n).
  assert (Hl : Z.log2 n < 53) by (apply Z.log2_lt_pow2; lia).
  unfold of_int, round_q. destruct (n <=? 0) eqn:E; bool_facts; [lia|]. cbv zeta.
  assert (HL : ilog2_ratio n 1 = Z.log2 n).
  { unfold ilog2_ratio. cbv zeta. change (Z.log2 1 + 1) with 1.
    rewrite Z.div_1_r, Z.log2_mul_pow2 by lia. lia. }
  rewrite HL. replace (Z.max 0 (- (Z.log2 n - 52))) with (52 - Z.log2 n) by lia.
  replace (Z.max 0 (Z.log2 n - 52)) with 0 by lia.
  rewrite Z.pow_0_r, Z.mul_1_r, Z.div_1_r, Z.mod_1_r. reflexivity.
Qed.

(** The [float64] nearest to [1.3] is [5854679515581645 * 2^-52]. *)
Lemma of_const_13_10 : of_const 13 10 = mkfloat 5854679515581645 (-52).
Proof. vm_compute. reflexivity. Qed.

(** [5854679515581645 = (13 * 2^52 + 2) / 10]: the exact product by the
    constant is [13 n / 10] plus [n / (5 * 2^52)]. *)
Lemma mul_const13_div n :
  0 <= n < 2 ^ 51 -> n * 5854679515581645 / 2 ^ 52 = 13 * n / 10.
Proof.
  intros Hn. change (2 ^ 51) with 2251799813685248 in Hn.
  change (2 ^ 52) with 4503599627370496.
  pose proof (Z.div_mod (13 * n) 10 ltac:(lia)).
  pose proof (Z.mod_pos_bound (13 * n) 10 ltac:(lia)).
  symmetry. apply (Z.div_unique _ _ _ (n * 5854679515581645 - 13 * n / 10 * 4503599627370496)); lia.
Qed.

(** [int(float64(n) * 1.3)] is [13 n / 10] for [0 < n < 2^48]. *)
Lemma ftrunc_mul_13_10 n :
  0 < n < 2 ^ 48 -> ftrunc (fmul (of_int n) (of_const 13 10)) = 13 * n / 10.
Proof.
  intros Hn. assert (H53 : 2 ^ 48 < 2 ^ 53) by reflexivity.
  rewrite of_int_exact by lia. rewrite of_const_13_10.
  pose proof (Z.log2_nonneg n).
  assert (Hl : Z.log2 n < 48) by (apply Z.log2_lt_pow2; lia).
  unfold fmul. cbn [mant expo].
  destruct (0 <=? Z.log2 n - 52 + -52) eqn:E; bool_facts; [lia|].
  set (c := 2 ^ (52 - Z.log2 n)). assert (Hc : 0 < c) by (apply pow2_pos; lia).
  assert (Hden : 2 ^ (- (Z.log2 n - 52 + -52)) = c * 2 ^ 52).
  { unfold c. rewrite <- Z.pow_add_r by lia. f_equal. lia. }
  rewrite Hden. replace (n * c * 5854679515581645) with (c * (n * 5854679515581645)) by ring.
  assert (Hq : c * (n * 5854679515581645) / (c * 2 ^ 52) = 13 * n / 10).
  { rewrite Z.div_mul_cancel_l by lia. apply mul_const13_div.
    split; [lia|]. apply (Z.lt_trans _ (2 ^ 48)); [lia|reflexivity]. }
  rewrite ftrunc_round_q; [exact Hq|nia|nia| |].
  - change (2 ^ 52) with 4503599627370496 in *. change (2 ^ 48) with 281474976710656 in Hn. nia.
  - rewrite Hq. change (2 ^ 52) with 4503599627370496 in *.
    change (2 ^ 48) with 281474976710656 in Hn.
    pose proof (Z.div_mod (13 * n) 10 ltac:(lia)).
    pose proof (Z.mod_pos_bound (13 * n) 10 ltac:(lia)).
    assert (n * 5854679515581645 < ((13 * n / 10 + 1) * 4503599627370496 - n * 5854679515581645)
                                   * 4503599627370496) by lia.
    nia.
Qed.

End Float64.
