(* ===== verification/TokenEstimator.v ===== *)
(** * The token estimator: [estimateTokens] of [api_client.go]

    [estimateTokens] trims the chunk, counts its whitespace-separated words
    and returns [max(1, int(float64(words) * 1.3))]; when there are no words
    it falls back to [max(1, int(float64(len) / 3.0))].

    The theorems: the estimate is 0 exactly on blank chunks and at least 1
    otherwise ([estimateTokens_blank], [estimateTokens_pos]); a non-blank
    trimmed chunk always has a word, so the character-count branch is never
    taken and the estimate is the integer [13 * words / 10]
    ([estimateTokens_words]); it never exceeds the chunk's byte length
    ([estimateTokens_le_length]) and grows with the word count.  The
    [Estimator] class is the interface the streaming consumer is proved
    against; [go_estimator] is its instance for this code. *)

From Stdlib Require Import ZArith List String Ascii Lia.
From S2P Require Import Prelude GoString Float64.
Import ListNotations Float64.
Open Scope Z_scope.

Module TokenEstimator.

(** [estimateTokens], line by line: the [content == ""] test, the trim and
    its emptiness test, [strings.Fields], then the two strategies. *)
Definition estimateTokens (content : bytes) : Z :=
  match content with
  | [] => 0
  | _ =>
    let content := TrimSpace content in
    if (List.length content =? 0)%nat then 0 else
    let words := Fields content in
    let wordCount := Z.of_nat (List.length words) in
    if 0 <? wordCount then
      Z.max 1 (ftrunc (fmul (of_int wordCount) (of_const 13 10)))
    else
      let charCount := Z.of_nat (List.length content) in
      Z.max 1 (ftrunc (fdiv (of_int charCount) (of_int 3)))
  end.

(** The number of words [estimateTokens] counts. *)
Definition word_count (s : bytes) : Z := Z.of_nat (List.length (Fields (TrimSpace s))).


(** ** Word counts *)

Lemma TrimSpace_nil : TrimSpace [] = [].
Proof. reflexivity. Qed.

Lemma word_count_blank s : TrimSpace s = [] -> word_count s = 0.
Proof. intros H. unfold word_count. rewrite H. reflexivity. Qed.

Lemma word_count_pos s : TrimSpace s <> [] -> 0 < word_count s.
Proof.
  intros H. apply Fields_TrimSpace_nonempty in H. unfold word_count.
  destruct (Fields (TrimSpace s)); [congruence|simpl; lia].
Qed.

Lemma word_count_le s : 2 * word_count s <= Z.of_nat (List.length s) + 1.
Proof.
  unfold word_count. pose proof (length_Fields (TrimSpace s)).
  pose proof (length_TrimSpace s). lia.
Qed.

(** On a non-blank chunk, [estimateTokens] takes the word branch. *)
Lemma estimateTokens_nonblank s :
  TrimSpace s <> [] ->
  estimateTokens s = Z.max 1 (ftrunc (fmul (of_int (word_count s)) (of_const 13 10))).
Proof.
  intros H. pose proof (word_count_pos s H) as W.
  destruct s as [|b s']; [contradiction|].
  unfold estimateTokens. cbv zeta.
  destruct (List.length (TrimSpace (b :: s')) =? 0)%nat eqn:E.
  { apply Nat.eqb_eq, length_zero_iff_nil in E. contradiction. }
  fold (word_count (b :: s')). destruct (0 <? word_count (b :: s')) eqn:P; bool_facts; [reflexivity|lia].
Qed.

(** ** The contract of the estimator *)

Lemma estimateTokens_blank_zero s : TrimSpace s = [] -> estimateTokens s = 0.
Proof.
  intros H. destruct s as [|b s']; [reflexivity|].
  unfold estimateTokens. cbv zeta. rewrite H. reflexivity.
Qed.

(** C14: a blank chunk (empty or only white space) is estimated at 0 tokens. *)
Theorem estimateTokens_blank s : TrimSpace s = [] -> estimateTokens s = 0.
Proof. intros *. apply estimateTokens_blank_zero. Qed.

Lemma estimateTokens_visible_pos s : TrimSpace s <> [] -> 1 <= estimateTokens s.
Proof. intros H. rewrite estimateTokens_nonblank by exact H. lia. Qed.

(** C15: a chunk with a non-space rune is estimated at 1 token at least. *)
Theorem estimateTokens_pos s : TrimSpace s <> [] -> 1 <= estimateTokens s.
Proof. intros *. apply estimateTokens_visible_pos. Qed.

Lemma estimateTokens_nonneg s : 0 <= estimateTokens s.
Proof.
  destruct (TrimSpace s) eqn:E.
  - rewrite estimateTokens_blank_zero by exact E. lia.
  - pose proof (estimateTokens_visible_pos s ltac:(congruence)). lia.
Qed.

Lemma estimateTokens_word_formula s :
  Z.of_nat (List.length s) < 2 ^ 48 -> estimateTokens s = 13 * word_count s / 10.
Proof.
  intros Hs. destruct (TrimSpace s) eqn:E.
  - rewrite estimateTokens_blank_zero, word_count_blank by exact E. reflexivity.
  - assert (HT : TrimSpace s <> []) by congruence.
    pose proof (word_count_pos s HT). pose proof (word_count_le s).
    rewrite estimateTokens_nonblank, ftrunc_mul_13_10 by (exact HT || lia).
    zdiv_lia.
Qed.

(** C5: the estimate is the integer [13 * words / 10] of the trimmed chunk's
    word count (for chunks below [2^48] bytes, where [float64] arithmetic is
    exact enough): the [max(1, ..)] never matters and the
    [len(content) / 3.0] branch is unreachable. *)
Theorem estimateTokens_words s :
  Z.of_nat (List.length s) < 2 ^ 48 -> estimateTokens s = 13 * word_count s / 10.
Proof. intros *. apply estimateTokens_word_formula. Qed.

Lemma estimateTokens_bounded_by_length s :
  Z.of_nat (List.length s) < 2 ^ 48 -> estimateTokens s <= Z.of_nat (List.length s).
Proof.
  intros Hs. rewrite estimateTokens_word_formula by exact Hs.
  pose proof (word_count_le s). unfold word_count in *. zdiv_lia.
Qed.

(** C16: bounds.  The estimate never exceeds the chunk's byte length. *)
Theorem estimateTokens_le_length s :
  Z.of_nat (List.length s) < 2 ^ 48 -> estimateTokens s <= Z.of_nat (List.length s).
Proof. intros *. apply estimateTokens_bounded_by_length. Qed.

(** C17: monotonicity.  More words never give a smaller estimate. *)
Theorem estimateTokens_mono s1 s2 :
  Z.of_nat (List.length s1) < 2 ^ 48 -> Z.of_nat (List.length s2) < 2 ^ 48 ->
  word_count s1 <= word_count s2 -> estimateTokens s1 <= estimateTokens s2.
Proof.
  intros H1 H2 Hw. rewrite !estimateTokens_word_formula by assumption.
  apply Z.div_le_mono; lia.
Qed.

(** ** The estimator interface *)

(** What the streaming consumer relies on: a non-negative estimate, 0 on
    blank chunks, at most the chunk's byte length. *)
Class Estimator := {
  estimate : bytes -> Z;
  estimate_nonneg : forall s, 0 <= estimate s;
  estimate_blank : forall s, TrimSpace s = [] -> estimate s = 0;
  estimate_le_length : forall s,
    Z.of_nat (List.length s) < 2 ^ 48 -> estimate s <= Z.of_nat (List.length s)
}.

#[export] Instance go_estimator : Estimator := {
  estimate := estimateTokens;
  estimate_nonneg := estimateTokens_nonneg;
  estimate_blank := estimateTokens_blank_zero;
  estimate_le_length := estimateTokens_bounded_by_length
}.

(** ** Examples and witnesses *)

(** A chunk without white space is one word: ["abcdefghij"] is estimated
    at 1 token, not at [10 / 3] as the character-count strategy would. *)
Example estimateTokens_no_whitespace : estimateTokens (gostr "abcdefghij") = 1.
Proof. vm_compute. reflexivity. Qed.

Lemma estimateTokens_blank_witness : estimateTokens (gostr "   ") = 0.
Proof. apply estimateTokens_blank. vm_compute. reflexivity. Defined.

Lemma estimateTokens_pos_witness : 1 <= estimateTokens (gostr "!!!").
Proof. apply estimateTokens_pos. vm_compute. discriminate. Defined.

Lemma estimateTokens_words_witness :
  estimateTokens (gostr " one two  three ") = 13 * word_count (gostr " one two  three ") / 10.
Proof. apply estimateTokens_words. vm_compute. reflexivity. Defined.

Lemma estimateTokens_le_length_witness :
  estimateTokens (gostr "a b c") <= Z.of_nat (List.length (gostr "a b c")).
Proof. apply estimateTokens_le_length. vm_compute. reflexivity. Defined.

Lemma estimateTokens_mono_witness :
  estimateTokens (gostr "a b") <= estimateTokens (gostr "a b c d").
Proof. apply estimateTokens_mono; vm_compute; first [reflexivity | discriminate]. Defined.

End TokenEstimator.
