(* ===== verification/StreamConsumer.v ===== *)
(** * The streaming consumer: [AskOpenAi] of [api_client.go]

    [AskOpenAi] sends one streaming request and reads the chunks in order.
    Each iteration of its [for stream.Next()] loop is [step]: it records the
    usage of a chunk that carries one, and for the first choice's delta it
    sets the time to first token once, appends the text, adds the chunk's
    estimate to the running estimate and to the progress bar.  After the
    loop, a stream error aborts the call ([Err]); otherwise [reconcile] (the
    usage reconciler) falls back to the estimate or corrects the bar by the
    difference between the reported and the estimated completion tokens.

    The client is a function from the request to the stream it answers (the
    chunks with the elapsed time at which each is processed, and the final
    [stream.Err()]); the bar is [option (list Z)], the list of the amounts
    passed to [bar.Add].  The definitions are in a section over the
    [Estimator] interface; [go_estimator] instantiates it with
    [estimateTokens]. *)

From Stdlib Require Import ZArith List String Ascii Lia Bool.
From S2P Require Import Prelude GoString Float64 TokenEstimator.
Import ListNotations TokenEstimator.
Open Scope Z_scope.

Module StreamConsumer.

(** ** Data of the openai-go client *)

(** The fields of a streamed [ChatCompletionChunk] that [AskOpenAi] reads. *)
Record ChatCompletionChunkChoiceDelta := { Content : bytes }.
Record ChatCompletionChunkChoice := { Delta : ChatCompletionChunkChoiceDelta }.
Record CompletionUsage := { PromptTokens : Z; CompletionTokens : Z }.
Record ChatCompletionChunk := {
  Choices : list ChatCompletionChunkChoice;
  Usage : CompletionUsage
}.

(** One iteration of the loop: the chunk [stream.Current()] returns, with
    [time.Since(start)] at the moment it is processed. *)
Record Event := { elapsed : Z; event : ChatCompletionChunk }.

(** What the client answers: the chunks, then [stream.Err()]. *)
Record Stream := { events : list Event; stream_err : option bytes }.

Inductive ChatCompletionMessageParam := UserMessage (content : bytes).

(** The request [AskOpenAi] builds. *)
Record ChatCompletionNewParams := {
  Model : bytes;
  Messages : list ChatCompletionMessageParam;
  MaxCompletionTokens : Z;
  Temperature : Float64.float;
  IncludeUsage : bool
}.

(** The error [AskOpenAi] returns: [fmt.Errorf("stream error: %w", err)]. *)
Inductive AskError := StreamError (cause : bytes).

(** Its results: [accumulatedContent, timeToFirstToken, completionTokens,
    promptTokens]. *)
Record RunMetrics := {
  accumulated : bytes;
  ttft : Z;
  completion : Z;
  prompt : Z
}.

(** The local variables of [AskOpenAi]. *)
Record Locals := {
  timeToFirstToken : Z;
  firstTokenSeen : bool;
  accumulatedContent : bytes;
  estimatedTokens : Z;
  promptTokens : Z;
  completionTokens : Z
}.

(** The progress bar pointer: [None] is nil, [Some tr] lists the [Add]s. *)
Abbreviation Bar := (option (list Z)).

Definition is_empty (s : bytes) : bool := match s with [] => true | _ => false end.

(** [if bar != nil { bar.Add(n) }] *)
Definition bar_add (bar : Bar) (n : Z) : Bar :=
  match bar with None => None | Some tr => Some (tr ++ [n]) end.

Definition initial : Locals := {|
  timeToFirstToken := 0; firstTokenSeen := false; accumulatedContent := [];
  estimatedTokens := 0; promptTokens := 0; completionTokens := 0 |}.

Section Consumer.
Context `{Est : Estimator}.

(** One iteration of [for stream.Next() { ... }]. *)
Definition step (bar : Bar) (st : Locals) (ev : Event) : Locals * Bar :=
  let u := Usage (event ev) in
  let st :=
    if (0 <? PromptTokens u) || (0 <? CompletionTokens u) then
      {| timeToFirstToken := timeToFirstToken st; firstTokenSeen := firstTokenSeen st;
         accumulatedContent := accumulatedContent st; estimatedTokens := estimatedTokens st;
         promptTokens := PromptTokens u; completionTokens := CompletionTokens u |}
    else st in
  match Choices (event ev) with
  | [] => (st, bar)
  | choice :: _ =>
    let content := Content (Delta choice) in
    let st :=
      if negb (firstTokenSeen st) && negb (is_empty content) then
        if negb (is_empty (TrimSpace content)) then
          {| timeToFirstToken := elapsed ev; firstTokenSeen := true;
             accumulatedContent := accumulatedContent st; estimatedTokens := estimatedTokens st;
             promptTokens := promptTokens st; completionTokens := completionTokens st |}
        else st
      else st in
    if negb (is_empty content) then
      let newTokens := estimate content in
      ({| timeToFirstToken := timeToFirstToken st; firstTokenSeen := firstTokenSeen st;
          accumulatedContent := accumulatedContent st ++ content;
          estimatedTokens := estimatedTokens st + newTokens;
          promptTokens := promptTokens st; completionTokens := completionTokens st |},
       bar_add bar newTokens)
    else (st, bar)
  end.

(** The whole loop. *)
Fixpoint loop (bar : Bar) (st : Locals) (evs : list Event) : Locals * Bar :=
  match evs with
  | [] => (st, bar)
  | ev :: evs' => let (st', bar') := step bar st ev in loop bar' st' evs'
  end.

(** The usage reconciler: after a successful stream, fall back to the
    estimate when no completion count was reported, or add the difference
    between the reported and the estimated count to the bar. *)
Definition reconcile (bar : Bar) (st : Locals) : Locals * Bar :=
  if completionTokens st =? 0 then
    ({| timeToFirstToken := timeToFirstToken st; firstTokenSeen := firstTokenSeen st;
        accumulatedContent := accumulatedContent st; estimatedTokens := estimatedTokens st;
        promptTokens := promptTokens st; completionTokens := estimatedTokens st |}, bar)
  else if match bar with Some _ => true | None => false end && (0 <? completionTokens st) then
    let diff := completionTokens st - estimatedTokens st in
    if negb (diff =? 0) then (st, bar_add bar diff) else (st, bar)
  else (st, bar).

Definition metrics_of (st : Locals) : RunMetrics := {|
  accumulated := accumulatedContent st; ttft := timeToFirstToken st;
  completion := completionTokens st; prompt := promptTokens st |}.

(** The request of [client.Chat.Completions.NewStreaming]. *)
Definition request (model prompt : bytes) (maxTokens : Z) : ChatCompletionNewParams := {|
  Model := model; Messages := [UserMessage prompt]; MaxCompletionTokens := maxTokens;
  Temperature := Float64.of_int 1; IncludeUsage := true |}.

(** [AskOpenAi client model prompt maxTokens bar]: the result and the bar
    afterwards. *)
Definition AskOpenAi (client : ChatCompletionNewParams -> Stream)
    (model prompt : bytes) (maxTokens : Z) (bar : Bar) : result RunMetrics AskError * Bar :=
  let stream := client (request model prompt maxTokens) in
  let (st, bar) := loop bar initial (events stream) in
  match stream_err stream with
  | Some err => (Err (StreamError err), bar)
  | None => let (st, bar) := reconcile bar st in (Ok (metrics_of st), bar)
  end.

(** ** The abstract specification of one exchange *)

(** The text of the first choice of a chunk (empty when there is none). *)
Definition first_content (ev : Event) : bytes :=
  match Choices (event ev) with [] => [] | c :: _ => Content (Delta c) end.

(** The [bar.Add] a chunk causes. *)
Definition chunk_estimate (ev : Event) : list Z :=
  if is_empty (first_content ev) then [] else [estimate (first_content ev)].

Definition chunk_estimates (evs : list Event) : list Z := flat_map chunk_estimate evs.

(** The text of the stream. *)
Definition stream_text (evs : list Event) : bytes := flat_map first_content evs.

(** The time of the first chunk with a non-space rune. *)
Fixpoint first_visible (evs : list Event) : option Z :=
  match evs with
  | [] => None
  | ev :: evs' =>
    if is_empty (TrimSpace (first_content ev)) then first_visible evs' else Some (elapsed ev)
  end.

(** A chunk's usage replaces both counts when one of them is positive. *)
Definition usage_after (ev : Event) (pk : Z * Z) : Z * Z :=
  let u := Usage (event ev) in
  if (0 <? PromptTokens u) || (0 <? CompletionTokens u)
  then (PromptTokens u, CompletionTokens u) else pk.

(** The (prompt, completion) counts in force after the stream. *)
Definition last_usage (evs : list Event) : Z * Z := fold_left (fun pk ev => usage_after ev pk) evs (0, 0).

Definition bar_extend (bar : Bar) (l : list Z) : Bar :=
  match bar with None => None | Some tr => Some (tr ++ l) end.

(** The correction the reconciler adds to the bar. *)
Definition reconcile_adds (k est : Z) : list Z :=
  if k =? 0 then [] else if 0 <? k then (if k - est =? 0 then [] else [k - est]) else [].

(** What one exchange yields, stated on the whole stream at once. *)
Definition spec_run (bar : Bar) (s : Stream) : result RunMetrics AskError * Bar :=
  let evs := events s in
  let est := sumZ (chunk_estimates evs) in
  let (p, k) := last_usage evs in
  match stream_err s with
  | Some e => (Err (StreamError e), bar_extend bar (chunk_estimates evs))
  | None =>
    (Ok {| accumulated := stream_text evs;
           ttft := match first_visible evs with Some t => t | None => 0 end;
           completion := if k =? 0 then est else k;
           prompt := p |},
     bar_extend bar (chunk_estimates evs ++ reconcile_adds k est))
  end.

(** ** The loop computes the specification *)

Lemma bar_extend_nil bar : bar_extend bar [] = bar.
Proof. destruct bar; simpl; rewrite ?app_nil_r; reflexivity. Qed.

Lemma bar_extend_app bar l1 l2 : bar_extend (bar_extend bar l1) l2 = bar_extend bar (l1 ++ l2).
Proof. destruct bar; simpl; rewrite ?app_assoc; reflexivity. Qed.

Lemma bar_add_extend bar n : bar_add bar n = bar_extend bar [n].
Proof. reflexivity. Qed.

Lemma estimate_empty : estimate [] = 0.
Proof. apply estimate_blank. reflexivity. Qed.

(** The declarative effect of one iteration. *)
Definition step_spec (bar : Bar) (st : Locals) (ev : Event) : Locals * Bar :=
  let (p, k) := usage_after ev (promptTokens st, completionTokens st) in
  let c := first_content ev in
  let visible := negb (is_empty (TrimSpace c)) in
  ({| timeToFirstToken :=
        if negb (firstTokenSeen st) && visible then elapsed ev else timeToFirstToken st;
      firstTokenSeen := firstTokenSeen st || visible;
      accumulatedContent := accumulatedContent st ++ c;
      estimatedTokens := estimatedTokens st + estimate c;
      promptTokens := p; completionTokens := k |},
   bar_extend bar (chunk_estimate ev)).

Lemma step_eq bar st ev : step bar st ev = step_spec bar st ev.
Proof.
  unfold step, step_spec, usage_after, chunk_estimate, first_content. cbv zeta.
  destruct st as [t0 seen acc est p0 k0]. cbn [timeToFirstToken firstTokenSeen
    accumulatedContent estimatedTokens promptTokens completionTokens].
  destruct (_ || _); cbn [timeToFirstToken firstTokenSeen accumulatedContent
    estimatedTokens promptTokens completionTokens];
  (destruct (Choices (event ev)) as [|ch chs];
   [ cbn [is_empty TrimSpace negb];
     rewrite estimate_empty, Z.add_0_r, app_nil_r, bar_extend_nil, orb_false_r, andb_false_r;
     reflexivity
   | destruct (Content (Delta ch)) as [|b c];
     [ cbn [is_empty negb andb];
       rewrite estimate_empty, Z.add_0_r, app_nil_r, bar_extend_nil;
       change (TrimSpace []) with (@nil ascii); cbn [is_empty negb];
       rewrite orb_false_r, andb_false_r; reflexivity
     | cbn [is_empty negb andb];
       destruct seen; destruct (is_empty (TrimSpace (b :: c))); reflexivity ]]).
Qed.

Lemma estimate_chunk ev : estimate (first_content ev) = sumZ (chunk_estimate ev).
Proof.
  unfold chunk_estimate. destruct (first_content ev); cbn [is_empty].
  - apply estimate_empty.
  - cbn. lia.
Qed.

Lemma first_visible_cons ev evs :
  first_visible (ev :: evs) =
  if is_empty (TrimSpace (first_content ev)) then first_visible evs else Some (elapsed ev).
Proof. reflexivity. Qed.

(** The closed form of the loop from any state. *)
Lemma loop_eq bar st evs :
  loop bar st evs =
  (let (p, k) := fold_left (fun pk ev => usage_after ev pk) evs
                    (promptTokens st, completionTokens st) in
   {| timeToFirstToken :=
        if firstTokenSeen st then timeToFirstToken st
        else match first_visible evs with Some t => t | None => timeToFirstToken st end;
      firstTokenSeen :=
        firstTokenSeen st || match first_visible evs with Some _ => true | None => false end;
      accumulatedContent := accumulatedContent st ++ stream_text evs;
      estimatedTokens := estimatedTokens st + sumZ (chunk_estimates evs);
      promptTokens := p; completionTokens := k |},
   bar_extend bar (chunk_estimates evs)).
Proof.
  revert bar st. induction evs as [|ev evs IH]; intros bar st.
  - destruct st as [t0 seen acc est p0 k0]. cbn.
    rewrite app_nil_r, Z.add_0_r, orb_false_r, bar_extend_nil.
    destruct seen; reflexivity.
  - cbn [loop]. rewrite step_eq. unfold step_spec.
    destruct (usage_after ev (promptTokens st, completionTokens st)) as [p1 k1] eqn:U.
    rewrite IH. cbn [fold_left timeToFirstToken firstTokenSeen accumulatedContent
      estimatedTokens promptTokens completionTokens]. rewrite U.
    destruct (fold_left _ evs (p1, k1)) as [p k].
    unfold stream_text, chunk_estimates. cbn [flat_map].
    rewrite <- !app_assoc, sumZ_app, bar_extend_app, <- estimate_chunk, Z.add_assoc.
    rewrite first_visible_cons.
    destruct st as [t0 seen acc est p0 k0]; cbn [timeToFirstToken firstTokenSeen].
    destruct seen, (is_empty (TrimSpace (first_content ev))); reflexivity.
Qed.

Lemma AskOpenAi_spec_run client model prompt maxTokens bar :
  AskOpenAi client model prompt maxTokens bar =
  spec_run bar (client (request model prompt maxTokens)).
Proof.
  unfold AskOpenAi, spec_run. set (s := client _).
  rewrite loop_eq. cbn [promptTokens completionTokens initial].
  fold (last_usage (events s)).
  destruct (last_usage (events s)) as [p k].
  cbn [firstTokenSeen initial orb timeToFirstToken accumulatedContent estimatedTokens
    app Z.add].
  destruct (stream_err s); [reflexivity|].
  unfold reconcile. cbn [completionTokens estimatedTokens].
  unfold reconcile_adds.
  destruct (k =? 0) eqn:K.
  - rewrite app_nil_r. reflexivity.
  - destruct bar as [tr|]; cbn [andb]; rewrite ?Z.add_0_l.
    + destruct (0 <? k); [|rewrite app_nil_r; reflexivity].
      destruct (k - sumZ (chunk_estimates (events s)) =? 0); cbn [negb].
      * rewrite app_nil_r. reflexivity.
      * cbn [bar_add bar_extend]. rewrite app_assoc. reflexivity.
    + destruct (0 <? k); [destruct (_ =? 0)|]; reflexivity.
Qed.

(** C3: refinement.  [AskOpenAi] computes [spec_run] on the stream the client
    answers to its request. *)
Theorem AskOpenAi_spec client model prompt maxTokens bar :
  AskOpenAi client model prompt maxTokens bar =
  spec_run bar (client (request model prompt maxTokens)).
Proof. intros *. apply AskOpenAi_spec_run. Qed.

(** ** Properties of one exchange *)

Section Exchange.
Variables (client : ChatCompletionNewParams -> Stream) (model userPrompt : bytes) (maxTokens : Z).

(** The chunks of the stream the client answers. *)
Let evs := events (client (request model userPrompt maxTokens)).

Lemma AskOpenAi_ok_inv bar m bar' :
  AskOpenAi client model userPrompt maxTokens bar = (Ok m, bar') ->
  stream_err (client (request model userPrompt maxTokens)) = None /\
  (let (p, k) := last_usage evs in
   let est := sumZ (chunk_estimates evs) in
   m = {| accumulated := stream_text evs;
          ttft := match first_visible evs with Some t => t | None => 0 end;
          completion := if k =? 0 then est else k; prompt := p |} /\
   bar' = bar_extend bar (chunk_estimates evs ++ reconcile_adds k est)).
Proof.
  rewrite AskOpenAi_spec_run. unfold spec_run. fold evs.
  destruct (last_usage evs) as [p k].
  destruct (stream_err _); intros H; inversion H; subst; auto.
Qed.

(** C1: after a successful exchange with a non-negative completion count,
    the bar has advanced by exactly the completion tokens returned: the
    chunk estimates plus the reconciler's correction. *)
Theorem AskOpenAi_bar_total tr0 m tr :
  AskOpenAi client model userPrompt maxTokens (Some tr0) = (Ok m, Some tr) ->
  0 <= completion m ->
  sumZ tr = sumZ tr0 + completion m.
Proof.
  intros H Hk. apply AskOpenAi_ok_inv in H as [_ H].
  destruct (last_usage evs) as [p k]. destruct H as [-> Hbar].
  inversion Hbar; subst. cbn [completion] in *. unfold reconcile_adds.
  rewrite !sumZ_app. split_cmp; cbn [sumZ fold_right]; lia.
Qed.

(** C9: the reconciler touches the bar at most once, with the difference
    between the reported and the estimated completion count, and only when
    a positive count was reported. *)
Theorem AskOpenAi_reconcile_once tr0 m tr :
  AskOpenAi client model userPrompt maxTokens (Some tr0) = (Ok m, Some tr) ->
  exists adds, tr = tr0 ++ chunk_estimates evs ++ adds /\
    (adds = [] \/
     (0 < snd (last_usage evs) /\
      adds = [snd (last_usage evs) - sumZ (chunk_estimates evs)])).
Proof.
  intros H. apply AskOpenAi_ok_inv in H as [_ H].
  destruct (last_usage evs) as [p k]. destruct H as [_ Hbar].
  inversion Hbar; subst. eexists. split; [reflexivity|].
  unfold reconcile_adds. split_cmp; cbn [snd]; auto.
Qed.

(** C8: a stream error yields the error and no metrics, and the bar keeps
    every chunk estimate it was given: nothing is rolled back. *)
Theorem AskOpenAi_stream_error bar e :
  stream_err (client (request model userPrompt maxTokens)) = Some e ->
  AskOpenAi client model userPrompt maxTokens bar =
  (Err (StreamError e), bar_extend bar (chunk_estimates evs)).
Proof.
  intros He. rewrite AskOpenAi_spec_run. unfold spec_run. rewrite He.
  destruct (last_usage _). reflexivity.
Qed.

(** C12: the accumulated content is the concatenation of the first choice's
    deltas, in order. *)
Theorem AskOpenAi_content bar m bar' :
  AskOpenAi client model userPrompt maxTokens bar = (Ok m, bar') ->
  accumulated m = stream_text evs.
Proof.
  intros H. apply AskOpenAi_ok_inv in H as [_ H].
  destruct (last_usage evs). destruct H as [-> _]. reflexivity.
Qed.

(** C10: the time to first token is the elapsed time of the first chunk whose
    text has a non-space rune, and 0 when there is none. *)
Theorem AskOpenAi_ttft bar m bar' :
  AskOpenAi client model userPrompt maxTokens bar = (Ok m, bar') ->
  ttft m = match first_visible evs with Some t => t | None => 0 end.
Proof.
  intros H. apply AskOpenAi_ok_inv in H as [_ H].
  destruct (last_usage evs). destruct H as [-> _]. reflexivity.
Qed.

(** C11: the prompt count is the last usage in force, and the completion
    count is the last reported one, or the running estimate when it is 0. *)
Theorem AskOpenAi_counts bar m bar' :
  AskOpenAi client model userPrompt maxTokens bar = (Ok m, bar') ->
  prompt m = fst (last_usage evs) /\
  completion m = (if snd (last_usage evs) =? 0 then sumZ (chunk_estimates evs)
                  else snd (last_usage evs)).
Proof.
  intros H. apply AskOpenAi_ok_inv in H as [_ H].
  destruct (last_usage evs). destruct H as [-> _]. auto.
Qed.

(** C18: bounds.  When every chunk is below [2^48] bytes, the running
    estimate never exceeds the byte length of the accumulated content, so
    the [int] sums cannot overflow; the fallback completion count is bounded
    the same way. *)
Theorem AskOpenAi_estimate_bounded bar m bar' :
  Forall (fun ev => Z.of_nat (List.length (first_content ev)) < 2 ^ 48) evs ->
  AskOpenAi client model userPrompt maxTokens bar = (Ok m, bar') ->
  snd (last_usage evs) = 0 ->
  0 <= completion m <= Z.of_nat (List.length (accumulated m)).
Proof.
  intros Hsz H Hk. apply AskOpenAi_ok_inv in H as [_ H].
  destruct (last_usage evs) as [p k]. cbn [snd] in Hk. subst k. destruct H as [-> _]. cbn.
  clear -Hsz. induction Hsz as [|ev evs' Hev _ IH]; [cbn; lia|].
  unfold chunk_estimates, stream_text in *. cbn [flat_map].
  rewrite sumZ_app, length_app, <- estimate_chunk.
  pose proof (estimate_le_length _ Hev). pose proof (estimate_nonneg (first_content ev)). lia.
Qed.

End Exchange.

(** ** The exchange as a state machine *)

(** The states of the spec's protocol: [Start], [Streaming] with the
    locals and the chunks still to read, and the two terminal states. *)
Inductive phase :=
| Start
| Streaming (st : Locals) (pending : list Event)
| Finalize (m : RunMetrics)
| Failed (e : AskError).

Inductive sm_step (s : Stream) : phase * Bar -> phase * Bar -> Prop :=
| sm_start bar :
    sm_step s (Start, bar) (Streaming initial (events s), bar)
| sm_chunk st ev evs bar st' bar' :
    step bar st ev = (st', bar') ->
    sm_step s (Streaming st (ev :: evs), bar) (Streaming st' evs, bar')
| sm_fail st bar e :
    stream_err s = Some e ->
    sm_step s (Streaming st [], bar) (Failed (StreamError e), bar)
| sm_finalize st bar st' bar' :
    stream_err s = None -> reconcile bar st = (st', bar') ->
    sm_step s (Streaming st [], bar) (Finalize (metrics_of st'), bar').

Inductive sm_star (s : Stream) : phase * Bar -> phase * Bar -> Prop :=
| sm_refl x : sm_star s x x
| sm_trans x y z : sm_step s x y -> sm_star s y z -> sm_star s x z.

Definition terminal (p : phase) : bool :=
  match p with Finalize _ | Failed _ => true | _ => false end.

Definition outcome (p : phase) : option (result RunMetrics AskError) :=
  match p with Finalize m => Some (Ok m) | Failed e => Some (Err e) | _ => None end.

Lemma sm_star_trans s x y z : sm_star s x y -> sm_star s y z -> sm_star s x z.
Proof. induction 1; eauto using sm_star. Qed.

Lemma sm_step_deterministic s x y z : sm_step s x y -> sm_step s x z -> y = z.
Proof. intros H1 H2. inversion H1; subst; inversion H2; subst; congruence. Qed.

Lemma sm_terminal_stuck s p bar y : terminal p = true -> ~ sm_step s (p, bar) y.
Proof. intros T H. inversion H; subst; discriminate. Qed.

(** Reading the pending chunks is the loop. *)
Lemma sm_star_loop s st evs bar :
  sm_star s (Streaming st evs, bar)
    (Streaming (fst (loop bar st evs)) [], snd (loop bar st evs)).
Proof.
  revert st bar. induction evs as [|ev evs IH]; intros st bar; [apply sm_refl|].
  cbn [loop]. destruct (step bar st ev) as [st' bar'] eqn:E.
  eapply sm_trans; [apply sm_chunk; exact E|]. apply IH.
Qed.

(** Two runs of a deterministic machine that both end in a stuck state end
    in the same state. *)
Lemma sm_star_unique s x y z :
  sm_star s x y -> sm_star s x z -> terminal (fst y) = true -> terminal (fst z) = true -> y = z.
Proof.
  intros H1. revert z. induction H1 as [x|x w y Hxw Hwy IH]; intros z H2 Ty Tz.
  - destruct H2 as [|x v z Hxv _]; [reflexivity|].
    destruct x as [p b]. exfalso. exact (sm_terminal_stuck s p b v Ty Hxv).
  - destruct H2 as [|x v z Hxv Hvz].
    + destruct x as [p b]. exfalso. exact (sm_terminal_stuck s p b w Tz Hxw).
    + pose proof (sm_step_deterministic s x w v Hxw Hxv). subst v. auto.
Qed.

(** The run of [AskOpenAi]'s stream from [Start]. *)
Lemma sm_run_AskOpenAi client model prompt maxTokens bar :
  let s := client (request model prompt maxTokens) in
  exists p, sm_star s (Start, bar) (p, snd (AskOpenAi client model prompt maxTokens bar)) /\
    terminal p = true /\ outcome p = Some (fst (AskOpenAi client model prompt maxTokens bar)).
Proof.
  intros s. unfold AskOpenAi. fold s.
  pose proof (sm_star_loop s initial (events s) bar) as L.
  destruct (loop bar initial (events s)) as [st bar1] eqn:Hl. cbn [fst snd] in L.
  destruct (stream_err s) as [e|] eqn:Es.
  - exists (Failed (StreamError e)). split; [|split; reflexivity].
    eapply sm_trans; [apply sm_start|]. eapply sm_star_trans; [exact L|].
    eapply sm_trans; [apply sm_fail; exact Es|apply sm_refl].
  - destruct (reconcile bar1 st) as [st' bar'] eqn:R.
    exists (Finalize (metrics_of st')). split; [|split; reflexivity].
    eapply sm_trans; [apply sm_start|]. eapply sm_star_trans; [exact L|].
    eapply sm_trans; [eapply sm_finalize; eauto|apply sm_refl].
Qed.

(** Refinement of the protocol.  The runs of the state machine from
    [Start] that stop end exactly in [AskOpenAi]'s outcome and bar:
    [Finalize] on success, [Failed] on a stream error. *)
Theorem AskOpenAi_refines_sm client model prompt maxTokens bar p bar' :
  let s := client (request model prompt maxTokens) in
  sm_star s (Start, bar) (p, bar') -> terminal p = true ->
  outcome p = Some (fst (AskOpenAi client model prompt maxTokens bar)) /\
  bar' = snd (AskOpenAi client model prompt maxTokens bar).
Proof.
  intros s H T. destruct (sm_run_AskOpenAi client model prompt maxTokens bar)
    as [p0 [H0 [T0 O0]]].
  pose proof (sm_star_unique s _ _ _ H H0 T T0) as U. inversion U; subst. auto.
Qed.

(** The invariant of the streaming phase: the bar has received exactly the
    running estimate, and the time to first token is 0 until it is seen. *)
Definition streaming_inv (tr0 : list Z) (x : phase * Bar) : Prop :=
  match x with
  | (Start, bar) => bar = Some tr0
  | (Streaming st _, Some tr) =>
      sumZ tr = sumZ tr0 + estimatedTokens st /\
      (firstTokenSeen st = false -> timeToFirstToken st = 0)
  | (Streaming _ _, None) => False
  | _ => True
  end.

Lemma step_inv tr0 bar st ev st' bar' pend :
  streaming_inv tr0 (Streaming st (ev :: pend), bar) -> step bar st ev = (st', bar') ->
  streaming_inv tr0 (Streaming st' pend, bar').
Proof.
  rewrite step_eq. unfold step_spec. destruct (usage_after _ _).
  intros Inv H. inversion H; subst. destruct bar as [tr|]; [|contradiction].
  cbn [streaming_inv bar_extend] in *. destruct Inv as [Hs Ht].
  cbn [estimatedTokens firstTokenSeen timeToFirstToken].
  rewrite sumZ_app, <- estimate_chunk. split; [lia|].
  destruct (firstTokenSeen st), (is_empty (TrimSpace (first_content ev))); cbn; auto;
    discriminate.
Qed.

(** C13: invariant, by induction on the runs of the machine: in every
    reachable streaming state, the bar has advanced by the running estimate,
    and the time to first token is still 0 while no token was seen. *)
Theorem sm_streaming_invariant s tr0 x :
  sm_star s (Start, Some tr0) x -> streaming_inv tr0 x.
Proof.
  intros H. remember (Start, Some tr0) as x0 eqn:Ex.
  assert (I0 : streaming_inv tr0 x0) by (subst; reflexivity).
  clear Ex. induction H as [x|x y z Hxy _ IH]; [exact I0|].
  apply IH. destruct Hxy as [bar|st ev evs bar st' bar' Hst|st bar e _|st bar st' bar' _ _].
  - cbn in I0 |- *. subst bar. split; [lia|reflexivity].
  - exact (step_inv tr0 bar st ev st' bar' evs I0 Hst).
  - exact I.
  - exact I.
Qed.

End Consumer.

(** ** Scenarios with [estimateTokens] *)

(** A chunk with one choice and a usage record, and a usage-only chunk. *)
Definition text_chunk (t : Z) (c : string) : Event :=
  {| elapsed := t;
     event := {| Choices := [{| Delta := {| Content := gostr c |} |}];
                 Usage := {| PromptTokens := 0; CompletionTokens := 0 |} |} |}.
Definition usage_chunk (t p k : Z) : Event :=
  {| elapsed := t;
     event := {| Choices := []; Usage := {| PromptTokens := p; CompletionTokens := k |} |} |}.

(** A client that answers every request with the same stream. *)
Definition replay (evs : list Event) (err : option bytes) : ChatCompletionNewParams -> Stream :=
  fun _ => {| events := evs; stream_err := err |}.

(** The spec's first scenario: ["Hello"], [" world"], then a usage record
    with 5 prompt and 3 completion tokens. *)
Definition hello_client := replay [text_chunk 5 "Hello"; text_chunk 9 " world"; usage_chunk 12 5 3] None.

Definition hello_metrics : RunMetrics :=
  {| accumulated := gostr "Hello world"; ttft := 5; completion := 3; prompt := 5 |}.

(** The spec's first scenario: the text is ["Hello world"], the
    reported count 3 overrides the estimate 2, the time to first token is
    that of ["Hello"], and the bar receives 1, 1, then the correction 1. *)
Example hello_world_scenario :
  AskOpenAi hello_client (gostr "m") (gostr "p") 100 (Some []) = (Ok hello_metrics, Some [1; 1; 1]).
Proof. vm_compute. reflexivity. Qed.

(** The spec's second scenario: no usage record. *)
Definition fallback_client :=
  replay [text_chunk 3 "one two"; text_chunk 4 " three"; text_chunk 6 " four"] None.

(** The spec's second scenario: without a usage record, the
    completion count is the running estimate, 4 tokens for chunks
    ["one two"], [" three"] and [" four"]. *)
Example fallback_scenario :
  AskOpenAi fallback_client (gostr "m") (gostr "p") 100 None =
  (Ok {| accumulated := gostr "one two three four"; ttft := 3; completion := 4; prompt := 0 |},
   None).
Proof. vm_compute. reflexivity. Qed.

(** A later usage record with a positive prompt count and a zero
    completion count replaces an earlier reported completion count, which
    is then lost: the estimate is returned instead of 3. *)
Example usage_overwrite_scenario :
  fst (AskOpenAi (replay [text_chunk 1 "a"; usage_chunk 2 5 3; usage_chunk 3 5 0] None)
         (gostr "m") (gostr "p") 100 None) =
  Ok {| accumulated := gostr "a"; ttft := 1; completion := 1; prompt := 5 |}.
Proof. vm_compute. reflexivity. Qed.

(** ** Witnesses *)

Lemma AskOpenAi_bar_total_witness : sumZ [1; 1; 1] = sumZ [] + completion hello_metrics.
Proof.
  apply (AskOpenAi_bar_total hello_client (gostr "m") (gostr "p") 100 [] hello_metrics [1; 1; 1]).
  - vm_compute. reflexivity.
  - vm_compute. discriminate.
Defined.

Lemma AskOpenAi_reconcile_once_witness :
  exists adds, [1; 1; 1] = [] ++ chunk_estimates (events (hello_client (request (gostr "m") (gostr "p") 100))) ++ adds /\
    (adds = [] \/
     (0 < snd (last_usage (events (hello_client (request (gostr "m") (gostr "p") 100)))) /\
      adds = [snd (last_usage (events (hello_client (request (gostr "m") (gostr "p") 100))))
              - sumZ (chunk_estimates (events (hello_client (request (gostr "m") (gostr "p") 100))))])).
Proof.
  apply (AskOpenAi_reconcile_once hello_client (gostr "m") (gostr "p") 100 [] hello_metrics).
  vm_compute. reflexivity.
Defined.

Definition failing_client := replay [text_chunk 1 "a b"] (Some (gostr "reset")).

Lemma AskOpenAi_stream_error_witness :
  AskOpenAi failing_client (gostr "m") (gostr "p") 100 (Some []) =
  (Err (StreamError (gostr "reset")),
   bar_extend (Some []) (chunk_estimates (events (failing_client (request (gostr "m") (gostr "p") 100))))).
Proof. apply AskOpenAi_stream_error. reflexivity. Defined.

Lemma AskOpenAi_content_witness :
  accumulated hello_metrics = stream_text (events (hello_client (request (gostr "m") (gostr "p") 100))).
Proof.
  apply (AskOpenAi_content hello_client (gostr "m") (gostr "p") 100 (Some []) hello_metrics (Some [1; 1; 1])).
  vm_compute. reflexivity.
Defined.

Lemma AskOpenAi_ttft_witness :
  ttft hello_metrics =
  match first_visible (events (hello_client (request (gostr "m") (gostr "p") 100))) with
  | Some t => t | None => 0 end.
Proof.
  apply (AskOpenAi_ttft hello_client (gostr "m") (gostr "p") 100 (Some []) hello_metrics (Some [1; 1; 1])).
  vm_compute. reflexivity.
Defined.

Lemma AskOpenAi_counts_witness :
  prompt hello_metrics = fst (last_usage (events (hello_client (request (gostr "m") (gostr "p") 100)))) /\
  completion hello_metrics =
    (if snd (last_usage (events (hello_client (request (gostr "m") (gostr "p") 100)))) =? 0
     then sumZ (chunk_estimates (events (hello_client (request (gostr "m") (gostr "p") 100))))
     else snd (last_usage (events (hello_client (request (gostr "m") (gostr "p") 100))))).
Proof.
  apply (AskOpenAi_counts hello_client (gostr "m") (gostr "p") 100 (Some []) hello_metrics (Some [1; 1; 1])).
  vm_compute. reflexivity.
Defined.

Definition fallback_metrics : RunMetrics :=
  {| accumulated := gostr "one two three four"; ttft := 3; completion := 4; prompt := 0 |}.

Lemma AskOpenAi_estimate_bounded_witness :
  0 <= completion fallback_metrics <= Z.of_nat (List.length (accumulated fallback_metrics)).
Proof.
  apply (AskOpenAi_estimate_bounded fallback_client (gostr "m") (gostr "p") 100 None fallback_metrics None).
  - repeat constructor.
  - vm_compute. reflexivity.
  - reflexivity.
Defined.

Lemma AskOpenAi_refines_sm_witness :
  exists p bar',
    sm_star (hello_client (request (gostr "m") (gostr "p") 100)) (Start, Some []) (p, bar') /\
    terminal p = true /\
    outcome p = Some (fst (AskOpenAi hello_client (gostr "m") (gostr "p") 100 (Some []))) /\
    bar' = snd (AskOpenAi hello_client (gostr "m") (gostr "p") 100 (Some [])).
Proof.
  destruct (sm_run_AskOpenAi hello_client (gostr "m") (gostr "p") 100 (Some [])) as [p [R [T _]]].
  exists p, (snd (AskOpenAi hello_client (gostr "m") (gostr "p") 100 (Some []))).
  split; [exact R|]. split; [exact T|].
  exact (AskOpenAi_refines_sm hello_client (gostr "m") (gostr "p") 100 (Some []) p _ R T).
Defined.

(** The state after ["Hello"] and [" world"]. *)
Definition hello_locals : Locals := {|
  timeToFirstToken := 5; firstTokenSeen := true; accumulatedContent := gostr "Hello world";
  estimatedTokens := 2; promptTokens := 0; completionTokens := 0 |}.

Lemma sm_streaming_invariant_witness :
  streaming_inv [] (Streaming hello_locals [usage_chunk 12 5 3], Some [1; 1]).
Proof.
  apply (sm_streaming_invariant (hello_client (request (gostr "m") (gostr "p") 100)) []).
  eapply sm_trans; [apply sm_start|].
  eapply sm_trans; [eapply sm_chunk; reflexivity|].
  eapply sm_trans; [eapply sm_chunk; reflexivity|].
  apply sm_refl.
Defined.

End StreamConsumer.
