(* ===== verification/Orchestrator.v ===== *)
(** * The concurrency orchestrator, from the spec (section 5)

    The orchestrator is not in [src/]: the spec describes it as the caller
    that runs many exchanges concurrently, one per simulated client, all
    incrementing one shared progress bar whose [Add] is thread-safe: no
    increment is lost, and increments of different exchanges may come in
    any order.

    Each exchange is [AskOpenAi] started with its own view of the bar; the
    [Add]s it makes are its trace.  A run of the orchestrator interleaves
    the traces: [interleaves ts out] says that [out] is the shared bar's
    sequence of [Add]s when each exchange's trace [ts] is kept in order and
    the exchanges take turns in any way ([schedule] runs a given order of
    turns).  The theorems show that the shared bar receives exactly the
    increments of all exchanges, that after successful exchanges it stands
    at the total of their completion counts, and that a failed exchange
    leaves its chunk estimates on it. *)

From Stdlib Require Import ZArith List String Lia Permutation.
From S2P Require Import Prelude GoString TokenEstimator StreamConsumer.
Import ListNotations TokenEstimator StreamConsumer.
Open Scope string_scope.
Open Scope Z_scope.

Module Orchestrator.

(** [ts] with the trace of exchange [i] replaced by [t]. *)
Fixpoint set_trace (ts : list (list Z)) (i : nat) (t : list Z) : list (list Z) :=
  match ts, i with
  | [], _ => []
  | _ :: ts', O => t :: ts'
  | t' :: ts', S i' => t' :: set_trace ts' i' t
  end.

(** The shared bar's [Add]s: each step, some exchange with increments left
    makes its next [Add]. *)
Inductive interleaves : list (list Z) -> list Z -> Prop :=
| ilv_done ts : Forall (fun t => t = []) ts -> interleaves ts []
| ilv_step ts i x t out :
    nth_error ts i = Some (x :: t) ->
    interleaves (set_trace ts i t) out ->
    interleaves ts (x :: out).

(** A run for a given order of turns: the exchange whose turn it is makes
    its next [Add] if it has one left; the rest of the traces follow in
    order once the turns run out. *)
Fixpoint schedule (turns : list nat) (ts : list (list Z)) : list Z :=
  match turns with
  | [] => List.concat ts
  | i :: turns' =>
    match nth_error ts i with
    | Some (x :: t) => x :: schedule turns' (set_trace ts i t)
    | _ => schedule turns' ts
    end
  end.

(** ** No increment is lost *)

Lemma set_trace_perm ts i x t :
  nth_error ts i = Some (x :: t) ->
  Permutation (List.concat ts) (x :: List.concat (set_trace ts i t)).
Proof.
  revert i. induction ts as [|t0 ts IH]; intros [|i] H; cbn in H; try discriminate.
  - injection H as ->. reflexivity.
  - cbn [set_trace List.concat]. rewrite (IH i H).
    symmetry. apply Permutation_middle.
Qed.

Lemma interleaves_perm ts out : interleaves ts out -> Permutation out (List.concat ts).
Proof.
  induction 1 as [ts Hts|ts i x t out Hi _ IH].
  - replace (List.concat ts) with (@nil Z); [reflexivity|].
    induction Hts as [|t ts -> _ IH]; [reflexivity|exact IH].
  - rewrite (set_trace_perm ts i x t Hi). constructor. exact IH.
Qed.

Lemma sumZ_perm l1 l2 : Permutation l1 l2 -> sumZ l1 = sumZ l2.
Proof. induction 1; rewrite ?sumZ_cons in *; lia. Qed.

Lemma sumZ_concat ts : sumZ (List.concat ts) = sumZ (map sumZ ts).
Proof. induction ts as [|t ts IH]; [reflexivity|]. cbn [List.concat map]. rewrite sumZ_app, IH. reflexivity. Qed.

(** An exchange that is done does not change what the others can do. *)
Lemma interleaves_done ts out : interleaves ts out -> interleaves ([] :: ts) out.
Proof.
  induction 1 as [ts Hts|ts i x t out Hi _ IH].
  - constructor. constructor; [reflexivity|exact Hts].
  - apply (ilv_step _ (S i) x t); [exact Hi|exact IH].
Qed.

(** The exchanges one after the other is an interleaving. *)
Lemma interleaves_concat ts : interleaves ts (List.concat ts).
Proof.
  induction ts as [|t ts IH]; [constructor; constructor|].
  cbn [List.concat]. induction t as [|x t IHt]; [now apply interleaves_done|].
  apply (ilv_step _ 0 x t); [reflexivity|exact IHt].
Qed.

(** Every schedule is an interleaving. *)
Lemma schedule_interleaves turns ts : interleaves ts (schedule turns ts).
Proof.
  revert ts. induction turns as [|i turns IH]; intros ts; [apply interleaves_concat|].
  cbn. destruct (nth_error ts i) as [[|x t]|] eqn:E; [apply IH| |apply IH].
  apply (ilv_step _ i x t); [exact E|apply IH].
Qed.

(** ** One concurrency level *)

(** One simulated client's exchange: the arguments of its [AskOpenAi]. *)
Record Exchange := mkExchange {
  client : ChatCompletionNewParams -> Stream;
  model : bytes;
  userPrompt : bytes;
  maxTokens : Z
}.

(** The exchanges are generic in the token estimator, as [AskOpenAi] is. *)
Section Level.
Context `{Est : Estimator}.

(** The exchange run against a bar. *)
Definition run (x : Exchange) (bar : Bar) : result RunMetrics AskError * Bar :=
  AskOpenAi (client x) (model x) (userPrompt x) (maxTokens x) bar.

(** The chunks the exchange reads. *)
Definition evs_of (x : Exchange) : list Event :=
  events (client x (request (model x) (userPrompt x) (maxTokens x))).

(** The exchange's own [Add]s: its trace on a bar that starts empty. *)
Definition adds (x : Exchange) : list Z :=
  match snd (run x (Some [])) with Some tr => tr | None => [] end.

Definition outcome (x : Exchange) : result RunMetrics AskError := fst (run x (Some [])).

(** What the spec has one exchange put on the bar: its completion count
    when it succeeds with a non-negative one, its chunk estimates
    otherwise (a failed exchange is not rolled back, and a negative
    reported count is not reconciled). *)
Definition bar_share (x : Exchange) : Z :=
  match outcome x with
  | Ok m => if 0 <=? completion m then completion m else sumZ (chunk_estimates (evs_of x))
  | Err _ => sumZ (chunk_estimates (evs_of x))
  end.

(** ** What one exchange does to the shared bar *)

Lemma chunk_estimates_nonneg evs : 0 <= sumZ (chunk_estimates evs).
Proof.
  induction evs as [|ev evs IH]; [reflexivity|].
  unfold chunk_estimates in *. cbn [flat_map]. rewrite sumZ_app, <- estimate_chunk.
  pose proof (estimate_nonneg (first_content ev)). lia.
Qed.

(** The exchange does not read the bar: its outcome is the same on every
    bar, and it appends its own [Add]s to it. *)
Lemma run_frame x bar : run x bar = (outcome x, bar_extend bar (adds x)).
Proof.
  unfold outcome, adds, run. rewrite !AskOpenAi_spec_run. unfold spec_run.
  destruct (last_usage _), (stream_err _); destruct bar; reflexivity.
Qed.

Lemma adds_share x : sumZ (adds x) = bar_share x.
Proof.
  unfold bar_share, outcome, adds, run. rewrite AskOpenAi_spec_run. unfold spec_run.
  fold (evs_of x). pose proof (chunk_estimates_nonneg (evs_of x)).
  destruct (last_usage _) as [p k], (stream_err _); cbn [fst snd completion]; [reflexivity|].
  cbn [bar_extend app]. rewrite sumZ_app. unfold reconcile_adds.
  split_cmp; cbn [sumZ fold_right]; lia.
Qed.

(** The shared bar after a level: every exchange's share, whatever the
    interleaving. *)
Lemma level_total xs out :
  interleaves (map adds xs) out -> sumZ out = sumZ (map bar_share xs).
Proof.
  intros H. rewrite (sumZ_perm _ _ (interleaves_perm _ _ H)), sumZ_concat, map_map.
  f_equal. apply map_ext. exact adds_share.
Qed.

(** C4: the exchange does not read the progress bar: it returns the same
    outcome whatever the bar holds, and only appends its own [Add]s to it,
    so the consumer is a function of its inputs plus the injected [Add]. *)
Theorem AskOpenAi_bar_frame x bar : run x bar = (outcome x, bar_extend bar (adds x)).
Proof. apply run_frame. Qed.

(** C2: no increment is lost: whatever the interleaving of the exchanges'
    [Add]s on the shared bar, the bar advances by the sum of what each
    exchange puts on it: its completion count when it succeeds with a
    non-negative one, its chunk estimates when it fails. *)
Theorem shared_bar_total xs out :
  interleaves (map adds xs) out -> sumZ out = sumZ (map bar_share xs).
Proof. apply level_total. Qed.

End Level.

(** ** Witnesses *)

(** Three clients of one level: the spec's two scenarios, and one whose
    stream breaks after a chunk. *)
Definition broken_client := replay [text_chunk 2 "Hi there"] (Some (gostr "connection reset")).

Definition level3 : list Exchange :=
  [mkExchange hello_client (gostr "m") (gostr "p") 100;
   mkExchange fallback_client (gostr "m") (gostr "p") 100;
   mkExchange broken_client (gostr "m") (gostr "p") 100].

Lemma AskOpenAi_bar_frame_witness :
  run (hd (mkExchange hello_client [] [] 0) level3) (Some [7]) =
  (Ok hello_metrics, Some [7; 1; 1; 1]).
Proof.
  rewrite AskOpenAi_bar_frame. vm_compute. reflexivity.
Defined.

Lemma shared_bar_total_witness :
  sumZ (schedule [2; 0; 1; 0; 1]%nat (map adds level3)) = sumZ (map bar_share level3).
Proof. apply shared_bar_total, schedule_interleaves. Defined.

End Orchestrator.
