(* ===== verification/Catalog.v ===== *)
(** * The model catalog lookup: [GetFirstAvailableModel] of [api_client.go]

    [GetFirstAvailableModel] lists the models of the endpoint and returns the
    first identifier.  The call to [client.Models.List] is an input: the page
    of models, or the error of the call.  Both failures are errors of their
    own ([ListFailed] wraps the cause, [NoModels] is the empty list), and a
    success always returns the first model of a non-empty list. *)

From Stdlib Require Import List String Ascii.
From S2P Require Import Prelude.
Import ListNotations.

Module Catalog.

(** The fields of openai-go's [Model] and of the listing page the code reads. *)
Record Model := { ID : bytes }.
Record ModelPage := { Data : list Model }.

(** [fmt.Errorf("failed to list models: %w", err)] and
    [fmt.Errorf("no models available")]. *)
Inductive CatalogError :=
| ListFailed (cause : bytes)
| NoModels.

Definition GetFirstAvailableModel (listed : result ModelPage bytes) : result bytes CatalogError :=
  match listed with
  | Err err => Err (ListFailed err)
  | Ok modelList =>
    match Data modelList with
    | [] => Err NoModels
    | m :: _ => Ok (ID m)
    end
  end.

(** C39: the lookup returns an identifier exactly when the listing
    succeeded with at least one model, and it is the first model's. *)
Theorem GetFirstAvailableModel_ok listed id :
  GetFirstAvailableModel listed = Ok id <->
  exists page m rest, listed = Ok page /\ Data page = m :: rest /\ ID m = id.
Proof.
  split.
  - destruct listed as [page|err]; cbn; [|discriminate].
    destruct (Data page) as [|m rest] eqn:D; intros H; inversion H; subst.
    exists page, m, rest. auto.
  - intros (page & m & rest & -> & D & <-). cbn. rewrite D. reflexivity.
Qed.

(** The two failures: a failed call is wrapped, an empty list is
    [NoModels]. *)
Lemma GetFirstAvailableModel_err listed e :
  GetFirstAvailableModel listed = Err e ->
  (exists cause, listed = Err cause /\ e = ListFailed cause) \/
  (exists page, listed = Ok page /\ Data page = [] /\ e = NoModels).
Proof.
  destruct listed as [page|err]; cbn; intros H.
  - right. exists page. destruct (Data page) eqn:D; inversion H; subst; auto.
  - left. exists err. inversion H; subst; auto.
Qed.

Lemma GetFirstAvailableModel_ok_witness :
  GetFirstAvailableModel (Ok {| Data := [{| ID := gostr "llama" |}] |}) = Ok (gostr "llama").
Proof.
  apply GetFirstAvailableModel_ok. exists {| Data := [{| ID := gostr "llama" |}] |},
    {| ID := gostr "llama" |}, []. split; [reflexivity|split; reflexivity].
Defined.

Example GetFirstAvailableModel_first :
  GetFirstAvailableModel (Ok {| Data := [{| ID := gostr "llama" |}; {| ID := gostr "qwen" |}] |}) =
  Ok (gostr "llama").
Proof. reflexivity. Qed.

End Catalog.
