(* ===== verification/RandomPrompt.v ===== *)
(** * The prompt synthesiser: [random_prompt.go]

    [generateRandomWord] draws a length in 3..10 and that many letters from
    [math/rand]'s global source; [generateRandomPhrase] seeds the source
    with the wall-clock time, draws [numWords] words and prefixes them with
    a fixed instruction.  The global source is the state of ExtLib's state
    monad; its generator is abstract ([RandSource]): a seeding function and
    [Intn], whose only promise is [0 <= Intn n < n].  The wall-clock time is
    an input.  [make([]string, numWords)] panics on a negative count, which
    is [None] here.

    The theorems hold for every source: each word has 3 to 10 lowercase
    letters, the phrase has the prefix and exactly [numWords] words that
    [strings.Fields] recovers, the token estimator counts [13 * (n + 7) / 10]
    tokens for it, and the phrase depends only on the seed. *)

From Stdlib Require Import ZArith List String Ascii Lia.
From ExtLib Require Import Structures.Monad Data.Monads.StateMonad.
From S2P Require Import Prelude GoString Float64 TokenEstimator.
Import ListNotations MonadNotation TokenEstimator Utf8 Unicode.
Open Scope Z_scope.
Local Open Scope monad_scope.

Module RandomPrompt.

(** [math/rand]'s global source, as the code uses it. *)
Class RandSource := {
  Rng : Type;
  (** [rand.Seed(seed)]: the state of the source after seeding. *)
  Seed : Z -> Rng;
  (** [rand.Intn(n)]: a value and the next state. *)
  Intn : Z -> Rng -> Z * Rng;
  Intn_range : forall n g, 0 < n -> 0 <= fst (Intn n g) < n
}.

Definition minWordLength : Z := 3.
Definition maxWordLength : Z := 10.

(** [var letters = []rune("abcdefghijklmnopqrstuvwxyz")] *)
Definition letters : bytes := gostr "abcdefghijklmnopqrstuvwxyz".

(** The fixed instruction that starts every prompt. *)
Definition prefix : bytes := gostr "Please reply back the following section unchanged: ".

Section Synthesiser.
Context `{RS : RandSource}.

Definition intn (n : Z) : state Rng Z := mkState (fun g => Intn n g).

(** [for i := 0; i < wordLength; i++ { word[i] = letters[rand.Intn(len(letters))] }] *)
Fixpoint draw_letters (k : nat) : state Rng bytes :=
  match k with
  | O => ret []
  | S k' =>
    i <- intn (Z.of_nat (List.length letters)) ;;
    rest <- draw_letters k' ;;
    ret (nth (Z.to_nat i) letters "a"%char :: rest)
  end.

Definition generateRandomWord : state Rng bytes :=
  r <- intn (maxWordLength - minWordLength + 1) ;;
  let wordLength := minWordLength + r in
  draw_letters (Z.to_nat wordLength).

(** [for i := 0; i < numWords; i++ { randomWords[i] = generateRandomWord() }] *)
Fixpoint draw_words (k : nat) : state Rng (list bytes) :=
  match k with
  | O => ret []
  | S k' => w <- generateRandomWord ;; ws <- draw_words k' ;; ret (w :: ws)
  end.

(** [generateRandomPhrase numWords], with [time.Now().UnixNano()] as [now];
    [None] is the panic of [make] on a negative length. *)
Definition generateRandomPhrase (now : Z) (numWords : Z) : state Rng (option bytes) :=
  mkState (fun _ => (tt, Seed now)) ;;
  if numWords <? 0 then ret None else
  randomWords <- draw_words (Z.to_nat numWords) ;;
  let randomPhrase := Join randomWords [" "%char] in
  ret (Some (prefix ++ randomPhrase)).

(** [GenerateRandomPhrase], the exported wrapper. *)
Definition GenerateRandomPhrase (now : Z) (numWords : Z) : state Rng (option bytes) :=
  generateRandomPhrase now numWords.

(** ** The shape of words and phrases *)

Definition is_lower (b : ascii) : Prop := 97 <= byte_val b <= 122.

Lemma runState_bind {A B} (c : state Rng A) (k : A -> state Rng B) g :
  runState (bind c k) g = let (v, g') := runState c g in runState (k v) g'.
Proof. reflexivity. Qed.

Lemma letters_lower i : (i < 26)%nat -> is_lower (nth i letters "a"%char).
Proof.
  intros Hi. unfold is_lower.
  do 26 (destruct i as [|i]; [vm_compute; split; discriminate|]). lia.
Qed.

Lemma draw_letters_spec k g :
  List.length (fst (runState (draw_letters k) g)) = k /\
  Forall is_lower (fst (runState (draw_letters k) g)).
Proof.
  revert g. induction k as [|k IH]; intros g; [split; [reflexivity|constructor]|].
  cbn [draw_letters]. rewrite !runState_bind. cbn [runState intn].
  pose proof (Intn_range 26 g ltac:(lia)) as R.
  change (Z.of_nat (List.length letters)) with 26.
  destruct (Intn 26 g) as [i g1]. cbn [fst] in R.
  rewrite runState_bind. specialize (IH g1).
  destruct (runState (draw_letters k) g1) as [w g2]. cbn in *.
  destruct IH as [IHl IHf]. split; [lia|]. constructor; [|exact IHf].
  apply letters_lower. lia.
Qed.

Lemma generateRandomWord_ok g :
  let w := evalState generateRandomWord g in
  (3 <= List.length w <= 10)%nat /\ Forall is_lower w.
Proof.
  unfold evalState, generateRandomWord. rewrite runState_bind. cbn [runState intn].
  pose proof (Intn_range 8 g ltac:(lia)) as R.
  change (maxWordLength - minWordLength + 1) with 8.
  destruct (Intn 8 g) as [r g1]. cbn [fst] in R.
  destruct (draw_letters_spec (Z.to_nat (minWordLength + r)) g1) as [L F].
  split; [|exact F]. rewrite L. unfold minWordLength. lia.
Qed.

(** C20: every generated word has 3 to 10 letters, all lowercase ASCII
    letters of [letters]. *)
Theorem generateRandomWord_shape g :
  let w := evalState generateRandomWord g in
  (3 <= List.length w <= 10)%nat /\ Forall is_lower w.
Proof. intros *. apply generateRandomWord_ok. Qed.

Definition word_ok (w : bytes) : Prop :=
  (3 <= List.length w <= 10)%nat /\ Forall is_lower w.

Lemma draw_words_spec k g :
  List.length (fst (runState (draw_words k) g)) = k /\
  Forall word_ok (fst (runState (draw_words k) g)).
Proof.
  revert g. induction k as [|k IH]; intros g; [split; [reflexivity|constructor]|].
  cbn [draw_words]. rewrite !runState_bind.
  pose proof (generateRandomWord_ok g) as W. unfold evalState in W.
  destruct (runState generateRandomWord g) as [w g1]. cbn [fst] in W.
  rewrite runState_bind. specialize (IH g1).
  destruct (runState (draw_words k) g1) as [ws g2]. cbn in *.
  destruct IH as [IHl IHf]. split; [lia|]. constructor; assumption.
Qed.

Lemma generateRandomPhrase_spec now n g :
  0 <= n ->
  exists ws, evalState (generateRandomPhrase now n) g = Some (prefix ++ Join ws [" "%char]) /\
    List.length ws = Z.to_nat n /\ Forall word_ok ws /\
    ws = fst (runState (draw_words (Z.to_nat n)) (Seed now)).
Proof.
  intros Hn. unfold evalState, generateRandomPhrase. rewrite runState_bind. cbn [runState].
  destruct (n <? 0) eqn:N; bool_facts; [lia|].
  rewrite runState_bind. destruct (draw_words_spec (Z.to_nat n) (Seed now)) as [L F].
  destruct (runState (draw_words (Z.to_nat n)) (Seed now)) as [ws g1].
  exists ws. cbn in *. auto.
Qed.

(** C19: for a non-negative count, the phrase is the prefix followed by
    exactly [numWords] well-formed words joined by single spaces; it depends
    only on the seed, not on the source's state before the call. *)
Theorem generateRandomPhrase_words now n g :
  0 <= n ->
  exists ws, evalState (generateRandomPhrase now n) g = Some (prefix ++ Join ws [" "%char]) /\
    List.length ws = Z.to_nat n /\ Forall word_ok ws /\
    ws = fst (runState (draw_words (Z.to_nat n)) (Seed now)).
Proof. intros *. apply generateRandomPhrase_spec. Qed.

Lemma generateRandomPhrase_panics now n g :
  n < 0 -> evalState (generateRandomPhrase now n) g = None.
Proof.
  intros Hn. unfold evalState, generateRandomPhrase. rewrite runState_bind. cbn [runState].
  destruct (n <? 0) eqn:N; bool_facts; [reflexivity|lia].
Qed.

(** A negative word count is the panic of [make]. *)
Theorem generateRandomPhrase_negative now n g :
  n < 0 -> evalState (generateRandomPhrase now n) g = None.
Proof. intros *. apply generateRandomPhrase_panics. Qed.

(** ** The prompt seen by the token estimator *)

Definition prefix_words : list bytes :=
  map gostr ["Please"; "reply"; "back"; "the"; "following"; "section"; "unchanged:"]%string.

Lemma prefix_Join : prefix = Join prefix_words [" "%char] ++ [" "%char].
Proof. vm_compute. reflexivity. Qed.

Lemma prefix_words_ok : Forall (fun w => w <> [] /\ Forall word_byte w) prefix_words.
Proof.
  repeat constructor; try discriminate; apply word_byteb_spec; vm_compute; reflexivity.
Qed.

Lemma word_ok_bytes w : word_ok w -> w <> [] /\ Forall word_byte w.
Proof.
  intros [L F]. split; [destruct w; cbn in L; [lia|discriminate]|].
  eapply Forall_impl; [|exact F]. intros b [H1 H2]. unfold word_byte.
  split; [unfold RuneSelf; lia|].
  unfold IsSpace. destruct (byte_val b <=? 255) eqn:E; split_cmp; bool_facts; try lia;
    repeat match goal with |- context [?a =? ?c] => destruct (Z.eqb_spec a c); [lia|] end;
    reflexivity.
Qed.

Lemma Fields_prompt_words ws :
  Forall word_ok ws -> Fields (prefix ++ Join ws [" "%char]) = prefix_words ++ ws.
Proof.
  intros Hws. destruct ws as [|w ws].
  - rewrite app_nil_r. vm_compute. reflexivity.
  - rewrite prefix_Join, <- app_assoc, <- Join_app by discriminate.
    apply Fields_Join; [vm_compute; reflexivity|vm_compute; reflexivity|].
    apply Forall_app. split; [exact prefix_words_ok|].
    eapply Forall_impl; [|exact Hws]. exact word_ok_bytes.
Qed.

(** C21: round trip.  [strings.Fields] of the prompt gives back the seven
    words of the prefix followed by the generated words. *)
Theorem Fields_prompt ws :
  Forall word_ok ws -> Fields (prefix ++ Join ws [" "%char]) = prefix_words ++ ws.
Proof. intros *. apply Fields_prompt_words. Qed.

(** C22: the token estimate of a generated prompt of [n] words is
    [13 * (n + 7) / 10], the prefix contributing 7 words. *)
Theorem estimateTokens_prompt now n g p :
  0 <= n < 2 ^ 40 -> evalState (generateRandomPhrase now n) g = Some p ->
  estimateTokens p = 13 * (n + 7) / 10.
Proof.
  intros Hn H. destruct (generateRandomPhrase_spec now n g ltac:(lia)) as (ws & E & L & F & _).
  assert (p = prefix ++ Join ws [" "%char]) as -> by congruence. clear H E.
  assert (Hlen : (List.length (Join ws [" "%char]) <= 11 * List.length ws)%nat).
  { eapply Nat.le_trans; [apply (length_Join ws [" "%char] 10)|cbn; lia].
    eapply Forall_impl; [|exact F]. intros w [Hw _]. lia. }
  rewrite estimateTokens_word_formula.
  - unfold word_count. rewrite Fields_TrimSpace, (Fields_prompt_words ws F).
    rewrite length_app, L. cbn [List.length prefix_words map]. f_equal. lia.
  - rewrite length_app. change (List.length prefix) with 51%nat.
    assert (2 ^ 40 < 2 ^ 44) by reflexivity. lia.
Qed.

End Synthesiser.

(** ** Witnesses, with a linear congruential source *)

Definition lcg_source : RandSource := {|
  Rng := Z;
  Seed := fun s => s mod 2 ^ 31;
  Intn := fun n g => (g mod n, (g * 1103515245 + 12345) mod 2 ^ 31);
  Intn_range := fun n g H => Z.mod_pos_bound g n H
|}.

Lemma generateRandomPhrase_words_witness :
  0 <= 2 /\ exists ws,
    evalState (generateRandomPhrase (RS:=lcg_source) 42 2) 0 = Some (prefix ++ Join ws [" "%char]) /\
    List.length ws = Z.to_nat 2 /\ Forall word_ok ws /\
    ws = fst (runState (draw_words (RS:=lcg_source) (Z.to_nat 2)) (Seed (RandSource:=lcg_source) 42)).
Proof. split; [lia|]. apply (generateRandomPhrase_words (RS:=lcg_source) 42 2 0). lia. Defined.

Lemma generateRandomPhrase_negative_witness :
  -1 < 0 /\ evalState (generateRandomPhrase (RS:=lcg_source) 42 (-1)) 0 = None.
Proof. split; [lia|]. apply (generateRandomPhrase_negative (RS:=lcg_source) 42 (-1) 0). lia. Defined.

Lemma Fields_prompt_witness :
  Forall word_ok [gostr "abc"; gostr "hello"] /\
  Fields (prefix ++ Join [gostr "abc"; gostr "hello"] [" "%char]) =
  prefix_words ++ [gostr "abc"; gostr "hello"].
Proof.
  assert (F : Forall word_ok [gostr "abc"; gostr "hello"]).
  { repeat apply Forall_cons; try apply Forall_nil; (split; [cbn; lia|]);
    repeat (apply Forall_cons; [unfold is_lower; vm_compute; split; discriminate|]); apply Forall_nil. }
  split; [exact F|]. apply Fields_prompt. exact F.
Defined.

Lemma estimateTokens_prompt_witness :
  0 <= 3 < 2 ^ 40 /\
  estimateTokens (match evalState (generateRandomPhrase (RS:=lcg_source) 42 3) 0 with
                  | Some p => p | None => [] end) = 13 * (3 + 7) / 10.
Proof.
  split; [lia|]. apply (estimateTokens_prompt (RS:=lcg_source) 42 3 0); [lia|].
  vm_compute. reflexivity.
Defined.

End RandomPrompt.
