(* ===== verification/RandomInput.v ===== *)
(** * [AskOpenAiRandomInput] of [api_client.go]

    [AskOpenAiRandomInput] generates a prompt of [numWords] random words with
    [generateRandomPhrase] and sends it with [AskOpenAi], which estimates
    chunks with [estimateTokens].  The composition runs in the state monad
    of [RandomPrompt] (the global [math/rand] source); its result is [None]
    when [generateRandomPhrase] panics on a negative count, before any
    request is sent. *)

From Stdlib Require Import ZArith List String Ascii Lia.
From ExtLib Require Import Structures.Monad Data.Monads.StateMonad.
From S2P Require Import Prelude GoString TokenEstimator StreamConsumer RandomPrompt.
Import ListNotations MonadNotation StreamConsumer RandomPrompt.
Open Scope Z_scope.
Local Open Scope monad_scope.

Module RandomInput.

Section RandomInput.
Context `{RS : RandSource}.

(** [prompt := generateRandomPhrase(numWords); return AskOpenAi(client, model, prompt, maxTokens, bar)] *)
Definition AskOpenAiRandomInput (now : Z) (client : ChatCompletionNewParams -> Stream)
    (model : bytes) (numWords maxTokens : Z) (bar : Bar)
    : state Rng (option (result RunMetrics AskError * Bar)) :=
  prompt <- generateRandomPhrase now numWords ;;
  ret (match prompt with
       | None => None
       | Some prompt => Some (AskOpenAi (Est:=TokenEstimator.go_estimator) client model prompt maxTokens bar)
       end).

(** For a non-negative count, [AskOpenAiRandomInput] sends exactly one
    exchange whose prompt is the prefix followed by [numWords] generated
    words, which [strings.Fields] splits back into the prefix's seven words
    and those words. *)
Theorem AskOpenAiRandomInput_prompt now client model n maxTokens bar g :
  0 <= n ->
  exists ws,
    evalState (AskOpenAiRandomInput now client model n maxTokens bar) g =
      Some (AskOpenAi (Est:=TokenEstimator.go_estimator) client model
              (prefix ++ Join ws [" "%char]) maxTokens bar) /\
    Fields (prefix ++ Join ws [" "%char]) = prefix_words ++ ws /\
    List.length ws = Z.to_nat n /\ Forall word_ok ws.
Proof.
  intros Hn. destruct (generateRandomPhrase_spec now n g Hn) as (ws & E & L & F & _).
  exists ws. split; [|split; [apply Fields_prompt_words; exact F|split; assumption]].
  unfold AskOpenAiRandomInput, evalState in *. rewrite runState_bind.
  destruct (runState (generateRandomPhrase now n) g) as [o g1]. cbn in E |- *.
  rewrite E. reflexivity.
Qed.

(** A negative count panics in [generateRandomPhrase], before any request. *)
Lemma AskOpenAiRandomInput_negative now client model n maxTokens bar g :
  n < 0 -> evalState (AskOpenAiRandomInput now client model n maxTokens bar) g = None.
Proof.
  intros Hn. pose proof (generateRandomPhrase_panics now n g Hn) as E.
  unfold AskOpenAiRandomInput, evalState in *. rewrite runState_bind.
  destruct (runState (generateRandomPhrase now n) g) as [o g1]. cbn in E |- *.
  rewrite E. reflexivity.
Qed.

End RandomInput.

Lemma AskOpenAiRandomInput_prompt_witness :
  0 <= 2 /\ exists ws,
    evalState (AskOpenAiRandomInput (RS:=lcg_source) 42 (fun _ => {| events := []; stream_err := None |})
                 (gostr "m") 2 16 None) 0 =
      Some (AskOpenAi (Est:=TokenEstimator.go_estimator) (fun _ => {| events := []; stream_err := None |})
              (gostr "m") (prefix ++ Join ws [" "%char]) 16 None) /\
    Fields (prefix ++ Join ws [" "%char]) = prefix_words ++ ws /\
    List.length ws = Z.to_nat 2 /\ Forall word_ok ws.
Proof. split; [lia|]. apply (AskOpenAiRandomInput_prompt (RS:=lcg_source)). lia. Defined.

End RandomInput.
