(* ===== verification/GoLib.v ===== *)
(** * The rest of Go's library as [output.go] calls it

    - [Strings.ReplaceAll]: [strings.ReplaceAll], replacing the leftmost
      non-overlapping occurrences; an empty pattern inserts the replacement
      before every rune and at the end, and [old == new] returns [s].  On a
      one-byte pattern it is a byte-wise map ([ReplaceAll_byte]).
    - [Fmt]: the [%d] verb ([fmtInteger]: digits written from the last, a
      minus sign for negative values) and the padding of a width ([%11d]),
      with the round trip through a decimal reader.
    - [Filepath]: [filepath.Clean] on Unix, translated from its loop over
      the path with the [lazybuf] writer, and [filepath.Join]. *)

From Stdlib Require Import ZArith List String Ascii Lia Bool.
From S2P Require Import Prelude GoString.
Import ListNotations.
Open Scope Z_scope.

Module Strings.

(** [strings.HasPrefix(s, p)]. *)
Fixpoint HasPrefix (s p : bytes) {struct p} : bool :=
  match p, s with
  | [], _ => true
  | a :: p', b :: s' => Ascii.eqb a b && HasPrefix s' p'
  | _ :: _, [] => false
  end.

(** The replacement loop for a non-empty [old]: at each position, either
    [old] starts here ([strings.Index] found it) or the byte is copied. *)
Fixpoint replace_from (fuel : nat) (s old new : bytes) : bytes :=
  match fuel with
  | O => s
  | S f =>
    match s with
    | [] => []
    | c :: s' =>
      if HasPrefix s old then new ++ replace_from f (skipn (List.length old) s) old new
      else c :: replace_from f s' old new
    end
  end.

(** [strings.ReplaceAll(s, old, new)]. *)
Definition ReplaceAll (s old new : bytes) : bytes :=
  if list_eq_dec ascii_dec old new then s else
  match old with
  | [] => List.concat (map (fun r => new ++ snd r) (runes s)) ++ new
  | _ :: _ => replace_from (List.length s) s old new
  end.

Lemma HasPrefix_one c x s : HasPrefix (x :: s) [c] = Ascii.eqb c x.
Proof. cbn. apply andb_true_r. Qed.

(** On a one-byte pattern, the replacement is the byte-wise map. *)
Lemma replace_from_byte fuel s c d :
  (List.length s <= fuel)%nat ->
  replace_from fuel s [c] [d] = map (fun x => if ascii_dec x c then d else x) s.
Proof.
  revert fuel. induction s as [|x s IH]; intros [|f] Hf; cbn in Hf; try lia; [reflexivity|reflexivity|].
  cbn [replace_from]. rewrite HasPrefix_one.
  destruct (ascii_dec x c) as [->|Hne].
  - rewrite Ascii.eqb_refl. cbn [app skipn List.length map].
    destruct (ascii_dec c c) as [_|]; [|congruence]. f_equal. apply IH. lia.
  - replace (Ascii.eqb c x) with false
      by (symmetry; apply Ascii.eqb_neq; congruence).
    cbn [map]. destruct (ascii_dec x c); [congruence|]. f_equal. apply IH. lia.
Qed.

(** [strings.ReplaceAll(s, c, d)] on one-byte strings replaces every byte
    [c] by [d] and keeps the others. *)
Lemma ReplaceAll_byte s c d :
  ReplaceAll s [c] [d] = map (fun x => if ascii_dec x c then d else x) s.
Proof.
  unfold ReplaceAll. destruct (list_eq_dec ascii_dec [c] [d]) as [E|_].
  - injection E as <-. induction s as [|x s IH]; [reflexivity|].
    cbn. destruct (ascii_dec x c); subst; f_equal; exact IH.
  - apply replace_from_byte. lia.
Qed.

(** The pieces between the occurrences of one byte ([strings.Split] on a
    one-byte separator): the reference reader of the formatted texts. *)
Fixpoint Split1 (s : bytes) (c : ascii) : list bytes :=
  match s with
  | [] => [[]]
  | b :: s' =>
    if Ascii.eqb b c then [] :: Split1 s' c
    else match Split1 s' c with p :: ps => (b :: p) :: ps | [] => [[b]] end
  end.

Lemma Split1_app a c b : ~ In c a -> Split1 (a ++ c :: b) c = a :: Split1 b c.
Proof.
  induction a as [|x a IH]; intros Ha; cbn [app Split1].
  - rewrite Ascii.eqb_refl. reflexivity.
  - replace (Ascii.eqb x c) with false
      by (symmetry; apply Ascii.eqb_neq; intros ->; apply Ha; left; reflexivity).
    rewrite IH by (intros H; apply Ha; right; exact H). reflexivity.
Qed.

Lemma Split1_none a c : ~ In c a -> Split1 a c = [a].
Proof. intros H. rewrite <- (app_nil_r a). induction a as [|x a IH]; [reflexivity|].
  cbn [app Split1]. replace (Ascii.eqb x c) with false
    by (symmetry; apply Ascii.eqb_neq; intros ->; apply H; left; reflexivity).
  rewrite IH by (intros Hi; apply H; right; exact Hi). rewrite app_nil_r. reflexivity.
Qed.

End Strings.

Module Fmt.

Definition digit (d : Z) : ascii := ascii_of_N (Z.to_N (48 + d)).

(** The digits of a non-negative value, as [fmtInteger] writes them from
    the last: [for u >= 10 { buf[i] = '0' + u%10; u /= 10 }; buf[i] = '0' + u]. *)
Fixpoint utoa_fuel (fuel : nat) (u : Z) (acc : bytes) : bytes :=
  match fuel with
  | O => digit u :: acc
  | S f => if u <? 10 then digit u :: acc else utoa_fuel f (u / 10) (digit (u mod 10) :: acc)
  end.

(** A non-negative value has fewer decimal digits than binary ones. *)
Definition utoa (u : Z) : bytes := utoa_fuel (Z.to_nat (Z.log2 u)) u [].

(** [fmt]'s [%d]: a minus sign for negative values. *)
Definition fmt_d (n : Z) : bytes :=
  if n <? 0 then "-"%char :: utoa (- n) else utoa n.

(** The padding of a width: spaces on the left up to [w] bytes. *)
Definition pad (w : nat) (s : bytes) : bytes := repeat " "%char (w - List.length s) ++ s.

(** [%<w>d]. *)
Definition fmt_wd (w : nat) (n : Z) : bytes := pad w (fmt_d n).

(** A decimal reader, the reference the printer is checked against. *)
Definition digit_val (c : ascii) : option Z :=
  let v := byte_val c - 48 in if (0 <=? v) && (v <? 10) then Some v else None.

Fixpoint read_digits (s : bytes) (acc : Z) : option Z :=
  match s with
  | [] => Some acc
  | c :: s' => match digit_val c with Some v => read_digits s' (10 * acc + v) | None => None end
  end.

Definition read_int (s : bytes) : option Z :=
  match s with
  | [] => None
  | c :: ds =>
    if Ascii.eqb c "-"%char then
      match ds with [] => None | _ => option_map Z.opp (read_digits ds 0) end
    else read_digits s 0
  end.

Lemma digit_val_digit d : 0 <= d < 10 -> digit_val (digit d) = Some d.
Proof.
  intros H. assert (d = 0 \/ d = 1 \/ d = 2 \/ d = 3 \/ d = 4 \/ d = 5 \/ d = 6 \/
                    d = 7 \/ d = 8 \/ d = 9) as Hd by lia.
  repeat destruct Hd as [->|Hd]; try reflexivity. subst. reflexivity.
Qed.

Lemma read_digits_app s1 s2 a :
  read_digits (s1 ++ s2) a =
  match read_digits s1 a with Some b => read_digits s2 b | None => None end.
Proof.
  revert a. induction s1 as [|c s1 IH]; intros a; [reflexivity|].
  cbn. destruct (digit_val c); [apply IH|reflexivity].
Qed.

Lemma log2_div10 u : 10 <= u -> Z.log2 (u / 10) < Z.log2 u.
Proof.
  intros Hu. assert (H2 : Z.log2 (u / 10) <= Z.log2 (u / 2))
    by (apply Z.log2_le_mono; apply Z.div_le_compat_l; lia).
  assert (H3 : Z.log2 (u / 2) = Z.log2 u - 1).
  { change (u / 2) with (u / 2 ^ 1). rewrite <- (Z.shiftr_div_pow2 u 1) by lia.
    rewrite Z.log2_shiftr by lia.
    assert (3 <= Z.log2 u) by (change 3 with (Z.log2 8); apply Z.log2_le_mono; lia). lia. }
  lia.
Qed.

(** The digits [utoa_fuel] writes before [acc] read back as the value. *)
Lemma utoa_fuel_digits f u acc :
  0 <= u -> (Z.to_nat (Z.log2 u) <= f)%nat ->
  exists ds, utoa_fuel f u acc = ds ++ acc /\ ds <> [] /\
    forall a, read_digits ds a = Some (a * 10 ^ Z.of_nat (List.length ds) + u).
Proof.
  revert u acc. induction f as [|f IH]; intros u acc Hu Hf.
  - assert (u < 10).
    { destruct (Z.lt_ge_cases u 2); [lia|].
      assert (1 <= Z.log2 u) by (change 1 with (Z.log2 2); apply Z.log2_le_mono; lia). lia. }
    exists [digit u]. split; [reflexivity|split; [discriminate|]].
    intros a. cbn [read_digits]. rewrite digit_val_digit by lia.
      cbn [List.length]. change (Z.of_nat 1) with 1. f_equal. lia.
  - cbn [utoa_fuel]. destruct (u <? 10) eqn:U; bool_facts.
    + exists [digit u]. split; [reflexivity|split; [discriminate|]].
      intros a. cbn [read_digits]. rewrite digit_val_digit by lia.
      cbn [List.length]. change (Z.of_nat 1) with 1. f_equal. lia.
    + pose proof (log2_div10 u U).
      destruct (IH (u / 10) (digit (u mod 10) :: acc)) as (ds & E & N & R);
        [apply Z.div_pos; lia|pose proof (Z.log2_nonneg (u / 10)); lia|].
      exists (ds ++ [digit (u mod 10)]). rewrite E, <- app_assoc.
      split; [reflexivity|split; [destruct ds; [congruence|discriminate]|]].
      intros a. rewrite read_digits_app, R. cbn [read_digits].
      rewrite digit_val_digit by (pose proof (Z.mod_pos_bound u 10); lia).
      rewrite length_app, Nat2Z.inj_add, Z.pow_add_r by lia. cbn [List.length].
      change (10 ^ Z.of_nat 1) with 10. f_equal.
      set (p := 10 ^ Z.of_nat (List.length ds)). pose proof (Z.div_mod u 10 ltac:(lia)). nia.
Qed.

Lemma read_digits_some ds a :
  read_digits ds a <> None -> Forall (fun c => digit_val c <> None) ds.
Proof.
  revert a. induction ds as [|c ds IH]; intros a H; constructor; cbn in H;
    destruct (digit_val c); try congruence; eapply IH; exact H.
Qed.

Lemma utoa_read u : 0 <= u -> utoa u <> [] /\ read_digits (utoa u) 0 = Some u.
Proof.
  intros Hu. destruct (utoa_fuel_digits (Z.to_nat (Z.log2 u)) u [] Hu (le_n _)) as (ds & E & N & R).
  unfold utoa. rewrite E, app_nil_r. split; [exact N|rewrite R; f_equal; lia].
Qed.

(** [%d] round trip: the decimal reader gives back the printed value. *)
Theorem fmt_d_roundtrip n : read_int (fmt_d n) = Some n.
Proof.
  unfold fmt_d. destruct (n <? 0) eqn:Hn; bool_facts.
  - destruct (utoa_read (- n) ltac:(lia)) as [N R]. cbn.
    destruct (utoa (- n)) as [|c ds]; [congruence|]. rewrite R. cbn. f_equal. lia.
  - destruct (utoa_read n Hn) as [N R].
    pose proof (read_digits_some (utoa n) 0 ltac:(congruence)) as D.
    destruct (utoa n) as [|c ds]; [congruence|]. cbn [read_int].
    inversion D as [|? ? Dc _]; subst.
    destruct (Ascii.eqb_spec c "-"%char) as [->|_]; [vm_compute in Dc; congruence|exact R].
Qed.

Lemma read_digits_zeros k s : read_digits (repeat "0"%char k ++ s) 0 = read_digits s 0.
Proof. induction k as [|k IH]; [reflexivity|exact IH]. Qed.

(** The bytes of a printed integer: a minus sign or a digit. *)
Definition num_char (c : ascii) : Prop := c = "-"%char \/ digit_val c <> None.

Lemma utoa_chars u : 0 <= u -> Forall num_char (utoa u).
Proof.
  intros Hu. destruct (utoa_read u Hu) as [_ R].
  eapply Forall_impl; [|apply (read_digits_some _ 0); congruence]. intros c H. right. exact H.
Qed.

Lemma fmt_d_chars n : Forall num_char (fmt_d n).
Proof.
  unfold fmt_d. destruct (n <? 0) eqn:E; bool_facts.
  - constructor; [left; reflexivity|apply utoa_chars; lia].
  - apply utoa_chars. exact E.
Qed.

Lemma not_in_app {A} (x : A) a b : ~ In x a -> ~ In x b -> ~ In x (a ++ b).
Proof. intros Ha Hb Hin. apply in_app_or in Hin as [H|H]; auto. Qed.

Lemma num_no_slash l : Forall num_char l -> ~ In "/"%char l.
Proof.
  intros H Hin. rewrite Forall_forall in H. destruct (H _ Hin) as [E|E]; [discriminate|].
  apply E. reflexivity.
Qed.

Lemma length_pad w s : List.length (pad w s) = Nat.max w (List.length s).
Proof. unfold pad. rewrite length_app, repeat_length. lia. Qed.

End Fmt.

Module Filepath.

Definition Separator : ascii := "/"%char.
Definition IsPathSeparator (c : ascii) : bool := Ascii.eqb c Separator.

(** The [lazybuf] writer of [Clean]: [buf] holds the bytes written so far
    at positions below [w] (the lazy copy of the path is an allocation
    detail: reading the buffer or the path gives the same bytes). *)
Record lazybuf := { w : nat; buf : bytes }.

(** [out.append(c)]: write [c] at position [w]. *)
Definition append (out : lazybuf) (c : ascii) : lazybuf :=
  {| w := S (w out); buf := firstn (w out) (buf out) ++ c :: skipn (S (w out)) (buf out) |}.

Definition index (out : lazybuf) (i : nat) : ascii := nth i (buf out) zero.

(** [for out.w > dotdot && !os.IsPathSeparator(out.index(out.w)) { out.w-- }] *)
Fixpoint backtrack (fuel : nat) (dotdot : nat) (out : lazybuf) : lazybuf :=
  match fuel with
  | O => out
  | S f =>
    if (dotdot <? w out)%nat && negb (IsPathSeparator (index out (w out)))
    then backtrack f dotdot {| w := pred (w out); buf := buf out |}
    else out
  end.

(** [for ; r < n && !os.IsPathSeparator(path[r]); r++ { out.append(path[r]) }] *)
Fixpoint copy_elem (fuel : nat) (path : bytes) (r : nat) (out : lazybuf) : nat * lazybuf :=
  match fuel with
  | O => (r, out)
  | S f =>
    if (r <? List.length path)%nat && negb (IsPathSeparator (nth r path zero))
    then copy_elem f path (S r) (append out (nth r path zero))
    else (r, out)
  end.

(** The main loop of [Clean]: [r] reads, [out] writes, [dotdot] is the
    position up to which [..] elements cannot be cancelled. *)
Fixpoint clean_loop (fuel : nat) (path : bytes) (rooted : bool)
    (r dotdot : nat) (out : lazybuf) : lazybuf :=
  match fuel with
  | O => out
  | S f =>
    let n := List.length path in
    if (r <? n)%nat then
      let c := nth r path zero in
      if IsPathSeparator c then
        (* empty path element *)
        clean_loop f path rooted (S r) dotdot out
      else if Ascii.eqb c "."%char && ((S r =? n)%nat || IsPathSeparator (nth (S r) path zero)) then
        (* . element *)
        clean_loop f path rooted (S r) dotdot out
      else if Ascii.eqb c "."%char && Ascii.eqb (nth (S r) path zero) "."%char &&
              ((S (S r) =? n)%nat || IsPathSeparator (nth (S (S r)) path zero)) then
        (* .. element: remove to last separator *)
        if (dotdot <? w out)%nat then
          clean_loop f path rooted (S (S r)) dotdot
            (backtrack (w out) dotdot {| w := pred (w out); buf := buf out |})
        else if negb rooted then
          (* cannot backtrack, but not rooted, so append .. element *)
          let out := if (0 <? w out)%nat then append out Separator else out in
          let out := append (append out "."%char) "."%char in
          clean_loop f path rooted (S (S r)) (w out) out
        else clean_loop f path rooted (S (S r)) dotdot out
      else
        (* real path element: add slash if needed, then copy element *)
        let out := if (rooted && negb (w out =? 1)%nat) || (negb rooted && negb (w out =? 0)%nat)
                   then append out Separator else out in
        let (r', out) := copy_elem n path r out in
        clean_loop f path rooted r' dotdot out
    else out
  end.

(** [filepath.Clean] on Unix (no volume name; [FromSlash] is the identity). *)
Definition Clean (path : bytes) : bytes :=
  match path with
  | [] => ["."%char]
  | c :: _ =>
    let rooted := IsPathSeparator c in
    let out0 := {| w := 0; buf := [] |} in
    let '(r, dotdot, out) := if rooted then (1%nat, 1%nat, append out0 Separator) else (0%nat, 0%nat, out0) in
    let out := clean_loop (List.length path) path rooted r dotdot out in
    let out := if (w out =? 0)%nat then append out "."%char else out in
    firstn (w out) (buf out)
  end.

(** [filepath.Join(elem...)]: the non-empty tail from the first non-empty
    element, joined by the separator and cleaned; [""] when all are empty. *)
Fixpoint Join (elem : list bytes) : bytes :=
  match elem with
  | [] => []
  | e :: rest => match e with [] => Join rest | _ => Clean (GoString.Join elem [Separator]) end
  end.

(** ** [Clean] leaves a canonical relative path unchanged *)

(** A path element that [Clean] keeps: non-empty, no separator, neither
    [.] nor [..]. *)
Definition elem_ok (e : bytes) : Prop :=
  e <> [] /\ ~ In Separator e /\ e <> ["."%char] /\ e <> ["."%char; "."%char].

(** What follows an element: the end of the path or a separator. *)
Definition elem_end (R : bytes) : Prop := R = [] \/ exists R', R = Separator :: R'.

Lemma append_end out c :
  List.length (buf out) = w out -> append out c = {| w := S (w out); buf := buf out ++ [c] |}.
Proof.
  destruct out as [k b]; cbn [w buf]. intros <-. unfold append; cbn [w buf].
  rewrite firstn_all, skipn_all2 by lia. reflexivity.
Qed.

Lemma IsPathSeparator_true c : IsPathSeparator c = true <-> c = Separator.
Proof. unfold IsPathSeparator. apply Ascii.eqb_eq. Qed.

(** The copy loop appends a whole element. *)
Lemma copy_elem_seg e : forall pre R fuel b,
  ~ In Separator e -> elem_end R -> (List.length e <= fuel)%nat ->
  copy_elem fuel (pre ++ e ++ R) (List.length pre) {| w := List.length b; buf := b |} =
  (List.length (pre ++ e), {| w := List.length (b ++ e); buf := b ++ e |}).
Proof.
  induction e as [|c e IH]; intros pre R fuel b He HR Hf.
  - rewrite !app_nil_r. destruct fuel as [|f]; [reflexivity|]. cbn [copy_elem app].
    rewrite <- (Nat.add_0_r (List.length pre)) at 2. rewrite app_nth2_plus.
    destruct HR as [->|[R' ->]]; rewrite ?app_nil_r, ?length_app.
    + rewrite Nat.ltb_irrefl. reflexivity.
    + cbn. rewrite andb_false_r. reflexivity.
  - destruct fuel as [|f]; [cbn in Hf; lia|]. cbn [copy_elem].
    assert (Hc : c <> Separator) by (intros ->; apply He; left; reflexivity).
    cbn [app]. rewrite nth_middle.
    replace (List.length pre <? List.length (pre ++ c :: e ++ R))%nat with true
      by (symmetry; apply Nat.ltb_lt; rewrite length_app; cbn; lia).
    replace (IsPathSeparator c) with false
      by (symmetry; apply not_true_iff_false; rewrite IsPathSeparator_true; exact Hc).
    cbn [andb negb]. rewrite append_end by reflexivity. cbn [w buf].
    replace (pre ++ c :: e ++ R) with ((pre ++ [c]) ++ e ++ R) by (rewrite <- app_assoc; reflexivity).
    replace (S (List.length pre)) with (List.length (pre ++ [c])) by (rewrite length_app; cbn; lia).
    replace (S (List.length b)) with (List.length (b ++ [c])) by (rewrite length_app; cbn; lia).
    rewrite IH; [|intros H; apply He; right; exact H|exact HR|cbn in Hf; lia].
    rewrite <- !app_assoc. reflexivity.
Qed.

Lemma IsPathSeparator_false c : c <> Separator -> IsPathSeparator c = false.
Proof. intros H. apply not_true_iff_false. rewrite IsPathSeparator_true. exact H. Qed.

Lemma nth_after (pre l : bytes) k : nth (List.length pre + k) (pre ++ l) zero = nth k l zero.
Proof. apply app_nth2_plus. Qed.

(** One real element: neither [.] nor [..] applies, and the element is
    copied after a separator unless it is the first. *)
Lemma clean_elem f path pre e R out :
  path = pre ++ e ++ R -> elem_ok e -> elem_end R -> List.length (buf out) = w out ->
  (if (w out =? 0)%nat then buf out else buf out ++ [Separator]) = pre ->
  clean_loop (S f) path false (List.length pre) 0 out =
  clean_loop f path false (List.length (pre ++ e)) 0
    {| w := List.length (pre ++ e); buf := pre ++ e |}.
Proof.
  intros -> (Hne & Hsep & Hdot & Hdd) HR Hw Hpre.
  destruct e as [|c e1]; [congruence|].
  assert (Hc : c <> Separator) by (intros ->; apply Hsep; left; reflexivity).
  cbn [clean_loop app]. rewrite nth_middle, IsPathSeparator_false by exact Hc.
  replace (List.length pre <? List.length (pre ++ c :: e1 ++ R))%nat with true
    by (symmetry; apply Nat.ltb_lt; rewrite !length_app; cbn; lia).
  (* neither [.] nor [..] *)
  replace (Ascii.eqb c "."%char && _) with false.
  2:{ destruct (Ascii.eqb_spec c "."%char) as [->|]; [|reflexivity]. destruct e1 as [|x e2]; [congruence|].
      rewrite <- Nat.add_1_r, nth_after. cbn [nth app]. rewrite IsPathSeparator_false
        by (intros ->; apply Hsep; right; left; reflexivity).
      replace (List.length pre + 1 =? _)%nat with false
        by (symmetry; apply Nat.eqb_neq; rewrite !length_app; cbn; lia). reflexivity. }
  replace (Ascii.eqb c "."%char && _ && _) with false.
  2:{ destruct (Ascii.eqb_spec c "."%char) as [->|]; [|reflexivity]. destruct e1 as [|x e2]; [congruence|].
      rewrite <- Nat.add_1_r, nth_after. cbn [nth app].
      destruct (Ascii.eqb_spec x "."%char) as [->|]; [|reflexivity]. destruct e2 as [|y e3]; [congruence|].
      replace (S (List.length pre + 1)) with (List.length pre + 2)%nat by lia.
      rewrite nth_after. cbn [nth app]. rewrite IsPathSeparator_false
        by (intros ->; apply Hsep; right; right; left; reflexivity).
      replace (List.length pre + 2 =? _)%nat with false
        by (symmetry; apply Nat.eqb_neq; rewrite !length_app; cbn; lia). reflexivity. }
  destruct out as [k b]; cbn [w buf] in *. subst k. cbn [andb orb negb].
  destruct (List.length b =? 0)%nat eqn:Hk; cbn [negb].
  - subst pre. rewrite (copy_elem_seg (c :: e1) b R _ b); [reflexivity|auto|exact HR|len_lia].
  - rewrite append_end by reflexivity. cbn [w buf]. rewrite <- Hpre.
    replace (S (List.length b)) with (List.length (b ++ [Separator])) by (rewrite length_app; cbn; lia).
    rewrite (copy_elem_seg (c :: e1) (b ++ [Separator]) R _ (b ++ [Separator]));
      [reflexivity|auto|exact HR|len_lia].
Qed.

(** The elements after the first, each behind a separator. *)
Definition sep_elems (es : list bytes) : bytes := List.concat (map (fun e => Separator :: e) es).

Lemma Join_sep_elems e es : GoString.Join (e :: es) [Separator] = e ++ sep_elems es.
Proof.
  revert e. induction es as [|e' es IH]; intros e; [cbn; rewrite app_nil_r; reflexivity|].
  change (GoString.Join (e :: e' :: es) [Separator]) with (e ++ [Separator] ++ GoString.Join (e' :: es) [Separator]).
  rewrite IH. reflexivity.
Qed.

Lemma sep_elems_end es : elem_end (sep_elems es).
Proof. destruct es as [|e es]; [left; reflexivity|right; eexists; reflexivity]. Qed.

(** The loop over the remaining elements, each behind one separator. *)
Lemma clean_elems es : forall pre fuel,
  pre <> [] -> Forall elem_ok es -> (2 * List.length es <= fuel)%nat ->
  clean_loop fuel (pre ++ sep_elems es) false (List.length pre) 0
    {| w := List.length pre; buf := pre |} =
  {| w := List.length (pre ++ sep_elems es); buf := pre ++ sep_elems es |}.
Proof.
  induction es as [|e es IH]; intros pre fuel Hpre Hes Hf.
  - rewrite app_nil_r. destruct fuel; cbn [clean_loop]; [reflexivity|].
    rewrite Nat.ltb_irrefl. reflexivity.
  - inversion Hes as [|? ? He Hes']; subst.
    destruct fuel as [|f']; cbn [List.length] in Hf; [lia|].
    cbn [clean_loop sep_elems map List.concat app].
    rewrite nth_middle. cbn [IsPathSeparator Separator Ascii.eqb].
    replace (List.length pre <? _)%nat with true by (symmetry; apply Nat.ltb_lt; len_lia).
    cbn [Ascii.eqb Bool.eqb andb]. fold (sep_elems es).
    replace (pre ++ Separator :: e ++ sep_elems es) with ((pre ++ [Separator]) ++ e ++ sep_elems es)
      by (rewrite <- app_assoc; reflexivity).
    replace (S (List.length pre)) with (List.length (pre ++ [Separator])) by len_lia.
    destruct f' as [|f]; [lia|].
    rewrite (clean_elem f _ (pre ++ [Separator]) e (sep_elems es)
               {| w := List.length pre; buf := pre |}); cbn [w buf];
      [|reflexivity|exact He|apply sep_elems_end|reflexivity|].
    2:{ destruct pre; [congruence|reflexivity]. }
    rewrite (app_assoc (pre ++ [Separator]) e).
    apply IH; [destruct pre; [congruence|discriminate]|exact Hes'|lia].
Qed.

(** [filepath.Clean] leaves unchanged a relative path made of real
    elements joined by single separators. *)
Theorem Clean_canonical e es :
  Forall elem_ok (e :: es) ->
  Clean (GoString.Join (e :: es) [Separator]) = GoString.Join (e :: es) [Separator].
Proof.
  intros Hes. inversion Hes as [|? ? He Hes']; subst. rewrite Join_sep_elems.
  destruct He as (Hne & Hsep & Hd1 & Hd2).
  destruct e as [|c e1]; [congruence|].
  assert (Hc : c <> Separator) by (intros ->; apply Hsep; left; reflexivity).
  unfold Clean. cbn [app]. rewrite IsPathSeparator_false by exact Hc.
  set (path := c :: e1 ++ sep_elems es).
  assert (Hlen : List.length path = S (List.length e1 + List.length (sep_elems es))) by (subst path; len_lia).
  rewrite Hlen.
  rewrite (clean_elem _ path [] (c :: e1) (sep_elems es) {| w := 0; buf := [] |});
    [|reflexivity|split; auto|apply sep_elems_end|reflexivity|reflexivity].
  cbn [app]. fold path.
  assert (Hsz : (2 * List.length es <= List.length (sep_elems es))%nat).
  { clear -Hes'. induction Hes' as [|e es (Hn & _) _ IH]; [cbn; lia|].
    cbn [sep_elems map List.concat]. fold (sep_elems es). rewrite length_app.
    destruct e; [congruence|]. cbn [List.length]. lia. }
  subst path. rewrite (clean_elems es (c :: e1)); [|discriminate|exact Hes'|lia].
  cbn [w buf]. rewrite (proj2 (Nat.eqb_neq (List.length ((c :: e1) ++ sep_elems es)) 0)) by (cbn; lia).
  apply firstn_all.
Qed.

End Filepath.
