(* ===== verification/FloatFmt.v ===== *)
(** * [float64] values of the report rows and Go's [%.2f]

    The report rows hold [float64] values of any sign, including the
    infinities and NaN.  [f64] is such a value: [Finite neg m e] is
    [(-1)^neg * m * 2^e] (with [m >= 0]; [-0] is [Finite true 0 _]).
    [fmul64] is IEEE-754 multiplication with round-to-nearest-even, gradual
    underflow (the last place never below [2^-1074]) and overflow to an
    infinity, used for [successRate*100].

    [fmt_f2] is [fmt]'s [%.2f]: [strconv] formats the exact decimal value
    of the float rounded at the second decimal, half to even, with a minus
    sign whenever the sign bit is set; infinities print as [+Inf]/[-Inf]
    and NaN as [NaN].  [fmt_f2_correct] reads the output back: it is the
    nearest multiple of [0.01], ties to the even one. *)

From Stdlib Require Import ZArith List String Ascii Lia Bool.
From S2P Require Import Prelude Float64 GoLib.
Import ListNotations Fmt.
Open Scope Z_scope.

Module F64.

Inductive f64 :=
| Finite (neg : bool) (m e : Z)
| Inf (neg : bool)
| NaN.

(** Round-to-nearest-even of the integer quotient [num / den]. *)
Definition rne (num den : Z) : Z :=
  let q := num / den in
  let r := num mod den in
  if 2 * r <? den then q
  else if den <? 2 * r then q + 1
  else if Z.even q then q else q + 1.

(** The [float64] nearest to [(-1)^neg * a / b] ([a >= 0], [b > 0]). *)
Definition round64 (neg : bool) (a b : Z) : f64 :=
  if a <=? 0 then Finite neg 0 0 else
  let e := Z.max (Float64.ilog2_ratio a b - 52) (-1074) in
  let q := rne (a * 2 ^ Z.max 0 (- e)) (b * 2 ^ Z.max 0 e) in
  if 2 ^ 1024 <=? q * 2 ^ e then Inf neg else Finite neg q e.

(** [x * y]. *)
Definition fmul64 (x y : f64) : f64 :=
  match x, y with
  | NaN, _ | _, NaN => NaN
  | Inf s1, Inf s2 => Inf (xorb s1 s2)
  | Inf s, Finite s' m _ | Finite s' m _, Inf s => if m =? 0 then NaN else Inf (xorb s s')
  | Finite s1 m1 e1, Finite s2 m2 e2 =>
    let e := e1 + e2 in
    round64 (xorb s1 s2) (m1 * m2 * 2 ^ Z.max 0 e) (2 ^ Z.max 0 (- e))
  end.

(** The representation invariant: a finite value has a non-negative
    significand. *)
Definition wf64 (x : f64) : Prop := match x with Finite _ m _ => 0 <= m | _ => True end.

(** The untyped constant [100] as a [float64]. *)
Definition hundred : f64 := Finite false 100 0.

(** [|x| * 100] rounded to an integer, half to even: the digits [%.2f]
    prints. *)
Definition hundredths (m e : Z) : Z := rne (m * 100 * 2 ^ Z.max 0 e) (2 ^ Z.max 0 (- e)).

(** [%.2f]. *)
Definition fmt_f2 (x : f64) : bytes :=
  match x with
  | NaN => gostr "NaN"
  | Inf neg => if neg then gostr "-Inf" else gostr "+Inf"
  | Finite neg m e =>
    let q := hundredths m e in
    (if neg then ["-"%char] else []) ++ utoa (q / 100) ++
    ["."%char; digit (q mod 100 / 10); digit (q mod 10)]
  end.

(** [%<w>.2f]. *)
Definition fmt_wf2 (w : nat) (x : f64) : bytes := pad w (fmt_f2 x).

(** A reader of [ddd.dd] and [-ddd.dd], in hundredths. *)
Definition read_unsigned2 (body : bytes) : option Z :=
  match rev body with
  | d2 :: d1 :: dot :: (_ :: _) as rint =>
    if Ascii.eqb dot "."%char then
      match read_digits (rev rint) 0, digit_val d1, digit_val d2 with
      | Some i, Some a, Some b => Some (100 * i + 10 * a + b)
      | _, _, _ => None
      end
    else None
  | _ => None
  end.

Definition read_fixed2 (s : bytes) : option Z :=
  match s with
  | [] => None
  | c :: s' => if Ascii.eqb c "-"%char then option_map Z.opp (read_unsigned2 s') else read_unsigned2 s
  end.

(** ** Rounding to nearest, ties to even *)

Lemma rne_spec num den :
  0 < den ->
  Z.abs (2 * num - 2 * rne num den * den) <= den /\
  (Z.abs (2 * num - 2 * rne num den * den) = den -> Z.even (rne num den) = true).
Proof.
  intros Hd. unfold rne.
  pose proof (Z.div_mod num den ltac:(lia)) as E. pose proof (Z.mod_pos_bound num den Hd) as R.
  set (q := num / den) in *. set (r := num mod den) in *.
  destruct (2 * r <? den) eqn:H1; bool_facts.
  - split; [|intros H]; rewrite E in *; [rewrite Z.abs_eq; nia|].
    rewrite Z.abs_eq in H; nia.
  - destruct (den <? 2 * r) eqn:H2; bool_facts.
    + split; [|intros H]; rewrite E in *; [rewrite Z.abs_neq; nia|].
      rewrite Z.abs_neq in H; nia.
    + assert (2 * r = den) by lia.
      destruct (Z.even q) eqn:Ev.
      * split; [|intros _; exact Ev]. rewrite E. rewrite Z.abs_eq; nia.
      * split; [rewrite E; rewrite Z.abs_neq; nia|intros _].
        rewrite Z.even_add, Ev. reflexivity.
Qed.

Lemma rne_nonneg num den : 0 <= num -> 0 < den -> 0 <= rne num den.
Proof.
  intros Hn Hd. unfold rne. pose proof (Z.div_pos num den Hn Hd).
  destruct (2 * (num mod den) <? den), (den <? 2 * (num mod den)), (Z.even (num / den)); lia.
Qed.

Lemma round64_wf neg a b : 0 < b -> wf64 (round64 neg a b).
Proof.
  intros Hb. unfold round64. destruct (a <=? 0) eqn:Ha; [cbn; lia|]. bool_facts. cbv zeta.
  set (e := Z.max (Float64.ilog2_ratio a b - 52) (-1074)).
  assert (0 <= rne (a * 2 ^ Z.max 0 (- e)) (b * 2 ^ Z.max 0 e)).
  { apply rne_nonneg; [pose proof (Z.pow_nonneg 2 (Z.max 0 (- e))); nia|].
    pose proof (Z.pow_pos_nonneg 2 (Z.max 0 e)); nia. }
  destruct (_ <=? _); cbn; auto.
Qed.

(** [fmul64] keeps the representation invariant. *)
Lemma fmul64_wf x y : wf64 x -> wf64 y -> wf64 (fmul64 x y).
Proof.
  destruct x as [s1 m1 e1|s1|], y as [s2 m2 e2|s2|]; cbn [fmul64 wf64]; intros Hx Hy; auto;
    try (destruct (_ =? 0); exact I).
  apply round64_wf, Z.pow_pos_nonneg; lia.
Qed.

(** ** Reading back [%.2f] *)

Lemma utoa_head u : 0 <= u -> exists c ds, utoa u = c :: ds /\ Ascii.eqb c "-"%char = false.
Proof.
  intros Hu. destruct (utoa_read u Hu) as [N R].
  pose proof (read_digits_some (utoa u) 0 ltac:(congruence)) as D.
  destruct (utoa u) as [|c ds]; [congruence|]. exists c, ds. split; [reflexivity|].
  inversion D as [|? ? Dc _]; subst.
  destruct (Ascii.eqb_spec c "-"%char) as [->|]; [vm_compute in Dc; congruence|reflexivity].
Qed.

Lemma read_unsigned2_digits q :
  0 <= q ->
  read_unsigned2 (utoa (q / 100) ++ ["."%char; digit (q mod 100 / 10); digit (q mod 10)]) = Some q.
Proof.
  intros Hq. destruct (utoa_read (q / 100) ltac:(apply Z.div_pos; lia)) as [N R].
  unfold read_unsigned2. rewrite rev_app_distr. cbn [rev app].
  destruct (rev (utoa (q / 100))) as [|x l] eqn:Er.
  { apply (f_equal (@rev _)) in Er. rewrite rev_involutive in Er. cbn in Er. congruence. }
  rewrite <- Er, rev_involutive, R. cbn [Ascii.eqb Bool.eqb andb].
  rewrite (digit_val_digit (q mod 100 / 10)) by zdiv_lia.
  rewrite (digit_val_digit (q mod 10)) by zdiv_lia. f_equal. zdiv_lia.
Qed.

(** C37: [%.2f] of a finite value prints, in hundredths, the integer nearest
    to [100 * |x|] (ties to the even one), with the sign of [x]. *)
Theorem fmt_f2_correct neg m e :
  0 <= m ->
  exists q, read_fixed2 (fmt_f2 (Finite neg m e)) = Some (if neg then - q else q) /\
    let N := m * 100 * 2 ^ Z.max 0 e in let D := 2 ^ Z.max 0 (- e) in
    Z.abs (2 * N - 2 * q * D) <= D /\ (Z.abs (2 * N - 2 * q * D) = D -> Z.even q = true).
Proof.
  intros Hm. exists (hundredths m e).
  assert (HD : 0 < 2 ^ Z.max 0 (- e)) by (apply Z.pow_pos_nonneg; lia).
  assert (HN : 0 <= m * 100 * 2 ^ Z.max 0 e) by (pose proof (Z.pow_nonneg 2 (Z.max 0 e)); nia).
  split; [|apply rne_spec; exact HD].
  pose proof (rne_nonneg _ _ HN HD) as Hq. fold (hundredths m e) in Hq.
  pose proof (read_unsigned2_digits _ Hq) as R.
  cbn [fmt_f2]. destruct neg; cbn [app].
  - cbn [read_fixed2 Ascii.eqb Bool.eqb andb]. rewrite R. reflexivity.
  - destruct (utoa_head (hundredths m e / 100)) as (c & ds & E & Hc); [apply Z.div_pos; lia|].
    rewrite E in R |- *. cbn [app read_fixed2] in R |- *. rewrite Hc. exact R.
Qed.

Lemma fmt_f2_correct_witness :
  0 <= 1 /\
  exists q, read_fixed2 (fmt_f2 (Finite false 1 (-3))) = Some (if false then - q else q) /\
    let N := 1 * 100 * 2 ^ Z.max 0 (-3) in let D := 2 ^ Z.max 0 (- -3) in
    Z.abs (2 * N - 2 * q * D) <= D /\ (Z.abs (2 * N - 2 * q * D) = D -> Z.even q = true).
Proof. split; [lia|]. apply (fmt_f2_correct false 1 (-3)). lia. Defined.

End F64.
