(* ===== verification/GoTime.v ===== *)
(** * [time.Time] as [output.go] uses it

    A [Time] is an instant, [sec] seconds and [nsec] nanoseconds after
    1970-01-01T00:00:00Z, with the offset in seconds east of UTC of its
    location at that instant.  [UTC] sets the offset to 0.  The calendar
    fields of the layouts are those of the proleptic Gregorian calendar
    at the instant shifted by the offset ([civil_from_days]).

    The reporter formats times with three layouts:
    [2006-01-02_15-04-05] (archive file names), [2006-01-02 15:04:05 UTC+0]
    (the banner, [UTC+0] being literal text) and RFC 3339 with
    nanoseconds, in the strict form [MarshalJSON] uses, which rejects years
    outside [0, 9999].

    [days_from_civil_from_days] shows that the calendar conversion is a
    bijection from days to dates; it is checked by evaluation over the 146097
    days of one 400-year cycle and carried to every day by periodicity. *)

From Stdlib Require Import ZArith List String Ascii Lia Bool.
From S2P Require Import Prelude GoLib.
Import ListNotations Fmt.
Open Scope Z_scope.

Module GoTime.

Record Time := { sec : Z; nsec : Z; offset : Z }.

(** [t.UTC()] *)
Definition UTC (t : Time) : Time := {| sec := sec t; nsec := nsec t; offset := 0 |}.

(** The date of a day number (days since 1970-01-01), as (year, month, day). *)
Definition civil_from_days (z : Z) : Z * Z * Z :=
  let z := z + 719468 in
  let era := z / 146097 in
  let doe := z mod 146097 in
  let yoe := (doe - doe / 1460 + doe / 36524 - doe / 146096) / 365 in
  let doy := doe - (365 * yoe + yoe / 4 - yoe / 100) in
  let mp := (5 * doy + 2) / 153 in
  let d := doy - (153 * mp + 2) / 5 + 1 in
  let m := if mp <? 10 then mp + 3 else mp - 9 in
  (yoe + era * 400 + (if m <=? 2 then 1 else 0), m, d).

(** The day number of a date. *)
Definition days_from_civil (y m d : Z) : Z :=
  let y := if m <=? 2 then y - 1 else y in
  let era := y / 400 in
  let yoe := y mod 400 in
  let doy := (153 * (if 2 <? m then m - 3 else m + 9) + 2) / 5 + d - 1 in
  let doe := yoe * 365 + yoe / 4 - yoe / 100 + doy in
  era * 146097 + doe - 719468.

(** The calendar fields of a time in its location:
    (year, month, day, hour, minute, second). *)
Definition fields (t : Time) : Z * Z * Z * Z * Z * Z :=
  let local := sec t + offset t in
  let days := local / 86400 in
  let sod := local mod 86400 in
  let '(y, mo, d) := civil_from_days days in
  (y, mo, d, sod / 3600, sod mod 3600 / 60, sod mod 60).

(** [appendInt(b, x, width)]: the decimal digits of [x], zero-padded on the
    left to [width] digits, after a minus sign when [x < 0]. *)
Definition appendInt (x : Z) (width : nat) : bytes :=
  let u := utoa (Z.abs x) in
  (if x <? 0 then ["-"%char] else []) ++ repeat "0"%char (width - List.length u) ++ u.

(** [t.Format("2006-01-02_15-04-05")] *)
Definition format_file_time (t : Time) : bytes :=
  let '(y, mo, d, h, mi, s) := fields t in
  appendInt y 4 ++ gostr "-" ++ appendInt mo 2 ++ gostr "-" ++ appendInt d 2 ++ gostr "_" ++
  appendInt h 2 ++ gostr "-" ++ appendInt mi 2 ++ gostr "-" ++ appendInt s 2.

(** [t.Format("2006-01-02 15:04:05 UTC+0")] *)
Definition format_banner_time (t : Time) : bytes :=
  let '(y, mo, d, h, mi, s) := fields t in
  appendInt y 4 ++ gostr "-" ++ appendInt mo 2 ++ gostr "-" ++ appendInt d 2 ++ gostr " " ++
  appendInt h 2 ++ gostr ":" ++ appendInt mi 2 ++ gostr ":" ++ appendInt s 2 ++ gostr " UTC+0".

(** The nanoseconds of RFC3339Nano ([.999999999]): nothing when 0,
    otherwise a dot and the nine digits without their trailing zeros. *)
Fixpoint drop_trailing_zeros (l : bytes) : bytes :=
  match l with
  | [] => []
  | c :: l' =>
    match drop_trailing_zeros l' with
    | [] => if Ascii.eqb c "0"%char then [] else [c]
    | r => c :: r
    end
  end.

Definition append_nano (ns : Z) : bytes :=
  if ns =? 0 then [] else "."%char :: drop_trailing_zeros (appendInt ns 9).

(** The zone of RFC 3339: [Z] at offset 0, otherwise the offset in whole
    minutes ([offset / 60], Go's division truncating toward zero) as
    [+hh:mm], or [-hh:mm] when that count of minutes is negative. *)
Definition append_zone (off : Z) : bytes :=
  if off =? 0 then gostr "Z" else
  let zone := Z.quot off 60 in
  let m := Z.abs zone in
  (if zone <? 0 then gostr "-" else gostr "+") ++ appendInt (m / 60) 2 ++ gostr ":" ++ appendInt (m mod 60) 2.

(** [t.appendStrictRFC3339] with nanoseconds: the error of a year that is
    not written with exactly four digits, and of a zone of 24 hours or more
    (the seconds of an offset are dropped, as [appendFormatRFC3339] does). *)
Definition appendStrictRFC3339 (t : Time) : result bytes bytes :=
  let '(y, mo, d, h, mi, s) := fields t in
  if negb ((0 <=? y) && (y <=? 9999)) then Err (gostr "year outside of range [0,9999]")
  else if negb (Z.abs (offset t) <? 86400) then
    Err (gostr "timezone hour outside of range [0,23]")
  else Ok (appendInt y 4 ++ gostr "-" ++ appendInt mo 2 ++ gostr "-" ++ appendInt d 2 ++ gostr "T" ++
           appendInt h 2 ++ gostr ":" ++ appendInt mi 2 ++ gostr ":" ++ appendInt s 2 ++
           append_nano (nsec t) ++ append_zone (offset t)).

(** [t.MarshalJSON()]: the quoted RFC 3339 text. *)
Definition MarshalJSON (t : Time) : result bytes bytes :=
  match appendStrictRFC3339 t with
  | Ok b => Ok (["034"%char] ++ b ++ ["034"%char])
  | Err e => Err (gostr "Time.MarshalJSON: " ++ e)
  end.

(** ** The calendar is a bijection *)

(** The date within a 400-year cycle of its day [doe] in the cycle (the
    cycle starting on 0000-03-01): the year in the cycle, the month, the day. *)
Definition civil_of_doe (doe : Z) : Z * Z * Z :=
  let yoe := (doe - doe / 1460 + doe / 36524 - doe / 146096) / 365 in
  let doy := doe - (365 * yoe + yoe / 4 - yoe / 100) in
  let mp := (5 * doy + 2) / 153 in
  let d := doy - (153 * mp + 2) / 5 + 1 in
  let m := if mp <? 10 then mp + 3 else mp - 9 in
  (yoe, m, d).

(** The day in the cycle of a year in the cycle, a month and a day. *)
Definition doe_of (yoe m d : Z) : Z :=
  yoe * 365 + yoe / 4 - yoe / 100 + ((153 * (if 2 <? m then m - 3 else m + 9) + 2) / 5 + d - 1).

Definition doe_ok (doe : Z) : bool :=
  let '(yoe, m, d) := civil_of_doe doe in
  (0 <=? yoe) && (yoe <? 400) && (1 <=? m) && (1 <=? d) && (doe_of yoe m d =? doe).

Fixpoint check_from (n : nat) (doe : Z) : bool :=
  match n with O => true | S n' => doe_ok doe && check_from n' (doe + 1) end.

Lemma check_from_spec n : forall doe0 doe,
  check_from n doe0 = true -> doe0 <= doe < doe0 + Z.of_nat n -> doe_ok doe = true.
Proof.
  induction n as [|n IH]; intros doe0 doe H Hd; [lia|].
  cbn [check_from] in H. apply andb_prop in H as [H1 H2].
  destruct (Z.eq_dec doe doe0) as [->|Hne]; [exact H1|]. apply (IH (doe0 + 1)); [exact H2|lia].
Qed.

(** Evaluated over the 146097 days of a cycle. *)
Lemma cycle_ok : check_from (Z.to_nat 146097) 0 = true.
Proof. vm_compute. reflexivity. Qed.

Lemma doe_ok_all doe : 0 <= doe < 146097 -> doe_ok doe = true.
Proof. intros H. apply (check_from_spec (Z.to_nat 146097) 0); [exact cycle_ok|rewrite Z2Nat.id; lia]. Qed.

Lemma civil_from_days_cycle z :
  civil_from_days z =
  let z := z + 719468 in
  let '(yoe, m, d) := civil_of_doe (z mod 146097) in
  (yoe + z / 146097 * 400 + (if m <=? 2 then 1 else 0), m, d).
Proof. reflexivity. Qed.

(** The day number of the date of a day is that day. *)
Lemma days_from_civil_from_days z :
  let '(y, m, d) := civil_from_days z in days_from_civil y m d = z.
Proof.
  rewrite civil_from_days_cycle. cbv zeta.
  pose proof (doe_ok_all ((z + 719468) mod 146097) (Z.mod_pos_bound _ 146097 ltac:(lia))) as H.
  unfold doe_ok in H. destruct (civil_of_doe ((z + 719468) mod 146097)) as [[yoe m] d].
  andb_split. bool_facts.
  unfold days_from_civil, doe_of in *.
  set (era := (z + 719468) / 146097) in *.
  assert (Ey : (if m <=? 2 then yoe + era * 400 + (if m <=? 2 then 1 else 0) - 1
                else yoe + era * 400 + (if m <=? 2 then 1 else 0)) = yoe + era * 400)
    by (destruct (m <=? 2); lia).
  rewrite Ey. clear Ey.
  replace ((yoe + era * 400) / 400) with era by zdiv_lia.
  replace ((yoe + era * 400) mod 400) with yoe by zdiv_lia.
  pose proof (Z.div_mod (z + 719468) 146097 ltac:(lia)). fold era in H. lia.
Qed.

(** ** File names keep the second *)

(** The reader of [YYYY-MM-DD_hh-mm-ss]. *)
Definition parse_file_time (s : bytes) : option (Z * Z * Z * Z * Z * Z) :=
  match Strings.Split1 s "_"%char with
  | [date; clock] =>
    match Strings.Split1 date "-"%char, Strings.Split1 clock "-"%char with
    | [y; mo; d], [h; mi; se] =>
      match read_digits y 0, read_digits mo 0, read_digits d 0,
            read_digits h 0, read_digits mi 0, read_digits se 0 with
      | Some y, Some mo, Some d, Some h, Some mi, Some se => Some (y, mo, d, h, mi, se)
      | _, _, _, _, _, _ => None
      end
    | _, _ => None
    end
  | _ => None
  end.

Lemma appendInt_digits x w :
  0 <= x -> read_digits (appendInt x w) 0 = Some x /\ Forall (fun c => digit_val c <> None) (appendInt x w).
Proof.
  intros Hx. unfold appendInt. replace (x <? 0) with false by (symmetry; apply Z.ltb_ge; lia).
  rewrite Z.abs_eq by lia. cbn [app]. rewrite read_digits_zeros.
  destruct (utoa_read x Hx) as [_ R]. split; [exact R|].
  apply Forall_app; split.
  - apply Forall_forall. intros c Hc. apply repeat_spec in Hc. subst. discriminate.
  - apply (read_digits_some _ 0). congruence.
Qed.

Lemma appendInt_chars x w : Forall num_char (appendInt x w).
Proof.
  unfold appendInt. apply Forall_app; split; [destruct (x <? 0); repeat constructor|].
  apply Forall_app; split; [|apply utoa_chars; lia].
  apply Forall_forall. intros c Hc. apply repeat_spec in Hc. subst. right. discriminate.
Qed.

(** The file-name stamp has no path separator. *)
Lemma format_file_time_no_slash t : ~ In "/"%char (format_file_time t).
Proof.
  unfold format_file_time. destruct (fields t) as [[[[[y mo] d] h] mi] se].
  repeat first [apply num_no_slash, appendInt_chars|(cbn; intuition discriminate)|apply not_in_app].
Qed.

Lemma digits_no c l : Forall (fun c => digit_val c <> None) l -> digit_val c = None -> ~ In c l.
Proof. intros H Hc Hin. rewrite Forall_forall in H. exact (H c Hin Hc). Qed.

Lemma fields_nonneg t :
  let '(y, mo, d, h, mi, s) := fields t in 0 <= mo /\ 0 <= d /\ 0 <= h /\ 0 <= mi /\ 0 <= s.
Proof.
  unfold fields. rewrite civil_from_days_cycle. cbv zeta.
  pose proof (doe_ok_all (((sec t + offset t) / 86400 + 719468) mod 146097)
    (Z.mod_pos_bound _ 146097 ltac:(lia))) as H.
  unfold doe_ok in H. destruct (civil_of_doe _) as [[yoe m] d].
  andb_split. bool_facts. pose proof (Z.mod_pos_bound (sec t + offset t) 86400 ltac:(lia)).
  repeat split; zdiv_lia.
Qed.

Lemma format_file_time_read t :
  let '(y, mo, d, h, mi, s) := fields t in 0 <= y ->
  parse_file_time (format_file_time t) = Some (fields t).
Proof.
  pose proof (fields_nonneg t) as N. unfold format_file_time.
  destruct (fields t) as [[[[[y mo] d] h] mi] se]. intros Hy. destruct N as (N1 & N2 & N3 & N4 & N5).
  destruct (appendInt_digits y 4 Hy) as [Ry Dy]. destruct (appendInt_digits mo 2 N1) as [Rmo Dmo].
  destruct (appendInt_digits d 2 N2) as [Rd Dd]. destruct (appendInt_digits h 2 N3) as [Rh Dh].
  destruct (appendInt_digits mi 2 N4) as [Rmi Dmi]. destruct (appendInt_digits se 2 N5) as [Rse Dse].
  set (date := appendInt y 4 ++ "-"%char :: appendInt mo 2 ++ "-"%char :: appendInt d 2).
  set (clock := appendInt h 2 ++ "-"%char :: appendInt mi 2 ++ "-"%char :: appendInt se 2).
  replace (appendInt y 4 ++ gostr "-" ++ appendInt mo 2 ++ gostr "-" ++ appendInt d 2 ++ gostr "_" ++
           appendInt h 2 ++ gostr "-" ++ appendInt mi 2 ++ gostr "-" ++ appendInt se 2)
    with (date ++ "_"%char :: clock)
    by (subst date clock; unfold gostr; cbn [list_ascii_of_string]; app_norm; reflexivity).
  assert (Hm : digit_val "-"%char = None) by reflexivity.
  assert (Hu : digit_val "_"%char = None) by reflexivity.
  assert (Nd : forall D x, Forall (fun c => digit_val c <> None) D -> digit_val x = None -> ~ In x D)
    by (intros D x HD Hx; exact (digits_no x D HD Hx)).
  assert (Nd' : forall D x, In x D -> Forall (fun c => digit_val c <> None) D -> digit_val x = None -> False)
    by (intros D x Hin HD Hx; exact (digits_no x D HD Hx Hin)).
  assert (Hdate : forall x, digit_val x = None -> x <> "-"%char -> ~ In x date).
  { intros x Hx Hne Hin. subst date.
    repeat (rewrite in_app_iff in Hin || (cbn [In] in Hin)).
    repeat destruct Hin as [Hin|Hin]; first [congruence|exact (Nd' _ x Hin ltac:(assumption) Hx)]. }
  assert (Hclock : forall x, digit_val x = None -> x <> "-"%char -> ~ In x clock).
  { intros x Hx Hne Hin. subst clock.
    repeat (rewrite in_app_iff in Hin || (cbn [In] in Hin)).
    repeat destruct Hin as [Hin|Hin]; first [congruence|exact (Nd' _ x Hin ltac:(assumption) Hx)]. }
  unfold parse_file_time.
  rewrite (Strings.Split1_app date "_"%char clock) by (apply Hdate; [reflexivity|discriminate]).
  rewrite (Strings.Split1_none clock "_"%char) by (apply Hclock; [reflexivity|discriminate]).
  subst date clock. rewrite !Strings.Split1_app, !Strings.Split1_none by (apply Nd; auto).
  rewrite Ry, Rmo, Rd, Rh, Rmi, Rse. reflexivity.
Qed.

(** The year of a time in its location. *)
Definition year (t : Time) : Z := let '(y, _, _, _, _, _) := fields t in y.

(** Equal calendar fields are the same local second. *)
Lemma fields_inj t1 t2 : fields t1 = fields t2 -> sec t1 + offset t1 = sec t2 + offset t2.
Proof.
  unfold fields. set (l1 := sec t1 + offset t1). set (l2 := sec t2 + offset t2).
  pose proof (days_from_civil_from_days (l1 / 86400)) as D1.
  pose proof (days_from_civil_from_days (l2 / 86400)) as D2.
  destruct (civil_from_days (l1 / 86400)) as [[y1 m1] d1], (civil_from_days (l2 / 86400)) as [[y2 m2] d2].
  intros H. injection H as -> -> -> H1 H2 H3. rewrite D1 in D2.
  pose proof (Z.mod_pos_bound l1 86400 ltac:(lia)). pose proof (Z.mod_pos_bound l2 86400 ltac:(lia)).
  assert (l1 mod 86400 = l2 mod 86400) by zdiv_lia. zdiv_lia.
Qed.

(** Equal file-name stamps, in years from 0 on, are equal calendar fields:
    [format_file_time] is read back by [parse_file_time]. *)
Lemma format_file_time_fields t1 t2 :
  0 <= year t1 -> 0 <= year t2 -> format_file_time t1 = format_file_time t2 -> fields t1 = fields t2.
Proof.
  intros Hy1 Hy2 E. pose proof (format_file_time_read t1) as R1. pose proof (format_file_time_read t2) as R2.
  unfold year in *. destruct (fields t1) as [[[[[y1 mo1] d1] h1] mi1] s1] eqn:F1.
  destruct (fields t2) as [[[[[y2 mo2] d2] h2] mi2] s2] eqn:F2.
  specialize (R1 Hy1). specialize (R2 Hy2). rewrite E, R2 in R1. injection R1 as R. congruence.
Qed.

(** C34: two archive times in the same zone, in years from 0 on, whose
    file-name stamps [2006-01-02_15-04-05] are equal fall in the same
    second: the stamp keeps the second. *)
Theorem format_file_time_injective t1 t2 :
  offset t1 = offset t2 -> 0 <= year t1 -> 0 <= year t2 ->
  format_file_time t1 = format_file_time t2 -> sec t1 = sec t2.
Proof.
  intros Ho Hy1 Hy2 E. apply (format_file_time_fields t1 t2 Hy1 Hy2), fields_inj in E. lia.
Qed.

Lemma format_file_time_injective_witness :
  let t := {| sec := 1700000000; nsec := 0; offset := 3600 |} in
  offset t = offset t /\ 0 <= year t /\ 0 <= year t /\ format_file_time t = format_file_time t /\ sec t = sec t.
Proof.
  cbv zeta. assert (Hy : 0 <= year {| sec := 1700000000; nsec := 0; offset := 3600 |}) by (vm_compute; discriminate).
  split; [reflexivity|split; [exact Hy|split; [exact Hy|split; [reflexivity|]]]].
  apply format_file_time_injective; [reflexivity|exact Hy|exact Hy|reflexivity].
Defined.

End GoTime.
