(* ===== verification/Json.v ===== *)
(** * [encoding/json] as [SaveModelOutputs] uses it

    [json.MarshalIndent(data, "", "  ")] of a [map[string]interface{}]
    whose values are a string, ints, a [[]string] and a [time.Time].
    A [json] value is the encoder's view of such data: [JRaw] holds the
    output of a [Marshaler] ([time.Time.MarshalJSON]), [JNull] a nil slice.
    Maps are encoded with their keys sorted byte-wise ([sort_keys]), as
    [encoding/json] does.  Strings are escaped as [appendString] does with
    HTML escaping on ([escape_string]): the double quote and the backslash
    behind a backslash, the short escapes of backspace, form feed, newline,
    carriage return and tab, a [\u00XX] escape for the other control bytes
    and for the three HTML bytes, a [\ufffd] escape for each byte of invalid
    UTF-8, and [\u2028] and [\u2029] escapes for the two separators; the
    short escapes of backspace and form feed are those of Go 1.22 and
    later.  [indent] lays the compact encoding out the way [json.Indent]
    does: one element per line, two spaces per level, a colon and a space
    after keys, and empty arrays and objects kept on one line. *)

From Stdlib Require Import ZArith List String Ascii Lia Bool.
From stdpp Require Import gmap strings sorting.
From S2P Require Import Prelude GoString GoLib.
Import ListNotations Fmt Utf8.
Open Scope Z_scope.

Module Json.

Inductive json :=
| JNull
| JInt (n : Z)
| JString (s : bytes)
| JRaw (b : bytes)
| JArray (l : list json)
| JObject (kvs : list (bytes * json)).

Definition hex (n : Z) : ascii := nth (Z.to_nat n) (gostr "0123456789abcdef") "0"%char.

Definition quote : ascii := "034"%char.
Definition backslash : ascii := "\"%char.

(** The escape of one ASCII byte ([b < utf8.RuneSelf]). *)
Definition escape_byte (b : ascii) : bytes :=
  let v := byte_val b in
  if (v =? 34) || (v =? 92) then [backslash; b]
  else if v =? 8 then [backslash; "b"%char]
  else if v =? 12 then [backslash; "f"%char]
  else if v =? 10 then [backslash; "n"%char]
  else if v =? 13 then [backslash; "r"%char]
  else if v =? 9 then [backslash; "t"%char]
  else if (v <? 32) || (v =? 60) || (v =? 62) || (v =? 38) then
    [backslash; "u"%char; "0"%char; "0"%char; hex (v / 16); hex (v mod 16)]
  else [b].

(** The escape of one rune of the string, with the bytes that encode it. *)
Definition escape_rune (x : Z * bytes) : bytes :=
  let '(r, bs) := x in
  match bs with
  | [b] => if byte_val b <? RuneSelf then escape_byte b else gostr "\ufffd"
  | _ =>
    if r =? 8232 then gostr "\u2028"
    else if r =? 8233 then gostr "\u2029"
    else bs
  end.

(** [appendString(dst, s, true)] *)
Definition escape_string (s : bytes) : bytes :=
  quote :: List.concat (map escape_rune (runes s)) ++ [quote].

(** Byte-wise order of keys ([strings.Compare(a, b) <= 0]). *)
Fixpoint key_leb (a b : bytes) : bool :=
  match a, b with
  | [], _ => true
  | _ :: _, [] => false
  | x :: a', y :: b' =>
    if byte_val x <? byte_val y then true
    else if byte_val y <? byte_val x then false
    else key_leb a' b'
  end.

Definition key_le (x y : bytes * json) : Prop := key_leb (fst x) (fst y) = true.

#[export] Instance key_le_dec : RelDecision key_le.
Proof. intros x y. unfold key_le. apply _. Defined.

(** The entries of a map in the order [encoding/json] writes them. *)
Definition sort_keys (kvs : list (bytes * json)) : list (bytes * json) := merge_sort key_le kvs.

(** A [map[string]interface{}] value. *)
Definition of_map (m : gmap bytes json) : json := JObject (sort_keys (map_to_list m)).

Definition nl : bytes := ["010"%char].

Fixpoint spaces (depth : nat) : bytes :=
  match depth with O => [] | S d => " "%char :: " "%char :: spaces d end.

(** [MarshalIndent] with no prefix and two spaces of indent, at a nesting
    depth. *)
Fixpoint indent (depth : nat) (v : json) : bytes :=
  match v with
  | JNull => gostr "null"
  | JInt n => fmt_d n
  | JString s => escape_string s
  | JRaw b => b
  | JArray [] => gostr "[]"
  | JArray (x :: xs) =>
    "["%char :: nl ++ spaces (S depth) ++ indent (S depth) x ++
    List.concat (map (fun y => ","%char :: nl ++ spaces (S depth) ++ indent (S depth) y) xs) ++
    nl ++ spaces depth ++ ["]"%char]
  | JObject [] => gostr "{}"
  | JObject ((k, x) :: kvs) =>
    "{"%char :: nl ++ spaces (S depth) ++ escape_string k ++ gostr ": " ++ indent (S depth) x ++
    List.concat (map (fun '(k', y) => ","%char :: nl ++ spaces (S depth) ++ escape_string k' ++
                                      gostr ": " ++ indent (S depth) y) kvs) ++
    nl ++ spaces depth ++ ["}"%char]
  end.

Definition MarshalIndent (v : json) : bytes := indent 0 v.

End Json.
