(* ===== verification/JsonRead.v ===== *)
(** * Reading the archive's strings back

    [SaveModelOutputs] stores the model's answers as JSON strings
    ([Json.escape_string]).  This file holds the reader a consumer of the
    archive uses, [encoding/json]'s [unquote] (with [utf8.EncodeRune] for
    the runes it decodes), and proves that it gives back every string the
    encoder wrote, each invalid byte replaced by U+FFFD; a valid UTF-8
    string comes back unchanged. *)

From Stdlib Require Import ZArith List String Ascii Lia Bool.
From S2P Require Import Prelude GoString GoLib Json.
Import ListNotations Utf8.
Open Scope Z_scope.

Module Utf8Enc.

(** [byte(z)]: the low eight bits. *)
Definition to_byte (z : Z) : ascii := ascii_of_N (Z.to_N (z mod 256)).

Definition MaxRune : Z := 1114111.
Definition surrogateMin : Z := 55296.
Definition surrogateMax : Z := 57343.

(** The three bytes of a rune up to [rune3Max]. *)
Definition enc3 (r : Z) : bytes :=
  [to_byte (Z.lor 224 ((Z.shiftr r 12) mod 256));
   to_byte (Z.lor 128 (Z.land ((Z.shiftr r 6) mod 256) maskx));
   to_byte (Z.lor 128 (Z.land (r mod 256) maskx))].

(** [utf8.EncodeRune], [r] being a Go [rune] and [i] its [uint32]. *)
Definition EncodeRune (r : Z) : bytes :=
  let i := r mod 2 ^ 32 in
  if i <=? 127 then [to_byte r]
  else if i <=? 2047 then
    [to_byte (Z.lor 192 ((Z.shiftr r 6) mod 256));
     to_byte (Z.lor 128 (Z.land (r mod 256) maskx))]
  else if (MaxRune <? i) || ((surrogateMin <=? i) && (i <=? surrogateMax)) then enc3 RuneError
  else if i <=? 65535 then enc3 r
  else
    [to_byte (Z.lor 240 ((Z.shiftr r 18) mod 256));
     to_byte (Z.lor 128 (Z.land ((Z.shiftr r 12) mod 256) maskx));
     to_byte (Z.lor 128 (Z.land ((Z.shiftr r 6) mod 256) maskx));
     to_byte (Z.lor 128 (Z.land (r mod 256) maskx))].

(** ** Bits as arithmetic *)

Lemma land_disjoint t v k :
  0 <= k -> t mod 2 ^ k = 0 -> 0 <= v < 2 ^ k -> Z.land t v = 0.
Proof.
  intros Hk Ht Hv. apply Z.bits_inj'. intros i Hi. rewrite Z.land_spec, Z.bits_0.
  destruct (Z.lt_ge_cases i k) as [L|L].
  - rewrite <- (Z.mod_pow2_bits_low t k i L), Ht, Z.bits_0. reflexivity.
  - destruct (Z.eq_dec v 0) as [->|Nz]; [rewrite Z.bits_0; apply andb_false_r|].
    rewrite (Z.bits_above_log2 v i); [apply andb_false_r|lia|].
    enough (Z.log2 v < k) by lia. apply Z.log2_lt_pow2; lia.
Qed.

(** A tag with its low [k] bits clear, or'ed with a value below [2^k]. *)
Lemma lor_add t v k :
  0 <= k -> t mod 2 ^ k = 0 -> 0 <= v < 2 ^ k -> Z.lor t v = t + v.
Proof.
  intros Hk Ht Hv. pose proof (land_disjoint t v k Hk Ht Hv) as D.
  rewrite <- Z.lxor_lor by exact D. symmetry. apply Z.add_nocarry_lxor. exact D.
Qed.

Lemma to_byte_val b : to_byte (byte_val b) = b.
Proof.
  unfold to_byte. pose proof (byte_val_range b) as R.
  rewrite Z.mod_small by exact R. unfold byte_val. rewrite N2Z.id. apply ascii_N_embedding.
Qed.

Lemma byte_val_to_byte z : 0 <= z < 256 -> byte_val (to_byte z) = z.
Proof.
  intros H. unfold to_byte, byte_val. rewrite Z.mod_small by exact H.
  rewrite N_ascii_embedding by (apply N2Z.inj_lt; rewrite Z2N.id; lia). lia.
Qed.

(** The bytes of a rune from their values. *)
Lemma to_byte_eq b z : byte_val b = z -> to_byte z = b.
Proof. intros <-. apply to_byte_val. Qed.

(** A continuation byte: [tx | byte(x) & maskx]. *)
Lemma cont_byte x : Z.lor 128 (Z.land (x mod 256) maskx) = 128 + x mod 64.
Proof.
  unfold maskx. change 63 with (Z.ones 6). rewrite Z.land_ones by lia.
  change (2 ^ 6) with 64. rewrite (lor_add 128 _ 6); cbn -[Z.modulo]; zdiv_lia.
Qed.

(** A leading byte: [t | byte(r >> k)], the tag [t] clearing the value's
    [j] bits. *)
Lemma lead_byte t r k j :
  0 <= r -> 0 <= j -> t mod 2 ^ j = 0 -> r / 2 ^ k < 2 ^ j -> 2 ^ j <= 256 -> 0 <= k ->
  Z.lor t ((Z.shiftr r k) mod 256) = t + r / 2 ^ k.
Proof.
  intros Hr Hj Ht Hv H256 Hk. rewrite Z.shiftr_div_pow2 by exact Hk.
  pose proof (Z.div_pos r (2 ^ k) Hr (Z.pow_pos_nonneg 2 k ltac:(lia) Hk)).
  rewrite Z.mod_small by lia. apply (lor_add _ _ j); lia.
Qed.

Lemma shr_cont r k : 0 <= k -> Z.lor 128 (Z.land ((Z.shiftr r k) mod 256) maskx) = 128 + (r / 2 ^ k) mod 64.
Proof. intros Hk. rewrite cont_byte, Z.shiftr_div_pow2 by exact Hk. reflexivity. Qed.

Ltac enc_bits :=
  repeat first
    [ rewrite shr_cont by lia
    | rewrite cont_byte
    | rewrite (lead_byte 192 _ 6 5) by (cbn; zdiv_lia)
    | rewrite (lead_byte 224 _ 12 4) by (cbn; zdiv_lia)
    | rewrite (lead_byte 240 _ 18 3) by (cbn; zdiv_lia) ];
  try change (2 ^ 6) with 64; try change (2 ^ 12) with 4096; try change (2 ^ 18) with 262144.

Lemma EncodeRune_1 r : 0 <= r <= 127 -> EncodeRune r = [to_byte r].
Proof.
  intros H. unfold EncodeRune. rewrite (Z.mod_small r) by (cbn; lia). split_cmp; lia || reflexivity.
Qed.

Lemma EncodeRune_2 r :
  128 <= r <= 2047 -> EncodeRune r = [to_byte (192 + r / 64); to_byte (128 + r mod 64)].
Proof.
  intros H. unfold EncodeRune, MaxRune. rewrite (Z.mod_small r) by (cbn; lia).
  split_cmp; try lia. enc_bits. reflexivity.
Qed.

Lemma EncodeRune_3 r :
  2048 <= r <= 65535 -> ~ (surrogateMin <= r <= surrogateMax) ->
  EncodeRune r = [to_byte (224 + r / 4096); to_byte (128 + (r / 64) mod 64); to_byte (128 + r mod 64)].
Proof.
  intros H S. unfold EncodeRune, enc3, MaxRune, surrogateMin, surrogateMax in *.
  rewrite (Z.mod_small r) by (cbn; lia).
  split_cmp; cbn [orb andb]; try lia; enc_bits; reflexivity.
Qed.

Lemma EncodeRune_4 r :
  65536 <= r <= MaxRune ->
  EncodeRune r = [to_byte (240 + r / 262144); to_byte (128 + (r / 4096) mod 64);
                  to_byte (128 + (r / 64) mod 64); to_byte (128 + r mod 64)].
Proof.
  intros H. unfold EncodeRune, MaxRune, surrogateMin, surrogateMax in *.
  rewrite (Z.mod_small r) by (cbn; lia).
  split_cmp; cbn [orb andb]; try lia; enc_bits; reflexivity.
Qed.

(** ** [EncodeRune] inverts [DecodeRuneInString] *)

Lemma first_2 x0 lo hi : first x0 = Some (2%nat, lo, hi) -> 194 <= x0 <= 223 /\ lo = 128 /\ hi = 191.
Proof. unfold first, locb, hicb. intros H. case_splits; inversion H; subst; bool_facts; lia. Qed.

Lemma first_3 x0 lo hi :
  first x0 = Some (3%nat, lo, hi) ->
  224 <= x0 <= 239 /\ (x0 = 224 -> lo = 160) /\ 128 <= lo /\ (x0 = 237 -> hi = 159) /\ hi <= 191.
Proof. unfold first, locb, hicb. intros H. case_splits; inversion H; subst; bool_facts; lia. Qed.

Lemma first_4 x0 lo hi :
  first x0 = Some (4%nat, lo, hi) ->
  240 <= x0 <= 244 /\ (x0 = 240 -> lo = 144) /\ 128 <= lo /\ (x0 = 244 -> hi = 143) /\ hi <= 191.
Proof. unfold first, locb, hicb. intros H. case_splits; inversion H; subst; bool_facts; lia. Qed.

Lemma out_of_false lo hi x : out_of lo hi x = false -> lo <= x <= hi.
Proof. unfold out_of. intros H. apply orb_false_iff in H as [A B]. bool_facts. lia. Qed.

Lemma low_bits x k : 0 <= k -> Z.land x (Z.ones k) = x mod 2 ^ k.
Proof. apply Z.land_ones. Qed.

(** The value of a continuation byte's payload. *)
Lemma cont_val x : 128 <= x <= 191 -> Z.land x maskx = x - 128.
Proof. intros H. unfold maskx. change 63 with (Z.ones 6). rewrite low_bits by lia. cbn. zdiv_lia. Qed.

(** [lor (shiftl a k) b = a * 2^k + b] for [b < 2^k]. *)
Lemma shl_lor a b k : 0 <= k -> 0 <= a -> 0 <= b < 2 ^ k -> Z.lor (Z.shiftl a k) b = a * 2 ^ k + b.
Proof.
  intros Hk Ha Hb. rewrite Z.shiftl_mul_pow2 by exact Hk.
  apply (lor_add _ _ k); [exact Hk| |exact Hb]. apply Z.mod_mul. apply Z.pow_nonzero; lia.
Qed.

Lemma lor_shl_add a b c k : 0 <= k -> (a + b) mod 2 ^ k = 0 -> 0 <= c < 2 ^ k ->
  Z.lor (a + b) c = a + b + c.
Proof. intros Hk H Hc. apply (lor_add _ _ k); assumption. Qed.

(** The bytes [firstn n s] of a rune of width [n]. *)
Lemma firstn_byte_at s n : (n <= List.length s)%nat -> (n <= 4)%nat ->
  firstn n s = map (fun i => to_byte (byte_at s i)) (seq 0 n).
Proof.
  intros H H4. unfold byte_at.
  destruct s as [|a [|b [|c [|d s]]]], n as [|[|[|[|[|n]]]]]; cbn [List.length] in *; try lia;
    cbn; rewrite ?to_byte_val; reflexivity.
Qed.

Ltac byte_ranges :=
  repeat match goal with
  | H : out_of _ _ _ = false |- _ => apply out_of_false in H
  | H : first _ = Some (2%nat, _, _) |- _ => apply first_2 in H
  | H : first _ = Some (3%nat, _, _) |- _ => apply first_3 in H
  | H : first _ = Some (4%nat, _, _) |- _ => apply first_4 in H
  end.

Lemma lead_val x m t j :
  Z.ones j = m -> 0 <= j -> t <= x < t + 2 ^ j -> t mod 2 ^ j = 0 -> Z.land x m = x - t.
Proof.
  intros <- Hj Hx Ht. rewrite low_bits by exact Hj.
  assert (Q : 0 < 2 ^ j) by (apply Z.pow_pos_nonneg; lia).
  pose proof (Z.div_mod t (2 ^ j) ltac:(lia)) as D. rewrite Ht in D.
  symmetry. apply (Z.mod_unique x (2 ^ j) (t / 2 ^ j)); lia.
Qed.

Lemma decode2_val x0 x1 :
  194 <= x0 <= 223 -> 128 <= x1 <= 191 ->
  Z.lor (Z.shiftl (Z.land x0 mask2) 6) (Z.land x1 maskx) = (x0 - 192) * 64 + (x1 - 128).
Proof.
  intros H0 H1. rewrite (lead_val x0 mask2 192 5), cont_val by (reflexivity || cbn; lia).
  rewrite shl_lor by (cbn; lia). reflexivity.
Qed.

Lemma decode3_val x0 x1 x2 :
  224 <= x0 <= 239 -> 128 <= x1 <= 191 -> 128 <= x2 <= 191 ->
  Z.lor (Z.lor (Z.shiftl (Z.land x0 mask3) 12) (Z.shiftl (Z.land x1 maskx) 6)) (Z.land x2 maskx) =
  (x0 - 224) * 4096 + (x1 - 128) * 64 + (x2 - 128).
Proof.
  intros H0 H1 H2. rewrite (lead_val x0 mask3 224 4), !cont_val by (reflexivity || cbn; lia).
  rewrite (Z.shiftl_mul_pow2 (x1 - 128)), shl_lor by (cbn; lia).
  rewrite (lor_add _ _ 6) by (cbn; zdiv_lia). reflexivity.
Qed.

Lemma decode4_val x0 x1 x2 x3 :
  240 <= x0 <= 244 -> 128 <= x1 <= 191 -> 128 <= x2 <= 191 -> 128 <= x3 <= 191 ->
  Z.lor (Z.lor (Z.lor (Z.shiftl (Z.land x0 mask4) 18) (Z.shiftl (Z.land x1 maskx) 12))
               (Z.shiftl (Z.land x2 maskx) 6)) (Z.land x3 maskx) =
  (x0 - 240) * 262144 + (x1 - 128) * 4096 + (x2 - 128) * 64 + (x3 - 128).
Proof.
  intros H0 H1 H2 H3. rewrite (lead_val x0 mask4 240 3), !cont_val by (reflexivity || cbn; lia).
  rewrite (Z.shiftl_mul_pow2 (x1 - 128)), shl_lor by (cbn; lia).
  rewrite (Z.shiftl_mul_pow2 (x2 - 128)) by lia.
  rewrite (lor_add _ ((x2 - 128) * 2 ^ 6) 12) by (cbn; zdiv_lia).
  rewrite (lor_add _ _ 6) by (cbn; zdiv_lia). reflexivity.
Qed.

Lemma byte_at_range s i : 0 <= byte_at s i < 256.
Proof. unfold byte_at. apply byte_val_range. Qed.

(** Case analysis on the two special leading bytes of a table entry. *)
Ltac special_leads x a b H1 H2 :=
  let Ea := fresh "Ea" in let Eb := fresh "Eb" in
  destruct (Z.eq_dec x a) as [Ea|Ea]; try specialize (H1 Ea);
  destruct (Z.eq_dec x b) as [Eb|Eb]; try specialize (H2 Eb).

Ltac fix_bytes := cbn [seq map]; repeat f_equal; zdiv_lia.

(** A rune of two bytes or more re-encodes to the bytes it was decoded
    from: [utf8.EncodeRune] inverts [utf8.DecodeRuneInString] on valid
    input. *)
Lemma EncodeRune_decode s r n :
  DecodeRuneInString s = (r, n) -> (2 <= n)%nat -> EncodeRune r = firstn n s.
Proof.
  unfold DecodeRuneInString. intros H Hn. cbv zeta in H.
  pose proof (byte_at_range s 0). pose proof (byte_at_range s 1).
  pose proof (byte_at_range s 2). pose proof (byte_at_range s 3).
  destruct (Nat.ltb_spec (List.length s) 1); [injection H as _ <-; lia|].
  destruct (byte_at s 0 <? RuneSelf); [injection H as _ <-; lia|].
  destruct (first (byte_at s 0)) as [[[sz lo] hi]|] eqn:F; [|injection H as _ <-; lia].
  pose proof (first_size _ _ _ _ F) as Sz.
  destruct (Nat.ltb_spec (List.length s) sz); [injection H as _ <-; lia|].
  destruct (out_of lo hi (byte_at s 1)) eqn:O1; [injection H as _ <-; lia|].
  apply out_of_false in O1.
  destruct (Nat.leb_spec sz 2).
  { replace sz with 2%nat in * by lia. apply first_2 in F. injection H as <- <-.
    rewrite decode2_val, EncodeRune_2, firstn_byte_at by lia. fix_bytes. }
  destruct (out_of locb hicb (byte_at s 2)) eqn:O2; [injection H as _ <-; lia|].
  apply out_of_false in O2. unfold locb, hicb in O2.
  destruct (Nat.leb_spec sz 3).
  { replace sz with 3%nat in * by lia. apply first_3 in F as (F0 & F1 & F2 & F3 & F4).
    injection H as <- <-. rewrite decode3_val by lia.
    special_leads (byte_at s 0) 224 237 F1 F3;
      rewrite EncodeRune_3, firstn_byte_at by (unfold surrogateMin, surrogateMax; lia); fix_bytes. }
  destruct (out_of locb hicb (byte_at s 3)) eqn:O3; [injection H as _ <-; lia|].
  apply out_of_false in O3. unfold locb, hicb in O3.
  replace sz with 4%nat in * by lia. apply first_4 in F as (F0 & F1 & F2 & F3 & F4).
  injection H as <- <-. rewrite decode4_val by lia.
  special_leads (byte_at s 0) 240 244 F1 F3;
    rewrite EncodeRune_4, firstn_byte_at by (unfold MaxRune; lia); fix_bytes.
Qed.

(** A rune decoded without error from the whole of [p] decodes the same
    when bytes follow it. *)
Lemma decode_extend p q r n :
  DecodeRuneInString p = (r, n) -> n = List.length p -> p <> [] ->
  ~ (r = RuneError /\ n = 1%nat) -> DecodeRuneInString (p ++ q) = (r, n).
Proof.
  intros H Hn Hp Hv. unfold DecodeRuneInString in *. cbv zeta in *.
  assert (L : (1 <= List.length p)%nat) by (destruct p; [congruence|cbn; lia]).
  rewrite length_app. rewrite !(byte_at_app_lt p q 0) by lia.
  destruct (Nat.ltb_spec (List.length p) 1); [lia|].
  destruct (Nat.ltb_spec (List.length p + List.length q) 1); [lia|].
  destruct (byte_at p 0 <? RuneSelf); [exact H|].
  destruct (first _) as [[[sz lo] hi]|] eqn:F; [|injection H as <- <-; tauto].
  pose proof (first_size _ _ _ _ F).
  destruct (Nat.ltb_spec (List.length p) sz); [injection H as <- <-; tauto|].
  destruct (Nat.ltb_spec (List.length p + List.length q) sz); [lia|].
  rewrite !(byte_at_app_lt p q 1) by lia.
  destruct (out_of lo hi _); [injection H as <- <-; tauto|].
  destruct (sz <=? 2)%nat eqn:S2; [exact H|]. apply Nat.leb_gt in S2.
  rewrite !(byte_at_app_lt p q 2) by lia.
  destruct (out_of locb hicb _); [injection H as <- <-; tauto|].
  destruct (sz <=? 3)%nat eqn:S3; [exact H|]. apply Nat.leb_gt in S3.
  rewrite !(byte_at_app_lt p q 3) by lia.
  destruct (out_of locb hicb _); [injection H as <- <-; tauto|exact H].
Qed.

(** A non-ASCII byte decoded alone is an error. *)
Lemma decode_width1 s r : DecodeRuneInString s = (r, 1%nat) -> RuneSelf <= byte_at s 0 -> r = RuneError.
Proof.
  unfold DecodeRuneInString. cbv zeta. intros H Hb.
  destruct (List.length s <? 1)%nat; [inversion H|].
  destruct (Z.ltb_spec (byte_at s 0) RuneSelf); [lia|].
  revert H. case_splits; intros H; inversion H; reflexivity.
Qed.

(** The leading byte of a rune of two bytes or more is not ASCII. *)
Lemma decode_lead s r n : DecodeRuneInString s = (r, n) -> (2 <= n)%nat -> RuneSelf <= byte_at s 0.
Proof.
  unfold DecodeRuneInString. cbv zeta. intros H Hn.
  destruct (List.length s <? 1)%nat; [inversion H; subst; lia|].
  destruct (Z.ltb_spec (byte_at s 0) RuneSelf); [inversion H; subst; lia|lia].
Qed.

(** Every byte of a rune of two bytes or more is outside ASCII. *)
Lemma decode_high s r n i :
  DecodeRuneInString s = (r, n) -> (2 <= n)%nat -> (i < n)%nat -> 128 <= byte_at s i.
Proof.
  intros H Hn Hi. pose proof (decode_lead s r n H Hn) as L0. unfold RuneSelf in L0.
  unfold DecodeRuneInString in H. cbv zeta in H.
  destruct (Nat.ltb_spec (List.length s) 1); [injection H as _ <-; lia|].
  destruct (byte_at s 0 <? RuneSelf); [injection H as _ <-; lia|].
  destruct (first (byte_at s 0)) as [[[sz lo] hi]|] eqn:F; [|injection H as _ <-; lia].
  assert (Lo : 128 <= lo) by (unfold first, locb in F; case_splits; inversion F; lia).
  destruct (List.length s <? sz)%nat; [injection H as _ <-; lia|].
  destruct (out_of lo hi (byte_at s 1)) eqn:O1; [injection H as _ <-; lia|].
  apply out_of_false in O1.
  destruct (sz <=? 2)%nat; [injection H as _ <-; destruct i as [|[|i]]; lia|].
  destruct (out_of locb hicb (byte_at s 2)) eqn:O2; [injection H as _ <-; lia|].
  apply out_of_false in O2. unfold locb in O2.
  destruct (sz <=? 3)%nat; [injection H as _ <-; destruct i as [|[|[|i]]]; lia|].
  destruct (out_of locb hicb (byte_at s 3)) eqn:O3; [injection H as _ <-; lia|].
  apply out_of_false in O3. unfold locb in O3.
  injection H as _ <-. destruct i as [|[|[|[|i]]]]; lia.
Qed.

End Utf8Enc.

Module JsonRead.
Import Utf8Enc Json.

(** The value of a hex digit of [getu4], either case. *)
Definition hex_val (c : ascii) : option Z :=
  let v := byte_val c in
  if (48 <=? v) && (v <=? 57) then Some (v - 48)
  else if (97 <=? v) && (v <=? 102) then Some (v - 97 + 10)
  else if (65 <=? v) && (v <=? 70) then Some (v - 65 + 10)
  else None.

(** [getu4]: the code unit of a [\uXXXX] escape at the head of [s], or -1. *)
Definition getu4 (s : bytes) : Z :=
  match s with
  | b :: u :: h1 :: h2 :: h3 :: h4 :: _ =>
    if negb (byte_val b =? 92) || negb (byte_val u =? 117) then -1 else
    match hex_val h1, hex_val h2, hex_val h3, hex_val h4 with
    | Some a, Some b, Some c, Some d => ((a * 16 + b) * 16 + c) * 16 + d
    | _, _, _, _ => -1
    end
  | _ => -1
  end.

Definition IsSurrogate (r : Z) : bool := (55296 <=? r) && (r <? 57344).

(** [utf16.DecodeRune]. *)
Definition DecodeRune16 (r1 r2 : Z) : Z :=
  if (55296 <=? r1) && (r1 <? 56320) && (56320 <=? r2) && (r2 <? 57344)
  then Z.lor (Z.shiftl (r1 - 55296) 10) (r2 - 56320) + 65536
  else RuneError.

(** The loop of [unquoteBytes] over the text between the quotes, [None]
    when it returns [ok = false]; the fuel is the byte length, and each
    iteration consumes at least one byte. *)
Fixpoint unquote_loop (fuel : nat) (s : bytes) : option bytes :=
  match fuel, s with
  | O, _ => Some []
  | _, [] => Some []
  | S f, c :: s' =>
    let v := byte_val c in
    if v =? 92 then
      match s' with
      | [] => None
      | e :: s'' =>
        let ev := byte_val e in
        let put b := option_map (cons b) (unquote_loop f s'') in
        if (ev =? 34) || (ev =? 92) || (ev =? 47) || (ev =? 39) then put e
        else if ev =? 98 then put "008"%char
        else if ev =? 102 then put "012"%char
        else if ev =? 110 then put "010"%char
        else if ev =? 114 then put "013"%char
        else if ev =? 116 then put "009"%char
        else if ev =? 117 then
          let rr := getu4 s in
          if rr <? 0 then None else
          let rest := skipn 6 s in
          if IsSurrogate rr then
            let dec := DecodeRune16 rr (getu4 rest) in
            if negb (dec =? RuneError) then
              option_map (app (EncodeRune dec)) (unquote_loop f (skipn 6 rest))
            else option_map (app (EncodeRune RuneError)) (unquote_loop f rest)
          else option_map (app (EncodeRune rr)) (unquote_loop f rest)
        else None
      end
    else if (v =? 34) || (v <? 32) then None
    else if v <? RuneSelf then option_map (cons c) (unquote_loop f s')
    else
      let (rr, size) := DecodeRuneInString s in
      option_map (app (EncodeRune rr)) (unquote_loop f (skipn size s))
  end.

(** [unquoteBytes] on a string literal with its quotes. *)
Definition unquote (s : bytes) : option bytes :=
  match s with
  | q :: s' =>
    if (byte_val q =? 34) && (1 <=? List.length s')%nat &&
       (byte_val (last s' zero) =? 34)
    then unquote_loop (List.length s') (removelast s')
    else None
  | [] => None
  end.

(** [string([]rune(s))]: the runes of [s] encoded again, each invalid
    byte becoming U+FFFD. *)
Definition coerce_utf8 (s : bytes) : bytes := List.concat (map (fun x => EncodeRune (fst x)) (runes s)).

(** [utf8.ValidString]: no byte decodes as an error of width 1. *)
Definition ValidString (s : bytes) : bool :=
  forallb (fun x => negb ((fst x =? RuneError) && (List.length (snd x) =? 1)%nat)) (runes s).

(** ** The reader inverts the encoder *)

Lemma byte_val_inj a b : byte_val a = byte_val b -> a = b.
Proof. intros H. rewrite <- (to_byte_val a), <- (to_byte_val b), H. reflexivity. Qed.

(** Evaluate the values of byte literals. *)
Ltac lit_eval :=
  repeat match goal with
  | |- context [byte_val (Ascii ?a ?b ?c ?d ?e ?f ?g ?h)] =>
    let v := eval vm_compute in (byte_val (Ascii a b c d e f g h)) in
    change (byte_val (Ascii a b c d e f g h)) with v
  end.

Lemma hex_val_hex d : 0 <= d < 16 -> hex_val (hex d) = Some d.
Proof.
  intros H.
  assert (E : d = 0 \/ d = 1 \/ d = 2 \/ d = 3 \/ d = 4 \/ d = 5 \/ d = 6 \/ d = 7 \/ d = 8 \/
              d = 9 \/ d = 10 \/ d = 11 \/ d = 12 \/ d = 13 \/ d = 14 \/ d = 15) by lia.
  repeat destruct E as [->|E]; try reflexivity. subst. reflexivity.
Qed.

(** One iteration of the loop at a [\uXXXX] escape of a code point that is
    not a surrogate. *)
Lemma loop_u4 f h1 h2 h3 h4 rest :
  let rr := getu4 [backslash; "u"%char; h1; h2; h3; h4] in
  0 <= rr -> IsSurrogate rr = false ->
  unquote_loop (S f) ([backslash; "u"%char; h1; h2; h3; h4] ++ rest) =
  option_map (app (EncodeRune rr)) (unquote_loop f rest).
Proof.
  cbv zeta. intros H S. cbn [app unquote_loop].
  change (getu4 (backslash :: "u"%char :: h1 :: h2 :: h3 :: h4 :: rest))
    with (getu4 [backslash; "u"%char; h1; h2; h3; h4]).
  set (rr := getu4 [backslash; "u"%char; h1; h2; h3; h4]) in *. clearbody rr.
  unfold backslash. lit_eval. cbn -[EncodeRune IsSurrogate].
  destruct (Z.ltb_spec rr 0); [lia|]. rewrite S. reflexivity.
Qed.

(** The [\u00XX] escape of a byte reads back as its value. *)
Lemma getu4_u00 v : 0 <= v < 256 ->
  getu4 [backslash; "u"%char; "0"%char; "0"%char; hex (v / 16); hex (v mod 16)] = v.
Proof.
  intros H. unfold getu4. rewrite !hex_val_hex by zdiv_lia.
  replace (hex_val "0"%char) with (Some 0) by reflexivity.
  unfold backslash. lit_eval. cbn -[Z.div Z.modulo]. zdiv_lia.
Qed.

(** One iteration of the loop on a byte or an escape of the encoder. *)
Ltac loop_step Hv :=
  cbn [app unquote_loop]; unfold backslash; lit_eval; rewrite <- ?Hv;
  cbn -[EncodeRune IsSurrogate getu4 byte_val unquote_loop DecodeRuneInString].

(** A short escape ([\b], [\f], [\n], [\r], [\t]) reads back as its byte. *)
Ltac short Hv := loop_step Hv; do 2 f_equal; apply byte_val_inj; rewrite <- Hv; lit_eval; lia.

(** The escape of an ASCII byte reads back as the byte. *)
Lemma loop_ascii f b rest :
  byte_val b < RuneSelf ->
  unquote_loop (S f) (escape_byte b ++ rest) = option_map (cons b) (unquote_loop f rest).
Proof.
  intros H. pose proof (byte_val_range b) as R. unfold escape_byte, RuneSelf in *.
  remember (byte_val b) as v eqn:Hv.
  destruct ((v =? 34) || (v =? 92)) eqn:E1.
  { loop_step Hv. rewrite E1. reflexivity. }
  apply orb_false_iff in E1 as [E1 E1'].
  destruct (Z.eqb_spec v 8); [short Hv|].
  destruct (Z.eqb_spec v 12); [short Hv|].
  destruct (Z.eqb_spec v 10); [short Hv|].
  destruct (Z.eqb_spec v 13); [short Hv|].
  destruct (Z.eqb_spec v 9); [short Hv|].
  destruct ((v <? 32) || (v =? 60) || (v =? 62) || (v =? 38)) eqn:E7.
  { rewrite loop_u4; rewrite getu4_u00 by lia; [|lia|unfold IsSurrogate; split_cmp; lia].
    rewrite EncodeRune_1, Hv, to_byte_val by lia. reflexivity. }
  repeat rewrite orb_false_iff in E7. destruct E7 as [[[E7 E8] E9] E10].
  loop_step Hv. rewrite E1', E1, E7. cbn. unfold RuneSelf. destruct (Z.ltb_spec v 128); [reflexivity|lia].
Qed.

Lemma decode_ascii b s : byte_val b < RuneSelf -> DecodeRuneInString (b :: s) = (byte_val b, 1%nat).
Proof.
  intros H. unfold DecodeRuneInString. cbv zeta. cbn [List.length Nat.ltb Nat.leb].
  unfold byte_at at 1 2. cbn [nth]. destruct (Z.ltb_spec (byte_val b) RuneSelf); [reflexivity|lia].
Qed.

(** A [\uXXXX] escape written by the encoder, read back. *)
Lemma loop_lit f h1 h2 h3 h4 rest r :
  getu4 [backslash; "u"%char; h1; h2; h3; h4] = r -> 0 <= r -> IsSurrogate r = false ->
  unquote_loop (S f) ([backslash; "u"%char; h1; h2; h3; h4] ++ rest) =
  option_map (app (EncodeRune r)) (unquote_loop f rest).
Proof. intros <- H S. apply loop_u4; assumption. Qed.

(** One rune of the string, escaped by [escape_rune], reads back as the
    rune encoded again. *)
Lemma loop_rune f s rest :
  s <> [] ->
  let (r, n) := DecodeRuneInString s in
  unquote_loop (S f) (escape_rune (r, firstn n s) ++ rest) =
  option_map (app (EncodeRune r)) (unquote_loop f rest).
Proof.
  intros Hs. destruct (DecodeRuneInString s) as [r n] eqn:D.
  pose proof (decode_width s) as W. rewrite D in W. cbn [snd] in W.
  destruct W as [[? _]|[_ W]]; [congruence|].
  destruct s as [|b s']; [congruence|].
  destruct (Nat.eq_dec n 1) as [->|N1].
  - change (firstn 1 (b :: s')) with [b]. cbn [escape_rune].
    destruct (Z.ltb_spec (byte_val b) RuneSelf) as [A|A].
    + rewrite decode_ascii in D by exact A. injection D as <-.
      rewrite loop_ascii by exact A. rewrite EncodeRune_1, to_byte_val.
      * reflexivity.
      * pose proof (byte_val_range b). unfold RuneSelf in A. lia.
    + apply decode_width1 in D as ->; [|exact A].
      apply loop_lit; [reflexivity|cbv; discriminate|reflexivity].
  - assert (Lb : List.length (firstn n (b :: s')) = n) by (rewrite length_firstn; lia).
    assert (Db : DecodeRuneInString (firstn n (b :: s')) = (r, n)).
    { apply (decode_app_prefix _ (skipn n (b :: s'))); [rewrite firstn_skipn; exact D|lia]. }
    assert (Lead : RuneSelf <= byte_at (firstn n (b :: s')) 0)
      by (apply (decode_lead _ r n); [exact Db|lia]).
    destruct (firstn n (b :: s')) as [|b0 [|b1 tl]] eqn:Ebs; cbn [List.length] in Lb; try lia.
    cbn [escape_rune].
    destruct (Z.eqb_spec r 8232); [subst r; apply loop_lit; [reflexivity|cbv; discriminate|reflexivity]|].
    destruct (Z.eqb_spec r 8233); [subst r; apply loop_lit; [reflexivity|cbv; discriminate|reflexivity]|].
    unfold byte_at in Lead. cbn [nth] in Lead. unfold RuneSelf in Lead.
    cbn [app unquote_loop].
    destruct (Z.eqb_spec (byte_val b0) 92); [lia|].
    destruct (Z.eqb_spec (byte_val b0) 34); [lia|].
    destruct (Z.ltb_spec (byte_val b0) 32); [lia|].
    unfold RuneSelf. destruct (Z.ltb_spec (byte_val b0) 128); [lia|]. cbn [orb].
    change (b0 :: b1 :: tl ++ rest) with ((b0 :: b1 :: tl) ++ rest).
    rewrite (decode_extend _ rest r n Db) by ((cbn [List.length]; lia) || discriminate || (intros [_ ?]; lia)).
    rewrite skipn_app, skipn_all2 by (cbn [List.length]; lia).
    replace (n - _)%nat with 0%nat by (cbn [List.length]; lia). reflexivity.
Qed.

Lemma escape_rune_nonempty x : snd x <> [] -> escape_rune x <> [].
Proof.
  destruct x as [r [|b [|b' bs]]]; cbn [snd escape_rune]; [congruence| |];
    unfold escape_byte; intros _; case_splits; discriminate.
Qed.

(** The runes of a non-empty string: the first, then those of the rest. *)
Lemma runes_first s :
  s <> [] -> exists r n, DecodeRuneInString s = (r, n) /\
    runes s = (r, firstn n s) :: runes (skipn n s).
Proof.
  intros Hs. exists (fst (DecodeRuneInString s)), (snd (DecodeRuneInString s)).
  split; [destruct (DecodeRuneInString s); reflexivity|]. apply runes_cons. exact Hs.
Qed.

Lemma coerce_utf8_first s r n :
  DecodeRuneInString s = (r, n) -> runes s = (r, firstn n s) :: runes (skipn n s) ->
  coerce_utf8 s = EncodeRune r ++ coerce_utf8 (skipn n s).
Proof. intros _ E. unfold coerce_utf8. rewrite E. reflexivity. Qed.

(** The loop reads the escaped runes of [s] back as [string([]rune(s))]. *)
Lemma loop_escape s f :
  (List.length (List.concat (map escape_rune (runes s))) <= f)%nat ->
  unquote_loop f (List.concat (map escape_rune (runes s))) = Some (coerce_utf8 s).
Proof.
  revert f. induction s as [|s Hs IH] using runes_ind; intros f Hf.
  { rewrite runes_nil. destruct f; reflexivity. }
  destruct (runes_first s Hs) as (r & n & D & E).
  rewrite (coerce_utf8_first s r n D E). rewrite D in IH. cbn [snd] in IH.
  rewrite E in *. cbn [map List.concat] in *.
  assert (NE : escape_rune (r, firstn n s) <> []).
  { apply escape_rune_nonempty. cbn [snd].
    pose proof (decode_width s) as W. rewrite D in W. cbn [snd] in W.
    destruct W as [[? _]|[_ W]]; [congruence|].
    destruct s as [|b s']; [congruence|]. destruct n as [|n]; [lia|]. discriminate. }
  assert (NE' : (1 <= List.length (escape_rune (r, firstn n s)))%nat)
    by (destruct (escape_rune _); [congruence|cbn; lia]).
  rewrite length_app in Hf. destruct f as [|f]; [lia|].
  pose proof (loop_rune f s (List.concat (map escape_rune (runes (skipn n s)))) Hs) as L.
  rewrite D in L. rewrite L, IH; [reflexivity|lia].
Qed.

(** A valid string is its own [string([]rune(s))]. *)
Lemma coerce_utf8_valid s : ValidString s = true -> coerce_utf8 s = s.
Proof.
  induction s as [|s Hs IH] using runes_ind; [reflexivity|].
  destruct (runes_first s Hs) as (r & n & D & E).
  unfold ValidString. rewrite E. cbn [forallb fst snd]. intros V. apply andb_prop in V as [V0 V].
  rewrite (coerce_utf8_first s r n D E). rewrite D in IH. cbn [snd] in IH.
  rewrite IH by exact V. rewrite <- (firstn_skipn n s) at 2. f_equal.
  pose proof (decode_width s) as W. rewrite D in W. cbn [snd] in W.
  destruct s as [|b s']; [congruence|]. destruct W as [[? _]|[_ W]]; [congruence|].
  destruct (Nat.eq_dec n 1) as [->|N1]; [|apply (EncodeRune_decode _ r n D); lia].
  change (firstn 1 (b :: s')) with [b].
  destruct (Z.ltb_spec (byte_val b) RuneSelf) as [A|A].
  - rewrite decode_ascii in D by exact A. injection D as <-.
    pose proof (byte_val_range b). unfold RuneSelf in A.
    rewrite EncodeRune_1, to_byte_val by lia. reflexivity.
  - apply decode_width1 in D as ->; [|exact A]. cbn in V0. discriminate.
Qed.

Lemma unquote_escape s : unquote (escape_string s) = Some (coerce_utf8 s).
Proof.
  unfold unquote, escape_string, quote.
  pose proof (loop_escape s) as L. set (body := List.concat (map escape_rune (runes s))) in *. clearbody body.
  rewrite last_last, removelast_last, length_app. cbn [List.length].
  lit_eval. cbn [Z.eqb Pos.eqb andb].
  replace (1 <=? List.length body + 1)%nat with true by (symmetry; apply Nat.leb_le; lia).
  apply L. lia.
Qed.

(** C29: round trip.  [encoding/json] reads every string the archive's
    encoder wrote back as the string itself when it is valid UTF-8: the
    model's outputs and its name are archived faithfully, HTML bytes,
    quotes, control bytes and line separators included. *)
Theorem escape_string_roundtrip s : ValidString s = true -> unquote (escape_string s) = Some s.
Proof. intros V. rewrite unquote_escape, coerce_utf8_valid by exact V. reflexivity. Qed.

(** C30: the encoder is lossy on invalid UTF-8: a string reads back as
    [string([]rune(s))], each byte that does not start a valid rune
    replaced by the three bytes of U+FFFD. *)
Theorem escape_string_coerce s : unquote (escape_string s) = Some (coerce_utf8 s).
Proof. apply unquote_escape. Qed.

(** ** Witnesses *)

(** A model answer with a quote, a backslash, HTML bytes, a newline, a tab,
    an accented letter and a line separator. *)
Definition answer : bytes :=
  gostr "say " ++ [quote] ++ gostr "<b>&</b>" ++ [quote] ++ gostr " \" ++
  ["010"%char; "009"%char; "195"%char; "169"%char; "226"%char; "128"%char; "168"%char].

Lemma escape_string_roundtrip_witness : ValidString answer = true /\ unquote (escape_string answer) = Some answer.
Proof.
  assert (V : ValidString answer = true) by (vm_compute; reflexivity).
  split; [exact V|apply escape_string_roundtrip; exact V].
Defined.

End JsonRead.
