(* ===== verification/JsonDoc.v ===== *)
(** * Reading a JSON document back

    A reader of the documents [Json.MarshalIndent] writes: white space,
    [null], integers, strings (scanned to their closing quote, then
    unquoted by [JsonRead.unquote_loop]), arrays and objects.  It is the
    reference the archive is checked against; the code never reads JSON.
    [parse_indent] shows that it reads every indented value back, each
    string as [string([]rune(s))]; the archive round trip is in
    [Archive]. *)

From Stdlib Require Import ZArith List String Ascii Lia Bool.
From S2P Require Import Prelude GoString GoLib Json JsonRead.
Import ListNotations Utf8 Fmt Json JsonRead Utf8Enc.
Open Scope Z_scope.

Module JsonDoc.

Definition is_ws (c : ascii) : bool :=
  let v := byte_val c in (v =? 32) || (v =? 9) || (v =? 10) || (v =? 13).

Fixpoint skip_ws (s : bytes) : bytes :=
  match s with
  | c :: s' => if is_ws c then skip_ws s' else s
  | [] => []
  end.

(** The text of a string literal up to its closing quote, escapes kept. *)
Fixpoint scan_str (s : bytes) : option (bytes * bytes) :=
  match s with
  | [] => None
  | c :: s' =>
    if byte_val c =? 34 then Some ([], s')
    else if byte_val c =? 92 then
      match s' with
      | [] => None
      | e :: s'' => option_map (fun '(b, r) => (c :: e :: b, r)) (scan_str s'')
      end
    else option_map (fun '(b, r) => (c :: b, r)) (scan_str s')
  end.

(** A string literal after its opening quote, unquoted. *)
Definition read_str (s : bytes) : option (bytes * bytes) :=
  match scan_str s with
  | Some (b, r) => option_map (fun v => (v, r)) (unquote_loop (List.length b) b)
  | None => None
  end.

Definition num_byte (c : ascii) : bool :=
  Ascii.eqb c "-"%char || match digit_val c with Some _ => true | None => false end.

(** The longest prefix of number bytes. *)
Fixpoint span_num (s : bytes) : bytes * bytes :=
  match s with
  | c :: s' => if num_byte c then let (a, r) := span_num s' in (c :: a, r) else ([], s)
  | [] => ([], [])
  end.

Definition read_num (s : bytes) : option (json * bytes) :=
  let (a, r) := span_num s in option_map (fun n => (JInt n, r)) (read_int a).

(** A value, the elements of an array after its [[], the members of an
    object after its [{]; the fuel bounds the nesting and the number of
    elements. *)
Fixpoint parse_value (fuel : nat) (s : bytes) {struct fuel} : option (json * bytes) :=
  match fuel with
  | O => None
  | S f =>
    match skip_ws s with
    | [] => None
    | c :: s' =>
      let v := byte_val c in
      if v =? 110 then
        match s' with
        | u :: l :: l' :: r =>
          if Ascii.eqb u "u"%char && Ascii.eqb l "l"%char && Ascii.eqb l' "l"%char
          then Some (JNull, r) else None
        | _ => None
        end
      else if v =? 34 then option_map (fun '(b, r) => (JString b, r)) (read_str s')
      else if v =? 91 then
        match skip_ws s' with
        | c' :: r => if byte_val c' =? 93 then Some (JArray [], r)
                     else option_map (fun '(l, r) => (JArray l, r)) (parse_elems f s')
        | [] => None
        end
      else if v =? 123 then
        match skip_ws s' with
        | c' :: r => if byte_val c' =? 125 then Some (JObject [], r)
                     else option_map (fun '(l, r) => (JObject l, r)) (parse_members f s')
        | [] => None
        end
      else read_num (c :: s')
    end
  end
with parse_elems (fuel : nat) (s : bytes) {struct fuel} : option (list json * bytes) :=
  match fuel with
  | O => None
  | S f =>
    match parse_value f s with
    | None => None
    | Some (x, r) =>
      match skip_ws r with
      | c :: r' =>
        if byte_val c =? 44 then option_map (fun '(l, r) => (x :: l, r)) (parse_elems f r')
        else if byte_val c =? 93 then Some ([x], r')
        else None
      | [] => None
      end
    end
  end
with parse_members (fuel : nat) (s : bytes) {struct fuel} : option (list (bytes * json) * bytes) :=
  match fuel with
  | O => None
  | S f =>
    match skip_ws s with
    | c :: s' =>
      if byte_val c =? 34 then
        match read_str s' with
        | None => None
        | Some (k, r) =>
          match skip_ws r with
          | c' :: r' =>
            if byte_val c' =? 58 then
              match parse_value f r' with
              | None => None
              | Some (x, r'') =>
                match skip_ws r'' with
                | d :: r3 =>
                  if byte_val d =? 44 then option_map (fun '(l, r) => ((k, x) :: l, r)) (parse_members f r3)
                  else if byte_val d =? 125 then Some ([(k, x)], r3)
                  else None
                | [] => None
                end
              end
            else None
          | [] => None
          end
        end
      else None
    | [] => None
    end
  end.

(** A whole document: one value, then only white space. *)
Definition parse (s : bytes) : option json :=
  match parse_value (List.length s) s with
  | Some (v, r) => match skip_ws r with [] => Some v | _ :: _ => None end
  | None => None
  end.

(** ** White space *)

Lemma skip_ws_app w s : forallb is_ws w = true -> skip_ws (w ++ s) = skip_ws s.
Proof.
  induction w as [|c w IH]; [reflexivity|]. cbn. intros H. apply andb_prop in H as [-> H]. auto.
Qed.

Lemma skip_ws_stop c s : is_ws c = false -> skip_ws (c :: s) = c :: s.
Proof. cbn. intros ->. reflexivity. Qed.

Lemma ws_spaces k : forallb is_ws (spaces k) = true.
Proof. induction k as [|k IH]; [reflexivity|exact IH]. Qed.

(** The line break and indent [MarshalIndent] puts before an element. *)
Lemma ws_layout k : forallb is_ws (Json.nl ++ spaces k) = true.
Proof. cbn [Json.nl app forallb]. rewrite ws_spaces. reflexivity. Qed.

Lemma parse_value_ws f w s :
  forallb is_ws w = true -> parse_value f (w ++ s) = parse_value f s.
Proof. intros H. destruct f; [reflexivity|]. cbn [parse_value]. rewrite skip_ws_app by exact H. reflexivity. Qed.

(** ** String literals *)

(** The text of a literal: every quote and backslash behind a backslash
    ([scan_str]'s structure). *)
Fixpoint lit_ok (e : bytes) : bool :=
  match e with
  | [] => true
  | c :: e' =>
    if byte_val c =? 34 then false
    else if byte_val c =? 92 then match e' with [] => false | _ :: e'' => lit_ok e'' end
    else lit_ok e'
  end.

Lemma lit_ok_ind (P : bytes -> Prop) :
  P [] -> (forall c e, byte_val c <> 34 -> byte_val c <> 92 -> P e -> P (c :: e)) ->
  (forall c x e, byte_val c = 92 -> P e -> P (c :: x :: e)) ->
  forall e, lit_ok e = true -> P e.
Proof.
  intros Hnil Hc Hb e. remember (List.length e) as n eqn:En. revert e En.
  induction n as [n IH] using (well_founded_induction lt_wf). intros [|c e] En; [auto|].
  cbn [lit_ok]. destruct (Z.eqb_spec (byte_val c) 34); [discriminate|].
  destruct (Z.eqb_spec (byte_val c) 92) as [E|E].
  - destruct e as [|x e]; [discriminate|]. intros H. apply Hb; [exact E|].
    apply (IH (List.length e)); [subst; cbn; lia|reflexivity|exact H].
  - intros H. apply Hc; try assumption. apply (IH (List.length e)); [subst; cbn; lia|reflexivity|exact H].
Qed.

Lemma scan_lit e rest : lit_ok e = true -> scan_str (e ++ quote :: rest) = Some (e, rest).
Proof.
  revert e. apply lit_ok_ind.
  - cbn. unfold quote. lit_eval. reflexivity.
  - intros c e H34 H92 IH. cbn [app scan_str]. rewrite IH.
    destruct (Z.eqb_spec (byte_val c) 34); [lia|]. destruct (Z.eqb_spec (byte_val c) 92); [lia|].
    reflexivity.
  - intros c x e H92 IH. cbn [app scan_str]. rewrite IH, H92. reflexivity.
Qed.

Lemma lit_ok_app a b : lit_ok a = true -> lit_ok b = true -> lit_ok (a ++ b) = true.
Proof.
  intros Ha Hb. revert a Ha. apply lit_ok_ind; [exact Hb| |].
  - intros c e H34 H92 IH. cbn [app lit_ok]. destruct (Z.eqb_spec (byte_val c) 34); [lia|].
    destruct (Z.eqb_spec (byte_val c) 92); [lia|exact IH].
  - intros c x e H92 IH. cbn [app lit_ok]. rewrite H92. exact IH.
Qed.

Lemma lit_ok_high e : Forall (fun b => 128 <= byte_val b) e -> lit_ok e = true.
Proof.
  induction 1 as [|c e Hc _ IH]; [reflexivity|]. cbn [lit_ok].
  destruct (Z.eqb_spec (byte_val c) 34); [lia|]. destruct (Z.eqb_spec (byte_val c) 92); [lia|exact IH].
Qed.

Lemma hex_safe d : byte_val (hex d) <> 34 /\ byte_val (hex d) <> 92.
Proof.
  unfold hex. destruct (nth_in_or_default (Z.to_nat d) (gostr "0123456789abcdef") "0"%char) as [Hin| ->];
    [|split; discriminate].
  assert (A : Forall (fun c => byte_val c <> 34 /\ byte_val c <> 92) (gostr "0123456789abcdef"))
    by (repeat constructor; discriminate).
  rewrite List.Forall_forall in A. exact (A _ Hin).
Qed.

(** Check the literal text of an escape, a byte at a time. *)
Ltac lit_step :=
  cbn [lit_ok]; unfold backslash; lit_eval; cbn [Z.eqb Pos.eqb];
  repeat match goal with
  | |- context [byte_val (hex ?d) =? ?k] =>
    destruct (hex_safe d); destruct (Z.eqb_spec (byte_val (hex d)) k); [lia|]
  end; try reflexivity.

Lemma lit_ok_escape_byte b : lit_ok (escape_byte b) = true.
Proof.
  unfold escape_byte. remember (byte_val b) as v eqn:Hv.
  destruct ((v =? 34) || (v =? 92)) eqn:E1; [lit_step|].
  apply orb_false_iff in E1 as [E1 E1'].
  destruct (v =? 8); [lit_step|]. destruct (v =? 12); [lit_step|].
  destruct (v =? 10); [lit_step|]. destruct (v =? 13); [lit_step|]. destruct (v =? 9); [lit_step|].
  destruct ((v <? 32) || (v =? 60) || (v =? 62) || (v =? 38)); [lit_step|].
  cbn [lit_ok]. rewrite <- Hv, E1, E1'. reflexivity.
Qed.

(** The escape of every rune of a string is literal text. *)
Lemma lit_ok_rune s :
  s <> [] -> let (r, n) := DecodeRuneInString s in lit_ok (escape_rune (r, firstn n s)) = true.
Proof.
  intros Hs. destruct (DecodeRuneInString s) as [r n] eqn:D.
  pose proof (decode_width s) as W. rewrite D in W. cbn [snd] in W.
  destruct W as [[? _]|[_ W]]; [congruence|].
  destruct s as [|b s']; [congruence|].
  destruct (Nat.eq_dec n 1) as [->|N1].
  - change (firstn 1 (b :: s')) with [b]. cbn [escape_rune].
    destruct (byte_val b <? RuneSelf); [apply lit_ok_escape_byte|reflexivity].
  - assert (H : Forall (fun c => 128 <= byte_val c) (firstn n (b :: s'))).
    { apply List.Forall_forall. intros c Hc. apply (In_nth _ _ zero) in Hc as (i & Hi & <-).
      rewrite length_firstn in Hi. rewrite nth_firstn.
      destruct (Nat.ltb_spec i n); [|lia]. apply (decode_high _ r n i D); lia. }
    destruct (firstn n (b :: s')) as [|b0 [|b1 tl]];
      [cbn [escape_rune]; destruct (r =? 8232), (r =? 8233); reflexivity| |].
    + cbn [escape_rune]. inversion H as [|? ? H0 _]. subst.
      destruct (Z.ltb_spec (byte_val b0) RuneSelf); [unfold RuneSelf in *; lia|reflexivity].
    + cbn [escape_rune]. destruct (r =? 8232); [reflexivity|].
      destruct (r =? 8233); [reflexivity|]. apply lit_ok_high, H.
Qed.

(** The text [escape_string] puts between the quotes. *)
Definition body (s : bytes) : bytes := List.concat (map escape_rune (runes s)).

Lemma escape_string_body s : escape_string s = quote :: body s ++ [quote].
Proof. reflexivity. Qed.

Lemma lit_ok_body s : lit_ok (body s) = true.
Proof.
  unfold body. induction s as [|s Hs IH] using runes_ind; [reflexivity|].
  destruct (runes_first s Hs) as (r & n & D & E). rewrite E. cbn [map List.concat].
  pose proof (lit_ok_rune s Hs) as L. rewrite D in L, IH. apply lit_ok_app; assumption.
Qed.

(** A string literal the encoder wrote reads back as [string([]rune(s))]. *)
Lemma read_str_escape s rest : read_str (body s ++ quote :: rest) = Some (coerce_utf8 s, rest).
Proof.
  unfold read_str. rewrite scan_lit by apply lit_ok_body.
  unfold body. rewrite loop_escape by lia. reflexivity.
Qed.

(** ** Numbers *)

(** What may follow a value: nothing, or a byte that does not continue a
    number. *)
Definition stop (rest : bytes) : Prop := match rest with [] => True | c :: _ => num_byte c = false end.

Lemma span_num_app a rest :
  forallb num_byte a = true -> stop rest -> span_num (a ++ rest) = (a, rest).
Proof.
  intros Ha Hr. induction a as [|c a IH].
  - destruct rest as [|c rest]; [reflexivity|]. cbn in Hr |- *. rewrite Hr. reflexivity.
  - cbn in Ha |- *. apply andb_prop in Ha as [-> Ha]. rewrite (IH Ha). reflexivity.
Qed.

Lemma num_bytes_fmt_d n : forallb num_byte (fmt_d n) = true.
Proof.
  apply forallb_forall. intros c Hc. pose proof (fmt_d_chars n) as F.
  rewrite List.Forall_forall in F. destruct (F c Hc) as [->|E]; [reflexivity|].
  unfold num_byte. destruct (digit_val c); [apply orb_true_r|congruence].
Qed.

Lemma read_num_fmt n rest : stop rest -> read_num (fmt_d n ++ rest) = Some (JInt n, rest).
Proof.
  intros Hr. unfold read_num. rewrite span_num_app by (apply num_bytes_fmt_d || exact Hr).
  rewrite fmt_d_roundtrip. reflexivity.
Qed.

(** ** Values *)

(** What the reader gives back for a value [MarshalIndent] wrote: strings
    as [string([]rune(s))], a [Marshaler]'s output read as the JSON it is
    (here a string literal). *)
Fixpoint decode (v : json) : json :=
  match v with
  | JString s => JString (coerce_utf8 s)
  | JRaw b => match unquote b with Some s => JString s | None => JRaw b end
  | JArray l => JArray (map decode l)
  | JObject kvs => JObject (map (fun kv => (coerce_utf8 (fst kv), decode (snd kv))) kvs)
  | v => v
  end.

(** The values the reader reads back: a [Marshaler]'s output is a string
    literal the encoder could have written. *)
Fixpoint readable (v : json) : Prop :=
  match v with
  | JRaw b => exists s, b = escape_string s
  | JArray l => fold_right (fun x P => readable x /\ P) True l
  | JObject kvs => fold_right (fun kv P => readable (snd kv) /\ P) True kvs
  | _ => True
  end.

(** The fuel a value needs: one per value and per element. *)
Fixpoint jsize (v : json) : nat :=
  match v with
  | JArray l => S (list_sum (map (fun x => S (jsize x)) l))
  | JObject kvs => S (list_sum (map (fun kv => S (jsize (snd kv))) kvs))
  | _ => 1
  end.

Section JsonInd.
Variable P : json -> Prop.
Hypothesis Hnull : P JNull.
Hypothesis Hint : forall n, P (JInt n).
Hypothesis Hstring : forall s, P (JString s).
Hypothesis Hraw : forall b, P (JRaw b).
Hypothesis Harray : forall l, Forall P l -> P (JArray l).
Hypothesis Hobject : forall kvs, Forall (fun kv => P (snd kv)) kvs -> P (JObject kvs).

(** Induction on [json] through the lists it nests. *)
Fixpoint json_ind' (v : json) : P v :=
  match v with
  | JNull => Hnull
  | JInt n => Hint n
  | JString s => Hstring s
  | JRaw b => Hraw b
  | JArray l =>
    Harray l ((fix go (l : list json) : Forall P l :=
                 match l with
                 | [] => @Forall_nil json P
                 | x :: l' => @Forall_cons json P x l' (json_ind' x) (go l')
                 end) l)
  | JObject kvs =>
    Hobject kvs ((fix go (kvs : list (bytes * json)) : Forall (fun kv => P (snd kv)) kvs :=
                    match kvs with
                    | [] => @Forall_nil _ (fun kv => P (snd kv))
                    | kv :: kvs' => @Forall_cons _ (fun kv => P (snd kv)) kv kvs' (json_ind' (snd kv)) (go kvs')
                    end) kvs)
  end.

End JsonInd.

Lemma readable_array l : readable (JArray l) <-> Forall readable l.
Proof.
  cbn [readable]. induction l as [|x l IH]; cbn [fold_right]; [split; auto|].
  rewrite IH. split; [intros [? ?]; constructor; assumption|intros H; inversion H; auto].
Qed.

Lemma readable_object kvs : readable (JObject kvs) <-> Forall (fun kv => readable (snd kv)) kvs.
Proof.
  cbn [readable]. induction kvs as [|kv kvs IH]; cbn [fold_right]; [split; auto|].
  rewrite IH. split; [intros [? ?]; constructor; assumption|intros H; inversion H; auto].
Qed.

(** Evaluate the byte tests of the reader on literal bytes. *)
Ltac lits := unfold is_ws, quote; do 3 (lit_eval; cbn [Z.eqb Pos.eqb orb andb negb]).

(** The first byte of a printed integer. *)
Lemma fmt_d_head n : exists c t, fmt_d n = c :: t /\ (byte_val c = 45 \/ 48 <= byte_val c <= 57).
Proof.
  pose proof (fmt_d_chars n) as F. pose proof (fmt_d_roundtrip n) as R.
  destruct (fmt_d n) as [|c t]; [discriminate|]. exists c, t. split; [reflexivity|].
  inversion F as [|? ? [->|E] _]; subst; [left; reflexivity|right].
  unfold digit_val in E. destruct (_ && _) eqn:B; [|congruence]. apply andb_prop in B as [B1 B2]. bool_facts. lia.
Qed.

(** Every printed value starts with a byte that is neither white space nor
    a closing bracket. *)
Lemma indent_head d v : readable v ->
  exists c t, indent d v = c :: t /\ is_ws c = false /\ byte_val c <> 93.
Proof.
  destruct v as [|n|s|b|[|x l]|[|[k x] kvs]]; cbn [readable indent]; intros Hr;
    try (eexists _, _; split; [reflexivity|lits; split; [reflexivity|discriminate]]).
  - destruct (fmt_d_head n) as (c & t & -> & H). exists c, t. split; [reflexivity|].
    unfold is_ws. split; [|lia]. split_cmp; cbn; lia || reflexivity.
  - destruct Hr as [s ->]. eexists _, _. split; [reflexivity|lits; split; [reflexivity|discriminate]].
Qed.

(** The reader reads a value printed at depth [d] back, whatever follows it. *)
Definition reads_back (d : nat) (x : json) : Prop :=
  forall f rest, (jsize x <= f)%nat -> stop rest -> parse_value f (indent d x ++ rest) = Some (decode x, rest).

(** Skip the line break and indent before an element. *)
Lemma skip_layout k s : skip_ws ((Json.nl ++ spaces k) ++ s) = skip_ws s.
Proof. apply skip_ws_app, ws_layout. Qed.

Lemma stop_layout s : stop (Json.nl ++ s).
Proof. reflexivity. Qed.

(** The elements of an array after its [[]. *)
Lemma elems_indent d xs : forall x f rest,
  Forall (fun y => readable y /\ reads_back (S d) y) (x :: xs) ->
  (list_sum (map (fun y => S (jsize y)) (x :: xs)) <= f)%nat ->
  parse_elems f (Json.nl ++ spaces (S d) ++ indent (S d) x ++
                 List.concat (map (fun y => ","%char :: Json.nl ++ spaces (S d) ++ indent (S d) y) xs) ++
                 Json.nl ++ spaces d ++ "]"%char :: rest) =
  Some (map decode (x :: xs), rest).
Proof.
  induction xs as [|y xs IH]; intros x f rest H Hf; inversion H as [|? ? [Rx Qx] H']; subst;
    cbn [map list_sum fold_right List.concat app] in *; (destruct f as [|f]; [lia|]); cbn [parse_elems];
    rewrite (app_assoc Json.nl (spaces (S d))), parse_value_ws by apply ws_layout.
  - rewrite Qx by (lia || reflexivity). rewrite app_assoc, skip_layout. cbn [skip_ws]. lits. reflexivity.
  - rewrite Qx by (lia || reflexivity). cbn [skip_ws]. lits.
    rewrite <- ?app_assoc, IH by (assumption || lia). reflexivity.
Qed.

(** The members of an object after its [{]. *)
Lemma colon_ws s : skip_ws (gostr ": " ++ s) = ":"%char :: " "%char :: s.
Proof. cbn. lits. reflexivity. Qed.

Lemma parse_value_sp f s : parse_value f (" "%char :: s) = parse_value f s.
Proof. apply (parse_value_ws f [" "%char] s). reflexivity. Qed.

Lemma members_indent d kvs : forall k x f rest,
  Forall (fun kv => readable (snd kv) /\ reads_back (S d) (snd kv)) ((k, x) :: kvs) ->
  (list_sum (map (fun kv => S (jsize (snd kv))) ((k, x) :: kvs)) <= f)%nat ->
  parse_members f (Json.nl ++ spaces (S d) ++ escape_string k ++ gostr ": " ++ indent (S d) x ++
                   List.concat (map (fun '(k', y) => ","%char :: Json.nl ++ spaces (S d) ++
                                       escape_string k' ++ gostr ": " ++ indent (S d) y) kvs) ++
                   Json.nl ++ spaces d ++ "}"%char :: rest) =
  Some (map (fun kv => (coerce_utf8 (fst kv), decode (snd kv))) ((k, x) :: kvs), rest).
Proof.
  induction kvs as [|[k' y] kvs IH]; intros k x f rest H Hf; inversion H as [|? ? [Rx Qx] H']; subst;
    cbn [map list_sum fold_right List.concat app fst snd] in *; (destruct f as [|f]; [lia|]);
    cbn [parse_members]; rewrite (app_assoc Json.nl (spaces (S d))), skip_layout, escape_string_body;
    cbn [app skip_ws]; lits; rewrite <- !app_assoc; cbn [app];
    rewrite read_str_escape, colon_ws; lits; rewrite parse_value_sp.
  - rewrite Qx by (lia || reflexivity). rewrite app_assoc, skip_layout. cbn [skip_ws]. lits. reflexivity.
  - rewrite Qx by (lia || reflexivity). cbn [skip_ws]. lits.
    rewrite <- ?app_assoc, IH by (assumption || lia). reflexivity.
Qed.

(** After the [[] of a non-empty array comes its first value, not []]. *)
Lemma array_open d x s : readable x ->
  exists c t, skip_ws (indent d x ++ s) = c :: t /\ (byte_val c =? 93) = false.
Proof.
  intros Hx. destruct (indent_head d x Hx) as (c0 & t & E & W & N). rewrite E. cbn [app].
  rewrite skip_ws_stop by exact W. exists c0, (t ++ s). split; [reflexivity|]. apply Z.eqb_neq, N.
Qed.

(** After the [{] of a non-empty object comes a key, not [}]. *)
Lemma object_open k s :
  exists c t, skip_ws (escape_string k ++ s) = c :: t /\ (byte_val c =? 125) = false.
Proof. rewrite escape_string_body. cbn. lits. eexists _, _. split; reflexivity. Qed.

Lemma Forall_reads {B} (g : B -> json) d l :
  Forall (fun y => readable (g y) -> forall d, reads_back d (g y)) l -> Forall (fun y => readable (g y)) l ->
  Forall (fun y => readable (g y) /\ reads_back d (g y)) l.
Proof. intros H1 H2. induction H1; inversion H2; subst; constructor; auto. Qed.

(** Round trip: the reader reads back every readable value [MarshalIndent]
    prints, at any depth and whatever follows it. *)
Lemma parse_indent v : readable v -> forall d, reads_back d v.
Proof.
  induction v as [|n|s|b|l IHl|kvs IHkvs] using json_ind'; intros Hr d f rest Hf Hs;
    (destruct f as [|f]; [cbn in Hf; lia|]).
  - cbn. lits. reflexivity.
  - cbn [indent]. destruct (fmt_d_head n) as (c & t & E & Hc). rewrite E. cbn [app parse_value skip_ws].
    unfold is_ws. split_cmp; cbn [orb]; try lia.
    destruct (Z.eqb_spec (byte_val c) 110); [lia|]. destruct (Z.eqb_spec (byte_val c) 34); [lia|].
    destruct (Z.eqb_spec (byte_val c) 91); [lia|]. destruct (Z.eqb_spec (byte_val c) 123); [lia|].
    rewrite app_comm_cons, <- E. apply read_num_fmt, Hs.
  - cbn [indent decode]. rewrite escape_string_body. cbn [app parse_value skip_ws]. lits.
    rewrite <- app_assoc. cbn [app]. rewrite read_str_escape. reflexivity.
  - destruct Hr as [s ->]. cbn [indent decode]. rewrite unquote_escape, escape_string_body.
    cbn [app parse_value skip_ws]. lits. rewrite <- app_assoc. cbn [app]. rewrite read_str_escape. reflexivity.
  - apply readable_array in Hr. destruct l as [|x xs]; [cbn; lits; reflexivity|].
    cbn [indent jsize] in *. cbn [app]. rewrite <- !app_assoc. cbn [app parse_value skip_ws]. lits.
    rewrite (app_assoc Json.nl (spaces (S d))), skip_layout.
    match goal with |- context [skip_ws (indent (S d) x ++ ?s)] =>
      destruct (array_open (S d) x s) as (c & t & -> & ->); [inversion Hr; assumption|] end.
    rewrite <- (app_assoc Json.nl (spaces (S d))), elems_indent; [reflexivity| |lia].
    apply (Forall_reads (fun y => y)); assumption.
  - apply readable_object in Hr. destruct kvs as [|[k x] kvs]; [cbn; lits; reflexivity|].
    cbn [indent jsize] in *. cbn [app]. rewrite <- !app_assoc. cbn [app parse_value skip_ws]. lits.
    rewrite (app_assoc Json.nl (spaces (S d))), skip_layout.
    match goal with |- context [skip_ws (escape_string k ++ ?s)] =>
      destruct (object_open k s) as (c & t & -> & ->) end.
    rewrite <- (app_assoc Json.nl (spaces (S d))), members_indent; [reflexivity| |lia].
    apply (Forall_reads snd); assumption.
Qed.

(** The fuel the reader needs is at most the length of the text. *)
Lemma sum_le_concat {B} (g : B -> nat) (h : B -> bytes) l :
  Forall (fun y => (g y <= List.length (h y))%nat) l ->
  (list_sum (map g l) <= List.length (List.concat (map h l)))%nat.
Proof.
  induction 1 as [|x l Hx _ IH]; [cbn; lia|]. cbn [map List.concat]. rewrite length_app. unfold list_sum in *. cbn [fold_right]. lia.
Qed.

Lemma jsize_indent v : readable v -> forall d, (jsize v <= List.length (indent d v))%nat.
Proof.
  induction v as [|n|s|b|l IHl|kvs IHkvs] using json_ind'; intros Hr d.
  - cbn. lia.
  - destruct (fmt_d_head n) as (c & t & E & _). cbn [indent jsize]. rewrite E. cbn [List.length]. lia.
  - cbn [indent jsize]. rewrite escape_string_body. cbn [List.length]. lia.
  - destruct Hr as [s ->]. cbn [indent jsize]. rewrite escape_string_body. cbn [List.length]. lia.
  - apply readable_array in Hr. destruct l as [|x xs]; [cbn; lia|].
    inversion IHl as [|? ? Hx Hxs]; inversion Hr as [|? ? Rx Rxs]; subst.
    cbn [indent jsize map list_sum fold_right List.length]. rewrite !length_app. cbn [List.length].
    pose proof (Hx Rx (S d)).
    pose proof (sum_le_concat (fun y => S (jsize y))
                  (fun y => ","%char :: Json.nl ++ spaces (S d) ++ indent (S d) y) xs) as Hs.
    rewrite Forall_forall in Hxs, Rxs. lapply Hs; [unfold list_sum in *; cbn [fold_right] in *; lia|]. apply Forall_forall. intros y Hy.
    specialize (Hxs y Hy (Rxs y Hy) (S d)). cbn [List.length]. rewrite !length_app. lia.
  - apply readable_object in Hr. destruct kvs as [|[k x] kvs]; [cbn; lia|].
    inversion IHkvs as [|? ? Hx Hxs]; inversion Hr as [|? ? Rx Rxs]; subst.
    cbn [indent jsize map list_sum fold_right List.length snd] in *. rewrite !length_app. cbn [List.length].
    pose proof (Hx Rx (S d)).
    pose proof (sum_le_concat (fun kv => S (jsize (snd kv)))
                  (fun '(k', y) => ","%char :: Json.nl ++ spaces (S d) ++
                     escape_string k' ++ gostr ": " ++ indent (S d) y) kvs) as Hs.
    rewrite Forall_forall in Hxs, Rxs. lapply Hs; [unfold list_sum in *; cbn [fold_right] in *; lia|]. apply Forall_forall. intros [k' y] Hy.
    specialize (Hxs _ Hy (Rxs _ Hy) (S d)). cbn [List.length snd] in *. rewrite !length_app. lia.
Qed.

(** Round trip of a whole document: [parse] reads back every readable
    value [MarshalIndent] prints. *)
Lemma MarshalIndent_parse v : readable v -> parse (MarshalIndent v) = Some (decode v).
Proof.
  intros Hr. unfold parse, MarshalIndent. rewrite <- (app_nil_r (indent 0 v)).
  rewrite (parse_indent v Hr 0); [reflexivity| |exact I].
  rewrite app_nil_r. apply jsize_indent, Hr.
Qed.

End JsonDoc.
