(* ===== verification/Report.v ===== *)
(** * The result reporter: [output.go]

    [SaveResultsToMD] and [SaveModelOutputs] both turn the model name into
    a file name component: [/] and [\] become [_], the result is trimmed of
    white space, and an empty result becomes [model] ([safeModelName]).
    The Markdown report is [API_Throughput_<safe>.md] ([mdFilename]); the
    JSON archive is [model_outputs/<safe>_concurrency_<n>_<time>.json].

    The theorems show that the sanitised name has no path separator, is
    trimmed and non-empty, that sanitising is idempotent, and that distinct
    model names can share a report file; the report's content, its
    read-back table lines and the panics of the row assertions, with the
    dynamic types of the [interface{}] values as a typing judgement
    ([has_type]): the report is written in full exactly when every row is
    well-typed; the archive's path, layout and errors. *)

From Stdlib Require Import ZArith List String Ascii Lia Bool.
From stdpp Require Import gmap strings.
From S2P Require Import Prelude GoString GoLib FloatFmt GoTime Json.
Import ListNotations Strings Fmt F64 GoTime Json.
Open Scope Z_scope.

Module Report.

(** ** Sanitising the model name (lines 33-38 and 83-88) *)

Definition safeModelName (modelName : bytes) : bytes :=
  let safeModelName := ReplaceAll modelName (gostr "/") (gostr "_") in
  let safeModelName := ReplaceAll safeModelName (gostr "\") (gostr "_") in
  let safeModelName := TrimSpace safeModelName in
  match safeModelName with
  | [] => gostr "model"
  | _ => safeModelName
  end.

(** [fmt.Sprintf("API_Throughput_%s.md", safeModelName)] *)
Definition mdFilename (modelName : bytes) : bytes :=
  gostr "API_Throughput_" ++ safeModelName modelName ++ gostr ".md".

(** ** The world the reporter acts on

    The files by path, the directories, standard output and the log (its
    lines without the date prefix [log] adds).  The operating system's
    failures are inputs: [create_err p] is the error of [os.Create(p)],
    [mkdir_err d] that of [os.MkdirAll(d, 0755)], [write_err p] that of
    [os.WriteFile(p, ..)]. *)
Record World := { files : gmap bytes bytes; dirs : gset bytes; stdout : bytes; logs : list bytes }.

Record OS := {
  create_err : bytes -> option bytes;
  mkdir_err : bytes -> option bytes;
  write_err : bytes -> option bytes
}.

Definition print (w : World) (out : bytes) : World :=
  {| files := files w; dirs := dirs w; stdout := stdout w ++ out; logs := logs w |}.

Definition log_printf (w : World) (line : bytes) : World :=
  {| files := files w; dirs := dirs w; stdout := stdout w; logs := logs w ++ [line] |}.

(** [file.WriteString(s)] on the file created at [path]. *)
Definition write_string (path : bytes) (w : World) (s : bytes) : World :=
  {| files := <[path := default [] (files w !! path) ++ s]> (files w); dirs := dirs w; stdout := stdout w; logs := logs w |}.

(** How a call ends: normally, or by a panic (a failed type assertion or
    index of a result row). *)
Inductive Outcome := Returned | Panicked.

(** ** [SaveResultsToMD] (lines 31-71) *)

(** An element of a [[]interface{}] row. *)
Inductive Value :=
| VInt (n : Z)
| VFloat (x : f64)
| VString (s : bytes)
| VNil.

(** The type assertions of lines 55-60: [result[0].(int)] and
    [result[1..5].(float64)]; [None] is the panic of a failed assertion or
    of an index out of range. *)
Definition row_fields (result : list Value) : option (Z * f64 * f64 * f64 * f64 * f64) :=
  match result with
  | VInt concurrency :: VFloat generationSpeed :: VFloat promptThroughput ::
    VFloat minTTFT :: VFloat maxTTFT :: VFloat successRate :: _ =>
    Some (concurrency, generationSpeed, promptThroughput, minTTFT, maxTTFT, successRate)
  | _ => None
  end.

(** [fmt.Sprintf("| %11d | %32.2f | %29.2f | %12.2f | %12.2f | %11.2f%% |\n", ...)] *)
Definition format_row (concurrency : Z) (generationSpeed promptThroughput minTTFT maxTTFT successRate : f64) : bytes :=
  gostr "| " ++ fmt_wd 11 concurrency ++ gostr " | " ++ fmt_wf2 32 generationSpeed ++
  gostr " | " ++ fmt_wf2 29 promptThroughput ++ gostr " | " ++ fmt_wf2 12 minTTFT ++
  gostr " | " ++ fmt_wf2 12 maxTTFT ++ gostr " | " ++ fmt_wf2 11 (fmul64 successRate hundred) ++
  gostr "% |" ++ ["010"%char].

Definition nl : bytes := ["010"%char].

(** The metadata block and the table head (lines 47-52). *)
Definition md_header (modelName : bytes) (inputTokens maxTokens : Z) (latency : f64) : bytes :=
  gostr "```" ++ nl ++ gostr "Input Tokens: " ++ fmt_d inputTokens ++ nl ++
  gostr "Output Tokens: " ++ fmt_d maxTokens ++ nl ++
  gostr "Test Model: " ++ modelName ++ nl ++
  gostr "Latency: " ++ fmt_f2 latency ++ gostr " ms" ++ nl ++ gostr "```" ++ nl ++ nl ++
  gostr "| Concurrency | Generation Throughput (tokens/s) |  Prompt Throughput (tokens/s) | Min TTFT (s) | Max TTFT (s) | Success Rate |" ++ nl ++
  gostr "|-------------|----------------------------------|-------------------------------|--------------|--------------|--------------|" ++ nl.

(** [for _, result := range results { ... file.WriteString(..) }]: stops at
    the first row whose assertions panic. *)
Fixpoint write_rows (path : bytes) (w : World) (results : list (list Value)) : World * Outcome :=
  match results with
  | [] => (w, Returned)
  | result :: rest =>
    match row_fields result with
    | None => (w, Panicked)
    | Some (c, g, p, mn, mx, sr) => write_rows path (write_string path w (format_row c g p mn mx sr)) rest
    end
  end.

(** ** [PrintBenchmarkHeader] (lines 14-28) *)

Definition tabs (n : nat) : bytes := repeat "009"%char n.

(** The banner literal up to its [%s] verb and after it.  The bytes after
    [Time] are those of the source: C3 AF C2 BC C5 A1, the UTF-8 encoding
    of the three characters that the bytes of a full-width colon read as
    in Latin-1. *)
Definition banner_before : bytes :=
  nl ++ repeat "#"%char 112 ++ nl ++
  tabs 4 ++ repeat " "%char 10 ++ gostr "LLM API Throughput Benchmark" ++ nl ++
  tabs 4 ++ repeat " "%char 4 ++ gostr "https://github.com/Yoosu-L/llmapibenchmark" ++ nl ++
  tabs 5 ++ gostr " Time" ++ ["195"%char; "175"%char; "194"%char; "188"%char; "197"%char; "161"%char].

Definition banner_after : bytes := nl ++ repeat "#"%char 112.

(** [PrintBenchmarkHeader], with [time.Now()] as [now]. *)
Definition PrintBenchmarkHeader (now : Time) (modelName : bytes) (inputTokens maxTokens : Z)
    (latency : f64) (w : World) : World :=
  let w := print w (banner_before ++ format_banner_time (UTC now) ++ banner_after ++ nl) in
  let w := print w (gostr "Input Tokens: " ++ fmt_d inputTokens ++ nl) in
  let w := print w (gostr "Output Tokens: " ++ fmt_d maxTokens ++ nl) in
  let w := print w (gostr "Test Model: " ++ modelName ++ nl) in
  print w (gostr "Latency: " ++ fmt_f2 latency ++ gostr " ms" ++ nl ++ nl).

(** ** [SaveModelOutputs] (lines 75-115) *)

Definition outputDir : bytes := gostr "model_outputs".

(** [fmt.Sprintf("%s_concurrency_%d_%s.json", safeModelName, concurrency, timeStr)] *)
Definition archive_name (modelName : bytes) (concurrency : Z) (timestamp : Time) : bytes :=
  safeModelName modelName ++ gostr "_concurrency_" ++ fmt_d concurrency ++ gostr "_" ++
  format_file_time timestamp ++ gostr ".json".

(** A [[]string]: [None] is a nil slice, which [encoding/json] writes as
    [null]. *)
Definition outputs_json (outputs : option (list bytes)) : json :=
  match outputs with None => JNull | Some l => JArray (map JString l) end.

Definition outputs_len (outputs : option (list bytes)) : Z :=
  match outputs with None => 0 | Some l => Z.of_nat (List.length l) end.

(** [data := map[string]interface{}{...}] (lines 95-101), with the encoded
    timestamp [ts]. *)
Definition archive_map (outputs : option (list bytes)) (modelName : bytes) (concurrency : Z) (ts : bytes)
    : gmap bytes json :=
  <[gostr "model_name" := JString modelName]> (<[gostr "concurrency" := JInt concurrency]>
  (<[gostr "timestamp" := JRaw ts]> (<[gostr "outputs" := outputs_json outputs]>
  (<[gostr "count" := JInt (outputs_len outputs)]> empty)))).

(** [json.MarshalIndent(data, "", "  ")]: the only error is that of the
    timestamp's [MarshalJSON]. *)
Definition marshal_archive (outputs : option (list bytes)) (modelName : bytes) (concurrency : Z)
    (timestamp : Time) : result bytes bytes :=
  match MarshalJSON (UTC timestamp) with
  | Err e => Err (gostr "json: error calling MarshalJSON for type time.Time: " ++ e)
  | Ok ts => Ok (MarshalIndent (of_map (archive_map outputs modelName concurrency ts)))
  end.

Section Reporter.
Variable os : OS.

Definition SaveResultsToMD (results : list (list Value)) (modelName : bytes)
    (inputTokens maxTokens : Z) (latency : f64) (w : World) : World * Outcome :=
  let filename := mdFilename modelName in
  match create_err os filename with
  | Some err => (log_printf w (gostr "Error creating file: " ++ err), Returned)
  | None =>
    (* [os.Create] truncates the file *)
    let w := {| files := <[filename := []]> (files w); dirs := dirs w; stdout := stdout w; logs := logs w |} in
    let w := write_string filename w (md_header modelName inputTokens maxTokens latency) in
    match write_rows filename w results with
    | (w, Panicked) => (w, Panicked)
    | (w, Returned) => (print w (gostr "Results saved to: " ++ filename ++ nl ++ nl), Returned)
    end
  end.

Definition SaveModelOutputs (outputs : option (list bytes)) (modelName : bytes) (concurrency : Z)
    (timestamp : Time) (w : World) : World * result bytes bytes :=
  match mkdir_err os outputDir with
  | Some err => (w, Err (gostr "failed to create output directory: " ++ err))
  | None =>
    let w := {| files := files w; dirs := union {[outputDir]} (dirs w); stdout := stdout w; logs := logs w |} in
    let filename := Filepath.Join [outputDir; archive_name modelName concurrency timestamp] in
    match marshal_archive outputs modelName concurrency timestamp with
    | Err err => (w, Err (gostr "failed to marshal JSON: " ++ err))
    | Ok jsonData =>
      match write_err os filename with
      | Some err => (w, Err (gostr "failed to write output file: " ++ err))
      | None => ({| files := <[filename := jsonData]> (files w); dirs := dirs w; stdout := stdout w;
                   logs := logs w |}, Ok filename)
      end
    end
  end.

End Reporter.

(** The text of the rows that pass their assertions. *)
Definition row_text (result : list Value) : bytes :=
  match row_fields result with
  | Some (c, g, p, mn, mx, sr) => format_row c g p mn mx sr
  | None => []
  end.

(** The dynamic types of the [interface{}] values a row holds, and the
    typing judgement of a value. *)
Inductive GoType := TInt | TFloat64 | TString.

Inductive has_type : Value -> GoType -> Prop :=
| int_typed n : has_type (VInt n) TInt
| float_typed x : has_type (VFloat x) TFloat64
| string_typed s : has_type (VString s) TString.

(** The type of a result row as lines 55-60 use it. *)
Definition row_type : list GoType := [TInt; TFloat64; TFloat64; TFloat64; TFloat64; TFloat64].

(** A well-typed row: its first six values have the row's types (the rest
    is never read). *)
Definition typed (result : list Value) : Prop := Forall2 has_type (firstn 6 result) row_type.

(** A reader of table lines, the reference the layout is checked against:
    the trimmed cells between the first and the last bar. *)
Definition cells (line : bytes) : list bytes := map TrimSpace (removelast (tl (Split1 line "|"%char))).

(** A byte that is neither of the two path separators. *)
Definition no_sep (b : ascii) : Prop := b <> "/"%char /\ b <> "\"%char.

Lemma replace_seps_no_sep m :
  Forall no_sep (ReplaceAll (ReplaceAll m (gostr "/") (gostr "_")) (gostr "\") (gostr "_")).
Proof.
  change (gostr "/") with ["/"%char]. change (gostr "\") with ["\"%char].
  change (gostr "_") with ["_"%char]. rewrite !ReplaceAll_byte, map_map.
  apply List.Forall_forall. intros b Hb. apply in_map_iff in Hb as (x & <- & _).
  destruct (ascii_dec x "/"%char); cbn; [split; discriminate|].
  destruct (ascii_dec x "\"%char); [split; discriminate|]. split; assumption.
Qed.

Lemma Forall_TrimSpace (P : ascii -> Prop) s : Forall P s -> Forall P (TrimSpace s).
Proof.
  intros H. destruct (TrimSpace_infix s) as (pre & suf & E). rewrite E in H.
  apply Forall_app in H as [_ H]. apply Forall_app in H as [H _]. exact H.
Qed.

Lemma ReplaceAll_no_sep s c :
  Forall no_sep s -> (c = "/"%char \/ c = "\"%char) -> ReplaceAll s [c] ["_"%char] = s.
Proof.
  intros H Hc. rewrite ReplaceAll_byte.
  induction H as [|x s [H1 H2] _ IH]; [reflexivity|]. cbn. rewrite IH.
  destruct (ascii_dec x c); [subst; destruct Hc; congruence|reflexivity].
Qed.

(** The sanitised model name has no [/] or [\], is non-empty and has no
    leading or trailing white space. *)
Lemma safeModelName_props m :
  Forall no_sep (safeModelName m) /\ safeModelName m <> [] /\
  TrimSpace (safeModelName m) = safeModelName m.
Proof.
  unfold safeModelName. pose proof (Forall_TrimSpace _ _ (replace_seps_no_sep m)) as F.
  pose proof (TrimSpace_idem (ReplaceAll (ReplaceAll m (gostr "/") (gostr "_")) (gostr "\") (gostr "_"))) as I.
  destruct (TrimSpace _) as [|b s]; [vm_compute; repeat split; try discriminate; repeat constructor; discriminate|].
  split; [exact F|split; [discriminate|exact I]].
Qed.

Lemma safeModelName_idem m : safeModelName (safeModelName m) = safeModelName m.
Proof.
  destruct (safeModelName_props m) as (F & N & T).
  unfold safeModelName at 1. cbv zeta.
  change (gostr "/") with ["/"%char]. change (gostr "\") with ["\"%char].
  change (gostr "_") with ["_"%char].
  rewrite (ReplaceAll_no_sep _ "/"%char F (or_introl eq_refl)).
  rewrite (ReplaceAll_no_sep _ "\"%char F (or_intror eq_refl)), T.
  destruct (safeModelName m); [congruence|reflexivity].
Qed.

(** C35: the sanitised model name is a safe file name component: it has no
    [/] or [\], it is non-empty, it has no leading or trailing white space,
    and sanitising it again changes nothing. *)
Theorem safeModelName_spec m :
  Forall no_sep (safeModelName m) /\ safeModelName m <> [] /\
  TrimSpace (safeModelName m) = safeModelName m /\
  safeModelName (safeModelName m) = safeModelName m.
Proof.
  destruct (safeModelName_props m) as (F & N & T).
  repeat split; [exact F|exact N|exact T|apply safeModelName_idem].
Qed.

(** Two different models, [org/llama] and [org_llama], write the same
    report file. *)
Example mdFilename_collision :
  gostr "org/llama" <> gostr "org_llama" /\
  mdFilename (gostr "org/llama") = mdFilename (gostr "org_llama").
Proof. split; [discriminate|vm_compute; reflexivity]. Qed.

(** ** The Markdown report *)

Lemma write_string_some path w s old :
  files w !! path = Some old ->
  write_string path w s = {| files := <[path := old ++ s]> (files w); dirs := dirs w; stdout := stdout w; logs := logs w |}.
Proof. intros H. unfold write_string. rewrite H. reflexivity. Qed.

(** Inversion of the typing of a row's values. *)
Ltac typing_inv :=
  repeat match goal with
  | H : Forall2 _ (_ :: _) _ |- _ => inversion H; subst; clear H
  | H : Forall2 _ [] (_ :: _) |- _ => inversion H
  | H : has_type _ _ |- _ => inversion H; subst; clear H
  end.

(** The type assertions succeed exactly on the well-typed rows. *)
Lemma row_fields_typed r : row_fields r <> None <-> typed r.
Proof.
  unfold typed, row_type, row_fields.
  case_splits; cbn [firstn]; split; intros H; try congruence; typing_inv;
    repeat constructor.
Qed.

(** The loop over the rows returns exactly when every row is well typed,
    and panics otherwise. *)
Lemma write_rows_outcome path rs : forall w,
  snd (write_rows path w rs) = Returned <-> Forall typed rs.
Proof.
  induction rs as [|r rs IH]; intros w; [split; constructor|].
  cbn [write_rows]. pose proof (row_fields_typed r) as T.
  destruct (row_fields r) as [[[[[[c g] p] mn] mx] sr]|] eqn:Er.
  - rewrite IH. split; [intros H; constructor; [apply T; discriminate|exact H]|].
    intros H. inversion H. assumption.
  - cbn. split; [discriminate|]. intros H. inversion H. tauto.
Qed.

(** Rows that pass their assertions are appended in order. *)
Lemma write_rows_typed path good : forall rest w old,
  files w !! path = Some old -> Forall typed good ->
  write_rows path w (good ++ rest) =
  write_rows path {| files := <[path := old ++ List.concat (map row_text good)]> (files w);
                     dirs := dirs w; stdout := stdout w; logs := logs w |} rest.
Proof.
  induction good as [|r good IH]; intros rest w old Hw Hg.
  - cbn. rewrite app_nil_r, insert_id by exact Hw. destruct w; reflexivity.
  - inversion Hg as [|? ? Hr Hg']; subst. cbn [app write_rows].
    apply row_fields_typed in Hr.
    destruct (row_fields r) as [[[[[[c g] p] mn] mx] sr]|] eqn:Er; [|contradiction].
    rewrite (write_string_some _ _ _ old Hw).
    rewrite (IH rest _ (old ++ format_row c g p mn mx sr)); [|apply lookup_insert_eq|exact Hg'].
    cbn [files stdout logs map List.concat].
    replace (row_text r) with (format_row c g p mn mx sr) by (unfold row_text; rewrite Er; reflexivity).
    rewrite insert_insert_eq, app_assoc. reflexivity.
Qed.

Lemma create_then_header path w hdr :
  write_string path {| files := <[path := []]> (files w); dirs := dirs w; stdout := stdout w; logs := logs w |} hdr =
  {| files := <[path := hdr]> (files w); dirs := dirs w; stdout := stdout w; logs := logs w |}.
Proof.
  rewrite (write_string_some _ _ _ []) by apply lookup_insert_eq. cbn. rewrite insert_insert_eq. reflexivity.
Qed.

Section Reports.
Variable os : OS.

(** C23: when the file can be created and every row passes its type
    assertions, [SaveResultsToMD] writes the metadata block, the table head
    and one formatted line per row, in order, to [API_Throughput_<safe>.md],
    then prints where the results were saved; no other file changes. *)
Theorem SaveResultsToMD_ok results modelName inputTokens maxTokens latency w :
  create_err os (mdFilename modelName) = None -> Forall typed results ->
  SaveResultsToMD os results modelName inputTokens maxTokens latency w =
  ({| files := <[mdFilename modelName := md_header modelName inputTokens maxTokens latency ++
                                         List.concat (map row_text results)]> (files w);
      dirs := dirs w; stdout := stdout w ++ gostr "Results saved to: " ++ mdFilename modelName ++ nl ++ nl;
      logs := logs w |}, Returned).
Proof.
  intros Hc Ht. unfold SaveResultsToMD. rewrite Hc, create_then_header.
  rewrite <- (app_nil_r results), (write_rows_typed _ results [] _ _ (lookup_insert_eq _ _ _) Ht).
  cbn. rewrite insert_insert_eq, app_nil_r. reflexivity.
Qed.

(** C36: a row whose type assertions fail panics: the file keeps the header
    and the rows before it, and nothing is printed. *)
Theorem SaveResultsToMD_panic good bad rest modelName inputTokens maxTokens latency w :
  create_err os (mdFilename modelName) = None -> Forall typed good -> ~ typed bad ->
  SaveResultsToMD os (good ++ bad :: rest) modelName inputTokens maxTokens latency w =
  ({| files := <[mdFilename modelName := md_header modelName inputTokens maxTokens latency ++
                                         List.concat (map row_text good)]> (files w);
      dirs := dirs w; stdout := stdout w; logs := logs w |}, Panicked).
Proof.
  intros Hc Ht Hb. unfold SaveResultsToMD. rewrite Hc, create_then_header.
  rewrite (write_rows_typed _ good (bad :: rest) _ _ (lookup_insert_eq _ _ _) Ht).
  cbn [write_rows]. destruct (row_fields bad) eqn:Eb; [destruct Hb; apply row_fields_typed; congruence|]. cbn. rewrite insert_insert_eq. reflexivity.
Qed.

(** C24: type soundness of the row assertions: once the report file is
    created, [SaveResultsToMD] returns without panicking exactly when every
    row is well typed, an [int] followed by five [float64] values. *)
Theorem SaveResultsToMD_typing results modelName inputTokens maxTokens latency w :
  create_err os (mdFilename modelName) = None ->
  (snd (SaveResultsToMD os results modelName inputTokens maxTokens latency w) = Returned <->
   Forall typed results).
Proof.
  intros Hc. unfold SaveResultsToMD. rewrite Hc.
  match goal with |- context [write_rows ?p ?w0 results] =>
    rewrite <- (write_rows_outcome p results w0); destruct (write_rows p w0 results) as [w' []]
  end; reflexivity.
Qed.

(** C33: when the report file cannot be created, [SaveResultsToMD] logs
    the error and returns: no file is written and nothing is printed. *)
Lemma SaveResultsToMD_create_error results modelName inputTokens maxTokens latency w err :
  create_err os (mdFilename modelName) = Some err ->
  SaveResultsToMD os results modelName inputTokens maxTokens latency w =
  ({| files := files w; dirs := dirs w; stdout := stdout w; logs := logs w ++ [gostr "Error creating file: " ++ err] |}, Returned).
Proof. intros Hc. unfold SaveResultsToMD. rewrite Hc. reflexivity. Qed.

End Reports.

(** ** The layout of a table line *)

(** A line of bar-separated pieces. *)
Lemma Split1_bars cs last :
  Forall (fun x => ~ In "|"%char x) cs -> ~ In "|"%char last ->
  Split1 ("|"%char :: List.concat (map (fun x => x ++ ["|"%char]) cs) ++ last) "|"%char =
  [] :: cs ++ [last].
Proof.
  intros Hcs Hl. change ("|"%char :: ?t) with ([] ++ "|"%char :: t). rewrite Split1_app by auto.
  f_equal. induction Hcs as [|x cs Hx _ IH]; [apply Split1_none; exact Hl|].
  cbn [map List.concat]. rewrite <- !app_assoc. cbn [app]. rewrite Split1_app by exact Hx.
  rewrite IH. reflexivity.
Qed.

(** The bytes that may appear in a printed number: no white space, no bar. *)
Definition plainb (b : ascii) : bool := word_byteb b && negb (Ascii.eqb b "|"%char).

Definition cell_ok (x : bytes) : Prop := forallb plainb x = true /\ x <> [].

Lemma digit_plain c : digit_val c <> None -> plainb c = true.
Proof. destruct c as [[] [] [] [] [] [] [] []]; vm_compute; congruence. Qed.

Lemma utoa_plain u : 0 <= u -> forallb plainb (utoa u) = true /\ utoa u <> [].
Proof.
  intros Hu. destruct (utoa_read u Hu) as [N R]. split; [|exact N].
  pose proof (read_digits_some (utoa u) 0 ltac:(congruence)) as D.
  apply forallb_forall. intros c Hc. rewrite List.Forall_forall in D. apply digit_plain, D, Hc.
Qed.

Lemma fmt_d_ok n : cell_ok (fmt_d n).
Proof.
  unfold fmt_d, cell_ok. destruct (n <? 0) eqn:E; bool_facts.
  - destruct (utoa_plain (- n) ltac:(lia)) as [P _]. cbn. rewrite P. split; [reflexivity|discriminate].
  - apply utoa_plain. exact E.
Qed.

Lemma hundredths_nonneg m e : 0 <= m -> 0 <= hundredths m e.
Proof.
  intros Hm. apply rne_nonneg; [pose proof (Z.pow_nonneg 2 (Z.max 0 e)); nia|].
  apply Z.pow_pos_nonneg; lia.
Qed.

Lemma fmt_f2_ok x : wf64 x -> cell_ok (fmt_f2 x).
Proof.
  unfold cell_ok. destruct x as [neg m e|[]|]; cbn [wf64]; intros Hm; [|vm_compute; split; congruence..].
  pose proof (hundredths_nonneg m e Hm) as Hq. set (q := hundredths m e) in *. cbn [fmt_f2]. fold q.
  assert (Hd : forall d, 0 <= d < 10 -> plainb (digit d) = true)
    by (intros d Hd; apply digit_plain; rewrite digit_val_digit by exact Hd; discriminate).
  destruct (utoa_plain (q / 100)) as [P N]; [apply Z.div_pos; lia|].
  split; [|destruct neg; cbn; [discriminate|destruct (utoa (q / 100)); [congruence|discriminate]]].
  rewrite !forallb_app, P. cbn [forallb].
  rewrite !Hd by zdiv_lia. destruct neg; reflexivity.
Qed.

Lemma plain_no_bar x : forallb plainb x = true -> ~ In "|"%char x.
Proof.
  intros H Hin. rewrite forallb_forall in H. specialize (H _ Hin). vm_compute in H. discriminate.
Qed.

Lemma plain_word x : forallb plainb x = true -> Forall word_byte x.
Proof.
  intros H. apply word_byteb_spec. apply forallb_forall. intros b Hb.
  rewrite forallb_forall in H. specialize (H b Hb). unfold plainb in H.
  apply andb_prop in H as [H _]. exact H.
Qed.

(** A padded cell: a blank, the value padded to its width, a suffix, a
    blank. *)
Definition cell (w : nat) (x t : bytes) : bytes := [" "%char] ++ pad w x ++ t ++ [" "%char].

Lemma cell_no_bar w x t : forallb plainb (x ++ t) = true -> ~ In "|"%char (cell w x t).
Proof.
  intros H Hin. unfold cell, pad in Hin. rewrite forallb_app in H. apply andb_prop in H as [H1 H2].
  repeat (apply in_app_or in Hin as [Hin|Hin]).
  - destruct Hin as [Hin|[]]. discriminate.
  - apply repeat_spec in Hin. discriminate.
  - exact (plain_no_bar x H1 Hin).
  - exact (plain_no_bar t H2 Hin).
  - destruct Hin as [Hin|[]]. discriminate.
Qed.

Lemma TrimSpace_cell w x t : cell_ok (x ++ t) -> TrimSpace (cell w x t) = x ++ t.
Proof.
  intros [H N]. unfold cell, pad.
  replace ([" "%char] ++ (repeat " "%char (w - List.length x) ++ x) ++ t ++ [" "%char])
    with (repeat " "%char (S (w - List.length x)) ++ (x ++ t) ++ repeat " "%char 1)
    by (cbn; rewrite <- !app_assoc; reflexivity).
  apply TrimSpace_spaces; [apply plain_word; exact H|exact N].
Qed.

(** C25: a table line of [SaveResultsToMD] has the six columns of the table
    head, in order: read back between its bars and trimmed, its cells are
    exactly [%d] of the concurrency, [%.2f] of the four rates and times,
    and [%.2f] of [successRate*100] followed by [%]. *)
Theorem format_row_cells c g p mn mx sr :
  wf64 g -> wf64 p -> wf64 mn -> wf64 mx -> wf64 sr ->
  cells (format_row c g p mn mx sr) =
  [fmt_d c; fmt_f2 g; fmt_f2 p; fmt_f2 mn; fmt_f2 mx; fmt_f2 (fmul64 sr hundred) ++ ["%"%char]].
Proof.
  intros Hg Hp Hmn Hmx Hsr.
  pose proof (fmul64_wf sr hundred Hsr ltac:(cbn; lia)) as Hs.
  assert (Hpct : cell_ok (fmt_f2 (fmul64 sr hundred) ++ ["%"%char])).
  { destruct (fmt_f2_ok _ Hs) as [H N]. split; [rewrite forallb_app, H; reflexivity|].
    destruct (fmt_f2 _); [congruence|discriminate]. }
  assert (Hc : forall x, cell_ok x -> cell_ok (x ++ [])) by (intros x; rewrite app_nil_r; auto).
  replace (format_row c g p mn mx sr) with
    ("|"%char :: List.concat (map (fun x => x ++ ["|"%char])
       [cell 11 (fmt_d c) []; cell 32 (fmt_f2 g) []; cell 29 (fmt_f2 p) []; cell 12 (fmt_f2 mn) [];
        cell 12 (fmt_f2 mx) []; cell 11 (fmt_f2 (fmul64 sr hundred)) ["%"%char]]) ++ nl)
    by (unfold format_row, fmt_wd, fmt_wf2, cell, nl; cbn;
        app_norm; reflexivity).
  assert (Hok : forall x, x = fmt_d c \/ (exists y, wf64 y /\ x = fmt_f2 y) -> cell_ok (x ++ [])).
  { intros x [->|(y & Hy & ->)]; apply Hc; [apply fmt_d_ok|apply fmt_f2_ok, Hy]. }
  unfold cells. rewrite Split1_bars.
  - cbn [tl]. rewrite removelast_last. cbn [map].
    rewrite !TrimSpace_cell, !app_nil_r by
      (first [exact Hpct|apply Hok; first [left; reflexivity|right; eexists; split; [|reflexivity]; assumption]]).
    reflexivity.
  - repeat constructor; apply cell_no_bar;
      first [exact (proj1 Hpct)|apply Hok; first [left; reflexivity|right; eexists; split; [|reflexivity]; assumption]].
  - intros [H|[]]; discriminate.
Qed.

(** ** The JSON archive *)

Lemma safeModelName_no_slash m : ~ In "/"%char (safeModelName m).
Proof.
  destruct (safeModelName_props m) as (F & _ & _). intros Hin.
  rewrite List.Forall_forall in F. destruct (F _ Hin) as [H _]. apply H. reflexivity.
Qed.

Lemma archive_name_elem m c t : Filepath.elem_ok (archive_name m c t).
Proof.
  unfold Filepath.elem_ok, archive_name. destruct (safeModelName_props m) as (_ & N & _).
  split; [destruct (safeModelName m); [congruence|discriminate]|].
  split; [|split; intros E; apply (f_equal (@List.length _)) in E; revert E;
           rewrite !length_app; cbn [gostr list_ascii_of_string List.length]; lia].
  unfold Filepath.Separator.
  repeat first [apply safeModelName_no_slash|apply num_no_slash, fmt_d_chars
               |apply format_file_time_no_slash|(cbn; intuition discriminate)|apply not_in_app].
Qed.

(** The archive is written directly inside [model_outputs]. *)
Lemma archive_path m c t :
  Filepath.Join [outputDir; archive_name m c t] = outputDir ++ "/"%char :: archive_name m c t.
Proof.
  cbn [Filepath.Join outputDir gostr list_ascii_of_string].
  rewrite (Filepath.Clean_canonical _ [archive_name m c t]).
  - reflexivity.
  - constructor; [vm_compute; repeat split; intuition discriminate|].
    constructor; [apply archive_name_elem|constructor].
Qed.

(** [encoding/json] writes the archive's keys in byte order. *)
Lemma archive_keys outputs m c ts :
  sort_keys (map_to_list (archive_map outputs m c ts)) =
  [(gostr "concurrency", JInt c); (gostr "count", JInt (outputs_len outputs));
   (gostr "model_name", JString m); (gostr "outputs", outputs_json outputs); (gostr "timestamp", JRaw ts)].
Proof. unfold archive_map. vm_compute. reflexivity. Qed.

(** One [key: value] line of the archive at the first level. *)
Definition archive_line (key : string) (value : bytes) : bytes :=
  spaces 1 ++ escape_string (gostr key) ++ gostr ": " ++ value.


Section Archives.
Variable os : OS.

(** C26: when the directory can be created, the timestamp encoded and the
    file written, [SaveModelOutputs] writes the archive to
    [model_outputs/<safe>_concurrency_<n>_<time>.json], directly inside the
    directory it created, and returns that path. *)
Theorem SaveModelOutputs_ok outputs m c t w ts :
  mkdir_err os outputDir = None -> MarshalJSON (UTC t) = Ok ts ->
  write_err os (outputDir ++ "/"%char :: archive_name m c t) = None ->
  SaveModelOutputs os outputs m c t w =
  ({| files := <[outputDir ++ "/"%char :: archive_name m c t :=
                   MarshalIndent (of_map (archive_map outputs m c ts))]> (files w);
      dirs := union {[outputDir]} (dirs w); stdout := stdout w; logs := logs w |},
   Ok (outputDir ++ "/"%char :: archive_name m c t)).
Proof.
  intros Hm Hj Hw. unfold SaveModelOutputs, marshal_archive.
  rewrite Hm, archive_path, Hj, Hw. reflexivity.
Qed.

(** C31: a timestamp whose UTC year is outside [0, 9999] cannot be encoded:
    [SaveModelOutputs] returns the wrapped [MarshalJSON] error and writes
    no file. *)
Theorem SaveModelOutputs_year_error outputs m c t w :
  mkdir_err os outputDir = None -> year (UTC t) < 0 \/ 9999 < year (UTC t) ->
  SaveModelOutputs os outputs m c t w =
  ({| files := files w; dirs := union {[outputDir]} (dirs w); stdout := stdout w; logs := logs w |},
   Err (gostr "failed to marshal JSON: json: error calling MarshalJSON for type time.Time: " ++
        gostr "Time.MarshalJSON: year outside of range [0,9999]")).
Proof.
  intros Hm Hy. unfold SaveModelOutputs, marshal_archive, MarshalJSON, appendStrictRFC3339.
  rewrite Hm. unfold year in Hy. destruct (fields (UTC t)) as [[[[[y mo] d] h] mi] se].
  replace (negb ((0 <=? y) && (y <=? 9999))) with true
    by (symmetry; apply negb_true_iff, andb_false_iff; destruct Hy; [left|right]; apply Z.leb_gt; lia).
  cbn [app]. unfold gostr. cbn [list_ascii_of_string app]. reflexivity.
Qed.

(** C32: when the output directory cannot be created, [SaveModelOutputs]
    returns the wrapped error and changes nothing: no directory, no file,
    nothing printed or logged. *)
Lemma SaveModelOutputs_mkdir_error outputs m c t w err :
  mkdir_err os outputDir = Some err ->
  SaveModelOutputs os outputs m c t w = (w, Err (gostr "failed to create output directory: " ++ err)).
Proof. intros Hm. unfold SaveModelOutputs. rewrite Hm. reflexivity. Qed.

End Archives.

(** ** The banner *)

(** The header printed at an instant does not depend on the zone of the
    clock's location: the time is printed in UTC. *)
Theorem PrintBenchmarkHeader_zone t1 t2 m i o l w :
  sec t1 = sec t2 -> PrintBenchmarkHeader t1 m i o l w = PrintBenchmarkHeader t2 m i o l w.
Proof.
  intros E. unfold PrintBenchmarkHeader, format_banner_time, fields, UTC. cbn [sec offset]. rewrite E.
  reflexivity.
Qed.

(** A nil slice of outputs is archived as [null], an empty one as [[]],
    although both have count 0. *)
Example archive_nil_outputs :
  outputs_len None = outputs_len (Some []) /\
  MarshalIndent (of_map (archive_map None (gostr "m") 1 (gostr "t"))) <>
  MarshalIndent (of_map (archive_map (Some []) (gostr "m") 1 (gostr "t"))).
Proof. split; [reflexivity|]. intros H. vm_compute in H. discriminate. Qed.

(** C38: the archive name reads the clock of the timestamp's location, not
    UTC: for years from 0 on, two timestamps get the same archive name
    exactly when their local clocks show the same second ([sec + offset]),
    so at the end of summer time two runs an hour apart collide. *)
Theorem archive_name_local m c t1 t2 :
  0 <= year t1 -> 0 <= year t2 ->
  archive_name m c t1 = archive_name m c t2 <-> sec t1 + offset t1 = sec t2 + offset t2.
Proof.
  intros Hy1 Hy2. split.
  - unfold archive_name. intros E. rewrite !app_assoc in E.
    apply app_inv_tail, app_inv_head in E. apply fields_inj, format_file_time_fields; assumption.
  - intros E. unfold archive_name, format_file_time, fields. rewrite E. reflexivity.
Qed.

(** ** Witnesses *)

Definition os_ok : OS := {| create_err := fun _ => None; mkdir_err := fun _ => None; write_err := fun _ => None |}.
Definition world0 : World := {| files := empty; dirs := empty; stdout := []; logs := [] |}.
Definition row1 : list Value :=
  [VInt 4; VFloat (Finite false 25 0); VFloat (Finite false 3 (-1)); VFloat (Finite false 1 (-2));
   VFloat (Finite false 1 0); VFloat (Finite false 1 0)].

Lemma SaveResultsToMD_ok_witness :
  create_err os_ok (mdFilename (gostr "m")) = None /\ Forall typed [row1] /\
  SaveResultsToMD os_ok [row1] (gostr "m") 10 20 (Finite false 5 0) world0 =
  ({| files := <[mdFilename (gostr "m") := md_header (gostr "m") 10 20 (Finite false 5 0) ++
                                            List.concat (map row_text [row1])]> (files world0);
      dirs := dirs world0; stdout := stdout world0 ++ gostr "Results saved to: " ++ mdFilename (gostr "m") ++ nl ++ nl;
      logs := logs world0 |}, Returned).
Proof.
  assert (H1 : create_err os_ok (mdFilename (gostr "m")) = None) by reflexivity.
  assert (H2 : Forall typed [row1]) by repeat constructor.
  split; [exact H1|split; [exact H2|apply SaveResultsToMD_ok; assumption]].
Defined.

Lemma SaveResultsToMD_typing_witness :
  create_err os_ok (mdFilename (gostr "m")) = None /\
  (snd (SaveResultsToMD os_ok [row1; [VInt 1]] (gostr "m") 10 20 (Finite false 5 0) world0) = Returned <->
   Forall typed [row1; [VInt 1]]).
Proof.
  assert (H1 : create_err os_ok (mdFilename (gostr "m")) = None) by reflexivity.
  split; [exact H1|exact (SaveResultsToMD_typing os_ok _ _ _ _ _ _ H1)].
Defined.

Lemma SaveResultsToMD_panic_witness :
  create_err os_ok (mdFilename (gostr "m")) = None /\ Forall typed [row1] /\
  ~ typed [VString (gostr "x")] /\
  SaveResultsToMD os_ok ([row1] ++ [VString (gostr "x")] :: []) (gostr "m") 10 20 (Finite false 5 0) world0 =
  ({| files := <[mdFilename (gostr "m") := md_header (gostr "m") 10 20 (Finite false 5 0) ++
                                            List.concat (map row_text [row1])]> (files world0);
      dirs := dirs world0; stdout := stdout world0; logs := logs world0 |}, Panicked).
Proof.
  assert (H1 : create_err os_ok (mdFilename (gostr "m")) = None) by reflexivity.
  assert (H2 : Forall typed [row1]) by repeat constructor.
  assert (H3 : ~ typed [VString (gostr "x")]) by (unfold typed, row_type; cbn; intros H; typing_inv).
  split; [exact H1|split; [exact H2|split; [exact H3|apply SaveResultsToMD_panic; assumption]]].
Defined.

Lemma format_row_cells_witness :
  wf64 (Finite false 25 0) /\ wf64 (Finite false 3 (-1)) /\ wf64 (Finite false 1 (-2)) /\
  wf64 (Finite false 1 0) /\ wf64 (Finite false 1 0) /\
  cells (format_row 4 (Finite false 25 0) (Finite false 3 (-1)) (Finite false 1 (-2))
                      (Finite false 1 0) (Finite false 1 0)) =
  [fmt_d 4; fmt_f2 (Finite false 25 0); fmt_f2 (Finite false 3 (-1)); fmt_f2 (Finite false 1 (-2));
   fmt_f2 (Finite false 1 0); fmt_f2 (fmul64 (Finite false 1 0) hundred) ++ ["%"%char]].
Proof.
  repeat (split; [cbn; lia|]). apply format_row_cells; cbn; lia.
Defined.

Definition epoch : Time := {| sec := 0; nsec := 0; offset := 0 |}.
Definition epoch_json : bytes := ["034"%char] ++ gostr "1970-01-01T00:00:00Z" ++ ["034"%char].

Lemma SaveModelOutputs_ok_witness :
  mkdir_err os_ok outputDir = None /\ MarshalJSON (UTC epoch) = Ok epoch_json /\
  write_err os_ok (outputDir ++ "/"%char :: archive_name (gostr "m") 2 epoch) = None /\
  SaveModelOutputs os_ok (Some [gostr "hi"]) (gostr "m") 2 epoch world0 =
  ({| files := <[outputDir ++ "/"%char :: archive_name (gostr "m") 2 epoch :=
                   MarshalIndent (of_map (archive_map (Some [gostr "hi"]) (gostr "m") 2 epoch_json))]> (files world0);
      dirs := union {[outputDir]} (dirs world0); stdout := stdout world0; logs := logs world0 |},
   Ok (outputDir ++ "/"%char :: archive_name (gostr "m") 2 epoch)).
Proof.
  assert (H1 : mkdir_err os_ok outputDir = None) by reflexivity.
  assert (H2 : MarshalJSON (UTC epoch) = Ok epoch_json) by (vm_compute; reflexivity).
  assert (H3 : write_err os_ok (outputDir ++ "/"%char :: archive_name (gostr "m") 2 epoch) = None) by reflexivity.
  split; [exact H1|split; [exact H2|split; [exact H3|]]].
  apply SaveModelOutputs_ok; assumption.
Defined.

Definition ancient : Time := {| sec := -70000000000; nsec := 0; offset := 0 |}.

Lemma SaveModelOutputs_year_error_witness :
  mkdir_err os_ok outputDir = None /\ (year (UTC ancient) < 0 \/ 9999 < year (UTC ancient)) /\
  SaveModelOutputs os_ok None (gostr "m") 2 ancient world0 =
  ({| files := files world0; dirs := union {[outputDir]} (dirs world0); stdout := stdout world0;
      logs := logs world0 |},
   Err (gostr "failed to marshal JSON: json: error calling MarshalJSON for type time.Time: " ++
        gostr "Time.MarshalJSON: year outside of range [0,9999]")).
Proof.
  assert (H1 : mkdir_err os_ok outputDir = None) by reflexivity.
  assert (H2 : year (UTC ancient) < 0 \/ 9999 < year (UTC ancient)) by (left; vm_compute; reflexivity).
  split; [exact H1|split; [exact H2|apply SaveModelOutputs_year_error; assumption]].
Defined.

Lemma PrintBenchmarkHeader_zone_witness :
  sec {| sec := 0; nsec := 0; offset := 3600 |} = sec epoch /\
  PrintBenchmarkHeader {| sec := 0; nsec := 0; offset := 3600 |} (gostr "m") 1 2 (Finite false 5 0) world0 =
  PrintBenchmarkHeader epoch (gostr "m") 1 2 (Finite false 5 0) world0.
Proof. split; [reflexivity|apply PrintBenchmarkHeader_zone; reflexivity]. Defined.

(** At the end of summer time (offset one hour, then zero), two runs an
    hour apart get the same archive name. *)
Lemma archive_name_local_witness :
  let t1 := {| sec := 0; nsec := 0; offset := 3600 |} in
  let t2 := {| sec := 3600; nsec := 0; offset := 0 |} in
  0 <= year t1 /\ 0 <= year t2 /\ sec t1 <> sec t2 /\ archive_name (gostr "m") 4 t1 = archive_name (gostr "m") 4 t2.
Proof.
  cbv zeta. assert (Hy1 : 0 <= year {| sec := 0; nsec := 0; offset := 3600 |}) by (vm_compute; discriminate).
  assert (Hy2 : 0 <= year {| sec := 3600; nsec := 0; offset := 0 |}) by (vm_compute; discriminate).
  split; [exact Hy1|split; [exact Hy2|split; [discriminate|]]].
  apply (archive_name_local (gostr "m") 4 _ _ Hy1 Hy2). reflexivity.
Defined.

(** An OS on which every creation fails. *)
Definition os_denied : OS :=
  {| create_err := fun _ => Some (gostr "permission denied"); mkdir_err := fun _ => Some (gostr "permission denied");
     write_err := fun _ => None |}.

Lemma SaveResultsToMD_create_error_witness :
  create_err os_denied (mdFilename (gostr "m")) = Some (gostr "permission denied") /\
  SaveResultsToMD os_denied [row1] (gostr "m") 10 20 (Finite false 5 0) world0 =
  ({| files := files world0; dirs := dirs world0; stdout := stdout world0;
      logs := logs world0 ++ [gostr "Error creating file: " ++ gostr "permission denied"] |}, Returned).
Proof. split; [reflexivity|]. apply SaveResultsToMD_create_error. reflexivity. Defined.

Lemma SaveModelOutputs_mkdir_error_witness :
  mkdir_err os_denied outputDir = Some (gostr "permission denied") /\
  SaveModelOutputs os_denied (Some [gostr "hi"]) (gostr "m") 2 epoch world0 =
  (world0, Err (gostr "failed to create output directory: " ++ gostr "permission denied")).
Proof. split; [reflexivity|]. apply SaveModelOutputs_mkdir_error. reflexivity. Defined.

End Report.
