(* ===== verification/Archive.v ===== *)
(** * Reading the JSON archive back

    [SaveModelOutputs] writes the archive with [json.MarshalIndent] of a
    [map[string]interface{}] whose [timestamp] is a [time.Time]; the
    timestamp is written by its own [MarshalJSON] as the quoted RFC 3339
    text ([Report.marshal_archive]).  Read back with [JsonDoc.parse], the
    archive is the object of the five fields in byte order of their keys,
    the timestamp a plain string, the model name and each output as
    [string([]rune(s))] (invalid UTF-8 replaced by U+FFFD). *)

From Stdlib Require Import ZArith List String Ascii Lia Bool.
From S2P Require Import Prelude GoString GoLib GoTime Json JsonRead JsonDoc Report.
Import ListNotations Utf8 Fmt GoTime Json JsonRead Utf8Enc JsonDoc Report.
Open Scope Z_scope.

Module Archive.

(** The bytes [appendString] copies as they are: printable ASCII other than
    the quote, the backslash and the three HTML bytes. *)
Definition plain (c : ascii) : bool :=
  let v := byte_val c in
  (32 <=? v) && (v <? 128) && negb ((v =? 34) || (v =? 92) || (v =? 60) || (v =? 62) || (v =? 38)).

Lemma plain_spec c : plain c = true <->
  32 <= byte_val c < 128 /\ byte_val c <> 34 /\ byte_val c <> 92 /\
  byte_val c <> 60 /\ byte_val c <> 62 /\ byte_val c <> 38.
Proof.
  unfold plain. rewrite !andb_true_iff, negb_true_iff, !orb_false_iff, Z.leb_le, Z.ltb_lt, !Z.eqb_neq.
  tauto.
Qed.

Lemma runes_plain s : forallb plain s = true -> runes s = map (fun c => (byte_val c, [c])) s.
Proof.
  induction s as [|c s IH]; [reflexivity|]. cbn [forallb]. intros H. apply andb_prop in H as [Hc H].
  apply plain_spec in Hc.
  rewrite runes_cons by discriminate. rewrite decode_ascii by (unfold RuneSelf; lia).
  cbn [fst snd firstn skipn map]. change (firstn 0 s) with (@nil ascii). change (skipn 0 s) with s.
  rewrite IH by exact H. reflexivity.
Qed.

Lemma escape_plain s : forallb plain s = true -> escape_string s = quote :: s ++ [quote].
Proof.
  intros H. unfold escape_string. rewrite runes_plain by exact H. do 2 f_equal.
  induction s as [|c s IH]; [reflexivity|]. cbn [forallb] in H. apply andb_prop in H as [Hc H].
  cbn [map List.concat]. rewrite IH by exact H. cbn [escape_rune]. apply plain_spec in Hc.
  unfold RuneSelf. destruct (Z.ltb_spec (byte_val c) 128); [|lia]. unfold escape_byte.
  destruct (Z.eqb_spec (byte_val c) 34); [lia|]. destruct (Z.eqb_spec (byte_val c) 92); [lia|].
  destruct (Z.eqb_spec (byte_val c) 8); [lia|]. destruct (Z.eqb_spec (byte_val c) 12); [lia|].
  destruct (Z.eqb_spec (byte_val c) 10); [lia|]. destruct (Z.eqb_spec (byte_val c) 13); [lia|].
  destruct (Z.eqb_spec (byte_val c) 9); [lia|]. destruct (Z.ltb_spec (byte_val c) 32); [lia|].
  destruct (Z.eqb_spec (byte_val c) 60); [lia|]. destruct (Z.eqb_spec (byte_val c) 62); [lia|].
  destruct (Z.eqb_spec (byte_val c) 38); [lia|]. reflexivity.
Qed.

Lemma coerce_plain s : forallb plain s = true -> coerce_utf8 s = s.
Proof.
  intros H. unfold coerce_utf8. rewrite runes_plain by exact H.
  induction s as [|c s IH]; [reflexivity|]. cbn [forallb] in H. apply andb_prop in H as [Hc H].
  cbn [map List.concat fst]. rewrite IH by exact H. apply plain_spec in Hc.
  rewrite EncodeRune_1, to_byte_val by lia. reflexivity.
Qed.

(** ** The timestamp text is plain *)

Lemma num_plain c : num_char c -> plain c = true.
Proof.
  intros [->|D]; [reflexivity|]. apply plain_spec. unfold digit_val in D.
  destruct ((0 <=? byte_val c - 48) && (byte_val c - 48 <? 10)) eqn:B; [|congruence].
  apply andb_prop in B as [B1 B2]. bool_facts. lia.
Qed.

Lemma forallb_num l : Forall num_char l -> forallb plain l = true.
Proof. intros H. apply forallb_forall. intros c Hc. apply num_plain. rewrite Forall_forall in H. auto. Qed.

Lemma appendInt_plain x w : forallb plain (appendInt x w) = true.
Proof.
  unfold appendInt. rewrite !forallb_app. apply andb_true_intro. split; [destruct (x <? 0); reflexivity|].
  apply andb_true_intro. split; [|apply forallb_num, utoa_chars; lia].
  induction (w - _)%nat as [|k IH]; [reflexivity|]. exact IH.
Qed.

Lemma drop_trailing_zeros_plain l : forallb plain l = true -> forallb plain (drop_trailing_zeros l) = true.
Proof.
  induction l as [|c l IH]; [reflexivity|]. cbn [forallb drop_trailing_zeros]. intros H.
  apply andb_prop in H as [Hc H]. specialize (IH H).
  destruct (drop_trailing_zeros l) as [|c' r]; [destruct (Ascii.eqb c "0"%char); cbn; rewrite ?Hc; reflexivity|].
  cbn [forallb] in *. rewrite Hc. exact IH.
Qed.

Lemma forallb_app_true a b : forallb plain a = true -> forallb plain b = true -> forallb plain (a ++ b) = true.
Proof. intros Ha Hb. rewrite forallb_app, Ha, Hb. reflexivity. Qed.

Lemma forallb_cons_true c l : plain c = true -> forallb plain l = true -> forallb plain (c :: l) = true.
Proof. intros Hc Hl. cbn. rewrite Hc, Hl. reflexivity. Qed.

(** Split a text into its pieces and show each plain. *)
Ltac plain_pieces :=
  repeat (apply appendInt_plain || apply drop_trailing_zeros_plain ||
          apply forallb_app_true || apply forallb_cons_true || reflexivity).

(** Every byte of [appendStrictRFC3339]'s text is plain: [MarshalJSON]
    writes it inside quotes as [appendString] would. *)
Lemma rfc3339_plain t b : appendStrictRFC3339 t = Ok b -> forallb plain b = true.
Proof.
  unfold appendStrictRFC3339. destruct (fields t) as [[[[[y mo] d] h] mi] s].
  destruct (negb _); [discriminate|]. destruct (negb _); [discriminate|]. intros [= <-].
  unfold append_nano, append_zone.
  destruct (nsec t =? 0), (offset t =? 0), (Z.quot (offset t) 60 <? 0); plain_pieces.
Qed.

(** ** The archive read back *)

Lemma decode_outputs outputs :
  decode (outputs_json outputs) = outputs_json (option_map (map coerce_utf8) outputs).
Proof. destruct outputs as [l|]; [|reflexivity]. cbn. rewrite !map_map. reflexivity. Qed.

Lemma readable_outputs outputs : readable (outputs_json outputs).
Proof.
  destruct outputs as [l|]; [|exact I]. apply readable_array. apply Forall_forall.
  intros x Hx. apply in_map_iff in Hx as (s & <- & _). exact I.
Qed.

Lemma ok_inj {A E} (x y : A) : @Ok A E x = Ok y -> x = y.
Proof. intros H. injection H. exact id. Qed.

(** The quoted text of [MarshalJSON] is a string literal [appendString]
    could have written. *)
Lemma marshal_quoted b : forallb plain b = true -> ["034"%char] ++ b ++ ["034"%char] = escape_string b.
Proof. intros P. rewrite escape_plain by exact P. reflexivity. Qed.

(** The document an archive reads back as: the five fields in byte order
    of their keys, the model name and the outputs as [string([]rune(s))],
    the timestamp the plain text [stamp]. *)
Definition archive_doc (outputs : option (list bytes)) (m : bytes) (c : Z) (stamp : bytes) : json :=
  JObject [(gostr "concurrency", JInt c); (gostr "count", JInt (outputs_len outputs));
           (gostr "model_name", JString (coerce_utf8 m));
           (gostr "outputs", outputs_json (option_map (map coerce_utf8) outputs));
           (gostr "timestamp", JString stamp)].

(** C28: the archive reads back.  Whenever [SaveModelOutputs] marshals its
    archive, reading the document back gives the object of the five fields
    in byte order of their keys: the concurrency, the count of outputs, the
    model name and the outputs as [string([]rune(s))], and the timestamp as
    the plain RFC 3339 text of [appendStrictRFC3339] of the UTC time. *)
Theorem archive_roundtrip outputs m c t data :
  marshal_archive outputs m c t = Ok data ->
  exists stamp, appendStrictRFC3339 (UTC t) = Ok stamp /\ parse data = Some (archive_doc outputs m c stamp).
Proof.
  unfold marshal_archive, MarshalJSON. destruct (appendStrictRFC3339 (UTC t)) as [b|e] eqn:E; [|discriminate].
  intros H%ok_inj. subst data. exists b. split; [reflexivity|]. pose proof (rfc3339_plain _ _ E) as P.
  rewrite MarshalIndent_parse.
  - unfold of_map. rewrite archive_keys. cbn [decode map fst snd].
    rewrite marshal_quoted, unquote_escape by exact P. rewrite (coerce_plain b P), decode_outputs.
    rewrite !(coerce_plain (gostr _)) by reflexivity. reflexivity.
  - unfold of_map. rewrite archive_keys. cbn [readable fold_right snd].
    split; [exact I|split; [exact I|split; [exact I|split; [apply readable_outputs|]]]].
    split; [exists b; apply marshal_quoted, P|exact I].
Qed.

(** The archive of two outputs, the second an invalid byte: it reads back
    as U+FFFD, the bytes EF BF BD. *)
Definition archive0 : bytes :=
  match marshal_archive (Some [gostr "hi"; ["255"%char]]) (gostr "m") 2 epoch with Ok d => d | Err _ => [] end.

Lemma archive_roundtrip_witness :
  marshal_archive (Some [gostr "hi"; ["255"%char]]) (gostr "m") 2 epoch = Ok archive0 /\
  exists stamp, appendStrictRFC3339 (UTC epoch) = Ok stamp /\
  parse archive0 = Some (JObject [(gostr "concurrency", JInt 2); (gostr "count", JInt 2);
                                  (gostr "model_name", JString (gostr "m"));
                                  (gostr "outputs", JArray [JString (gostr "hi"); JString ["239"%char; "191"%char; "189"%char]]);
                                  (gostr "timestamp", JString stamp)]).
Proof.
  assert (H : marshal_archive (Some [gostr "hi"; ["255"%char]]) (gostr "m") 2 epoch = Ok archive0)
    by (vm_compute; reflexivity).
  split; [exact H|]. destruct (archive_roundtrip _ _ _ _ _ H) as (st & E1 & E2).
  exists st. split; [exact E1|]. rewrite E2. vm_compute. reflexivity.
Defined.

End Archive.
